(** * Meross-js: registry, device model, capability factory, codec and manager

    A shallow embedding of the JavaScript/TypeScript sources of the Meross
    client: [model.js], [devices.js] / [src/devices.ts],
    [device-registry.js] / [src/device-registry.ts], [device-factory.js] /
    [device-factory.ts], [src/mqtt.js] / [mqtt.ts] and [manager.js].

    Conventions.
    - A JavaScript object reference is a location [loc]; the objects live in a
      store [heap], so two references to one device observe the same fields.
    - A value that may be [undefined] is an [option]; [None] is [undefined].
    - A call that may [throw] returns a [completion].
    - A plain object used as a map is the list of its own properties; [in]
      and indexing also see the members it inherits from [Object.prototype].
    - [console.*] calls have no effect on the modelled state and are left out.
    - Where the JavaScript file and its TypeScript port differ, both bodies
      are embedded: in [Module Js] and [Module Ts], [MqttJs] and [MqttTs],
      or under names that end in [_js] and [_ts]. *)

From stdpp Require Import base strings list gmap pretty.
From Stdlib Require Import ZArith Lia Ascii.

Set Default Proof Using "Type".

(** ** JavaScript preliminaries *)

Inductive JsError : Type :=
  | Error (message : string)
  | TypeError (message : string)
  | CommandTimeout (message : string).

Inductive completion (A : Type) : Type :=
  | Return (a : A)
  | Throw (e : JsError).
Arguments Return {A} a.
Arguments Throw {A} e.

Definition is_throw {A} (c : completion A) : bool :=
  match c with Throw _ => true | Return _ => false end.

(** [`${v}`] for a string that may be [undefined]. *)
Definition template (v : option string) : string := default "undefined" v.

(** Truthiness of strings and numbers. *)
Definition truthy_string (s : string) : bool := negb (String.eqb s "").
Definition truthy_number (z : Z) : bool := negb (Z.eqb z 0).

(** A plain object used as a dictionary with string keys.  The list holds
    the own properties in the order in which they were created, which is the
    order of [Object.values] and [Object.entries] for keys that are not array
    indices.  [dict_get] and [dict_has] see own properties only; [dict_lookup]
    and [dict_in] below are [d[k]] and [k in d], which also see the members a
    plain object inherits from [Object.prototype]. *)
Section Dict.
Context {V : Type}.

Definition dict_get (k : string) (d : list (string * V)) : option V :=
  snd <$> List.find (λ kv, String.eqb (fst kv) k) d.

Definition dict_has (k : string) (d : list (string * V)) : bool :=
  bool_decide (is_Some (dict_get k d)).

(** [d[k] = v] for a key other than [__proto__]: overwrite in place, or
    append a new property. *)
Fixpoint dict_set (k : string) (v : V) (d : list (string * V)) : list (string * V) :=
  match d with
  | [] => [(k, v)]
  | (k', v') :: d' =>
      if String.eqb k' k then (k, v) :: d' else (k', v') :: dict_set k v d'
  end.

(** [delete d[k]]. *)
Definition dict_delete (k : string) (d : list (string * V)) : list (string * V) :=
  List.filter (λ kv, negb (String.eqb (fst kv) k)) d.

Definition dict_values (d : list (string * V)) : list V := snd <$> d.

(** The names of the members of [Object.prototype]. *)
Definition Object_prototype : list string :=
  [ "constructor"; "__defineGetter__"; "__defineSetter__"; "hasOwnProperty";
    "__lookupGetter__"; "__lookupSetter__"; "isPrototypeOf"; "propertyIsEnumerable";
    "toString"; "valueOf"; "__proto__"; "toLocaleString" ].

Definition inherited (k : string) : bool := existsb (String.eqb k) Object_prototype.

(** [k in d] *)
Definition dict_in (k : string) (d : list (string * V)) : bool :=
  dict_has k d || inherited k.

(** What [d[k]] evaluates to when it is not [undefined]: the value of the own
    property, or else the member of [Object.prototype] of that name (a
    function, or the prototype object itself for [__proto__]); every such
    member is truthy, and two of them are the same object only when they have
    the same name. *)
Inductive Member : Type :=
  | Own (v : V)
  | Inherited (name : string).

(** [d[k]]; [None] is [undefined]. *)
Definition dict_lookup (k : string) (d : list (string * V)) : option Member :=
  match dict_get k d with
  | Some v => Some (Own v)
  | None => if inherited k then Some (Inherited k) else None
  end.







End Dict.
Arguments Member V : clear implicits.

Global Instance Member_eq_dec {V : Type} `{EqDecision V} : EqDecision (Member V).
Proof. solve_decision. Defined.

(** ** model.js *)

Module OnlineStatus.
Definition ONLINE : Z := 1.
Definition OFFLINE : Z := 2.
Definition UNKNOWN : Z := -1.
End OnlineStatus.

Module Namespace.
Definition SYSTEM_ALL : string := "Appliance.System.All".
Definition SYSTEM_ABILITY : string := "Appliance.System.Ability".
Definition CONTROL_BIND : string := "Appliance.Control.Bind".
Definition CONTROL_UNBIND : string := "Appliance.Control.Unbind".
Definition CONTROL_TOGGLE : string := "Appliance.Control.Toggle".
Definition CONTROL_TOGGLEX : string := "Appliance.Control.ToggleX".
Definition SYSTEM_DIGEST_HUB : string := "Appliance.Digest.Hub".
Definition HUB_BATTERY : string := "Appliance.Hub.Battery".
End Namespace.

(** ** interfaces.d.ts *)

Record ChannelData := { cd_name : option string; cd_type : option string }.

Record ChannelInfo := {
  index : nat;
  ch_name : option string;
  ch_type : option string;
  master : bool;
}.

(** The inventory record.  Every property but [uuid] may be missing from the
    object the HTTP API returned. *)
Module Info.
Record HTTPDeviceInfo := {
  uuid : string;
  online_status : option Z;
  dev_name : option string;
  device_type : option string;
  channels : option (list ChannelData);
  fmware_version : option string;
  hdware_version : option string;
}.
End Info.
Abbreviation HTTPDeviceInfo := Info.HTTPDeviceInfo.

Record HTTPSubDeviceInfo := {
  sub_device_type : option string;
  sub_device_name : option string;
  (* the camel-case properties devices.js reads from the same record *)
  subDeviceType : option string;
  subDeviceName : option string;
}.

(** The ability list a device reports.  The broker sends an object whose keys
    are ability names and whose values are (empty) objects; callers may also
    hand in an array of names.  [JsObject] stands for some plain object, and
    [props] are the own properties in the order of [Object.entries]. *)
Inductive JsValue := JsString (s : string) | JsObject.

Inductive Abilities :=
  | AbilityArray (names : list string)
  | AbilityMap (props : list (string * JsValue)).

(** ** devices.js / src/devices.ts: the device objects *)

Definition loc := nat.

Inductive DeviceClass := BaseDevice | HubDevice | GenericSubDevice.

Global Instance DeviceClass_eq_dec : EqDecision DeviceClass.
Proof. solve_decision. Defined.

(** One record for the three classes; a property a class never assigns stays
    [None] (or empty). *)
Record Device := {
  cls : DeviceClass;
  uuid : string;
  channels : list ChannelInfo;
  name : option string;
  type : option string;
  firmwareVersion : option string;
  hardwareVersion : option string;
  online : option Z;
  (* properties that only exist once devices.js' updateFromHTTPState ran *)
  fwversion : option string;
  hwversion : option string;
  (* HubDevice *)
  subDevices : list (string * loc);
  (* GenericSubDevice *)
  subDeviceID : option string;
  id : option string;
  _type : option string;
  _name : option string;
  hub : option loc;
  (* assigned by the factory of device-factory *)
  abilitiesSpec : option Abilities;
}.

Definition heap := loc → Device.

(** [h[l ↦ d]] *)
Definition store (l : loc) (d : Device) (h : heap) : heap :=
  λ l', if Nat.eqb l' l then d else h l'.

(** [static parseChannels(channelData = [])] *)
Fixpoint parseChannels_from (i : nat) (channelData : list ChannelData) : list ChannelInfo :=
  match channelData with
  | [] => []
  | c :: rest =>
      {| index := i; ch_name := cd_name c; ch_type := cd_type c;
         master := Nat.eqb i 0 |} :: parseChannels_from (S i) rest
  end.

Definition parseChannels (channelData : option (list ChannelData)) : list ChannelInfo :=
  parseChannels_from 0 (default [] channelData).

(** [get internalID()] of BaseDevice, inherited by the two subclasses. *)
Definition internalID (d : Device) : string := "//BASE:" +:+ uuid d.

(** [get internal_id()] of GenericSubDevice (a different property). *)
Definition internal_id (d : Device) : string :=
  "//BASE:" +:+ uuid d +:+ "//SUB:" +:+ template (subDeviceID d).

(** [get onlineStatus()].  BaseDevice and HubDevice return [this.online].
    GenericSubDevice reads [this.hub.onlineStatus] first: that is the getter
    of the class of the object stored in [hub], which is declared a HubDevice
    but is whatever enrolled device of that UUID the constructor found, a
    GenericSubDevice included.  [hub] is assigned by every constructor run
    that returns.  [n] bounds the number of nested calls of the getter. *)
Fixpoint onlineStatus_upto (n : nat) (h : heap) (l : loc) : option Z :=
  let this := h l in
  match cls this, hub this, n with
  | GenericSubDevice, Some hl, S n' =>
      let hub_onlineStatus := onlineStatus_upto n' h hl in
      if bool_decide (hub_onlineStatus ≠ Some OnlineStatus.ONLINE)
      then hub_onlineStatus
      else online this
  | _, _, _ => online this
  end.

(** A constructor can only store in [hub] a reference to an object that was
    built before it ran, that is, to a smaller location. *)
Definition hubs_older (h : heap) : Prop :=
  ∀ l hl, hub (h l) = Some hl → hl < l.

(** The getter of the object at [l].  In a store with [hubs_older] the chain
    of hub references that starts at [l] has at most [l] links, so the bound
    is never reached; it is also not reached when the hub of [l] is no
    sub-device, wherever that hub is stored.  It is reached only on a chain
    of sub-devices that does not descend, on which the JavaScript getter may
    not return at all; no run of the constructors builds one. *)
Definition onlineStatus (h : heap) (l : loc) : option Z :=
  onlineStatus_upto (S l) h l.

Definition mismatch_message (this : Device) (deviceInfo : HTTPDeviceInfo) : string :=
  "Cannot update device (" +:+ uuid this +:+ ") with HttpDeviceInfo for device id "
  +:+ Info.uuid deviceInfo.

Module Js.
(** devices.js: [constructor(deviceUUID, manager, {dev_name = 'unknown', ...})];
    a default applies when the property is [undefined]. *)
Definition new_BaseDevice (c : DeviceClass) (deviceUUID : string)
    (config : HTTPDeviceInfo) : Device :=
  {| cls := c;
     uuid := deviceUUID;
     channels := parseChannels (Info.channels config);
     name := Some (default "unknown" (Info.dev_name config));
     type := Some (default "unknown" (Info.device_type config));
     firmwareVersion := Some (default "unknown" (Info.fmware_version config));
     hardwareVersion := Some (default "unknown" (Info.hdware_version config));
     online := Some (default OnlineStatus.UNKNOWN (Info.online_status config));
     fwversion := None; hwversion := None;
     subDevices := [];
     subDeviceID := None; id := None; _type := None; _name := None;
     hub := None; abilitiesSpec := None |}.

(** devices.js, [updateFromHTTPState]: the two version strings are written
    to [fwversion] and [hwversion]. *)
Definition updateFromHTTPState (h : heap) (l : loc) (deviceInfo : HTTPDeviceInfo)
    : completion heap :=
  let this := h l in
  if bool_decide (Info.uuid deviceInfo ≠ uuid this)
  then Throw (Error (mismatch_message this deviceInfo))
  else Return (store l
    {| cls := cls this; uuid := uuid this;
       channels := parseChannels (Info.channels deviceInfo);
       name := Info.dev_name deviceInfo;
       type := Info.device_type deviceInfo;
       firmwareVersion := firmwareVersion this;
       hardwareVersion := hardwareVersion this;
       online := Info.online_status deviceInfo;
       fwversion := Info.fmware_version deviceInfo;
       hwversion := Info.hdware_version deviceInfo;
       subDevices := subDevices this;
       subDeviceID := subDeviceID this; id := id this;
       _type := _type this; _name := _name this;
       hub := hub this; abilitiesSpec := abilitiesSpec this |} h).
End Js.

(** [x || dflt] on a string / a number that may be undefined. *)
Definition or_string (v : option string) (dflt : string) : string :=
  match v with Some s => if truthy_string s then s else dflt | None => dflt end.
Definition or_number (v : option Z) (dflt : Z) : Z :=
  match v with Some z => if truthy_number z then z else dflt | None => dflt end.

Module Ts.
(** src/devices.ts: [this.name = config.dev_name || 'unknown'], ... *)
Definition new_BaseDevice (c : DeviceClass) (deviceUUID : string)
    (config : HTTPDeviceInfo) : Device :=
  {| cls := c;
     uuid := deviceUUID;
     channels := parseChannels (Info.channels config);
     name := Some (or_string (Info.dev_name config) "unknown");
     type := Some (or_string (Info.device_type config) "unknown");
     firmwareVersion := Some (or_string (Info.fmware_version config) "unknown");
     hardwareVersion := Some (or_string (Info.hdware_version config) "unknown");
     online := Some (or_number (Info.online_status config) OnlineStatus.UNKNOWN);
     fwversion := None; hwversion := None;
     subDevices := [];
     subDeviceID := None; id := None; _type := None; _name := None;
     hub := None; abilitiesSpec := None |}.

(** src/devices.ts, [updateFromHTTPState]. *)
Definition updateFromHTTPState (h : heap) (l : loc) (deviceInfo : HTTPDeviceInfo)
    : completion heap :=
  let this := h l in
  if bool_decide (Info.uuid deviceInfo ≠ uuid this)
  then Throw (Error (mismatch_message this deviceInfo))
  else Return (store l
    {| cls := cls this; uuid := uuid this;
       channels := parseChannels (Info.channels deviceInfo);
       name := Info.dev_name deviceInfo;
       type := Info.device_type deviceInfo;
       firmwareVersion := Info.fmware_version deviceInfo;
       hardwareVersion := Info.hdware_version deviceInfo;
       online := Info.online_status deviceInfo;
       fwversion := fwversion this;
       hwversion := hwversion this;
       subDevices := subDevices this;
       subDeviceID := subDeviceID this; id := id this;
       _type := _type this; _name := _name this;
       hub := hub this; abilitiesSpec := abilitiesSpec this |} h).
End Ts.

(** ** device-registry.js / src/device-registry.ts *)

(** [devicesByInternalID], a plain object.  The keys the registry writes are
    internal identifiers, which start with [//BASE:]: none of them is an array
    index, so [Object.values] lists the devices in the order of enrolment,
    and none names a member of [Object.prototype]. *)
Abbreviation Registry := (list (string * loc)).

Definition relinquish_message (deviceID : string) : string :=
  "Cannot relinquish device " +:+ deviceID +:+ " as it does not belong to this registry.".

(** [const dev = this.devicesByInternalID[deviceID]; if (!dev) throw ...;
    delete this.devicesByInternalID[deviceID]]: a device and an inherited
    member are both truthy, and [delete] removes an own property only. *)
Definition relinquishDevice (reg : Registry) (deviceID : string) : completion Registry :=
  match dict_lookup deviceID reg with
  | None => Throw (Error (relinquish_message deviceID))
  | Some _ => Return (dict_delete deviceID reg)
  end.

(** [if (device.internalID in this.devicesByInternalID) return;
    this.devicesByInternalID[device.internalID] = device] *)
Definition enrollDevice (h : heap) (reg : Registry) (device : loc) : Registry :=
  if dict_in (internalID (h device)) reg
  then reg
  else dict_set (internalID (h device)) device reg.

(** [return this.devicesByInternalID[deviceID]]: [None] is [undefined]. *)
Definition lookupByID (reg : Registry) (deviceID : string) : option (Member loc) :=
  dict_lookup deviceID reg.

(** [Return None] is the [null] result. *)
Definition lookupByUUID (h : heap) (reg : Registry) (deviceUUID : string)
    : completion (option loc) :=
  let res := List.filter (λ d, String.eqb (uuid (h d)) deviceUUID) (dict_values reg) in
  if Nat.ltb 1 (length res)
  then Throw (Error ("Multiple devices found for device_uuid " +:+ deviceUUID))
  else if Nat.eqb (length res) 1 then Return (head res)
  else Return None.

(** A filter given as one string or as an array of strings. *)
Inductive StringOrArray := OneString (s : string) | StringArray (l : list string).

Definition truthy_soa (v : StringOrArray) : bool :=
  match v with OneString s => truthy_string s | StringArray _ => true end.

(** [[v].flat()] *)
Definition flat1 (v : StringOrArray) : list string :=
  match v with OneString s => [s] | StringArray l => l end.

Definition includes (l : list string) (s : string) : bool :=
  existsb (String.eqb s) l.

Record DeviceFilters (C : Type) := {
  deviceUUIDs : option StringOrArray;
  internalIDs : option StringOrArray;
  deviceType : option string;
  deviceClass : option C;
  deviceName : option string;
  f_onlineStatus : option Z;
}.
Arguments deviceUUIDs {C}.
Arguments internalIDs {C}.
Arguments deviceType {C}.
Arguments deviceClass {C}.
Arguments deviceName {C}.
Arguments f_onlineStatus {C}.

(** [{}] and [{ deviceUUIDs: u }] *)
Definition no_filters {C} : DeviceFilters C :=
  {| deviceUUIDs := None; internalIDs := None; deviceType := None;
     deviceClass := None; deviceName := None; f_onlineStatus := None |}.
Definition by_deviceUUIDs {C} (u : option string) : DeviceFilters C :=
  {| deviceUUIDs := OneString <$> u; internalIDs := None; deviceType := None;
     deviceClass := None; deviceName := None; f_onlineStatus := None |}.

(** [f ? test : true] *)
Definition when {A} (f : option A) (truthy : A → bool) (test : A → bool) : bool :=
  match f with
  | Some a => if truthy a then test a else true
  | None => true
  end.

Section FindAllBy.
Context {C : Type} (truthy_class : C → bool) (class_test : Device → C → bool).

Definition matches (h : heap) (f : DeviceFilters C) (d : loc) : bool :=
  forallb (λ b : bool, b)
    [ when (internalIDs f) truthy_soa (λ v, includes (flat1 v) (internalID (h d)));
      when (deviceUUIDs f) truthy_soa (λ v, includes (flat1 v) (uuid (h d)));
      when (deviceType f) truthy_string (λ s, bool_decide (type (h d) = Some s));
      when (deviceClass f) truthy_class (class_test (h d));
      when (deviceName f) truthy_string (λ s, bool_decide (name (h d) = Some s));
      when (f_onlineStatus f) truthy_number (λ z, bool_decide (onlineStatus h d = Some z)) ].

Definition findAllBy_with (h : heap) (reg : Registry) (f : DeviceFilters C) : list loc :=
  List.filter (matches h f) (dict_values reg).
End FindAllBy.

(** [d instanceof c] *)
Definition instanceof (d : Device) (c : DeviceClass) : bool :=
  match c with
  | BaseDevice => true
  | _ => bool_decide (cls d = c)
  end.

(** device-registry.js: [deviceClass ? d instanceof deviceClass : true] *)
Definition findAllBy_js := findAllBy_with (λ _ : DeviceClass, true) instanceof.

(** src/device-registry.ts: [deviceClass ? d.type == deviceClass : true] *)
Definition findAllBy_ts :=
  findAllBy_with truthy_string (λ d (s : string), bool_decide (type d = Some s)).

(** manager.js, the loop [for (const d of devs) relinquishDevice(d.internalID)]
    of the unbind housekeeping; an exception leaves the registry as it was
    when it was thrown. *)
Fixpoint relinquish_each (h : heap) (reg : Registry) (devs : list loc)
    : Registry * option JsError :=
  match devs with
  | [] => (reg, None)
  | d :: rest =>
      match relinquishDevice reg (internalID (h d)) with
      | Return reg' => relinquish_each h reg' rest
      | Throw e => (reg, Some e)
      end
  end.

(** ** The program state seen by the device classes *)

(** The store of device objects, the next free location, and the registry of
    the manager ([manager.deviceRegistry.devicesByInternalID]). *)
Record World := {
  objects : heap;
  next : loc;
  devicesByInternalID : Registry;
}.

Definition set_registry (w : World) (reg : Registry) : World :=
  {| objects := objects w; next := next w; devicesByInternalID := reg |}.

(** manager.js: [findDevices(filters = {})] *)
Definition findDevices (w : World) (f : DeviceFilters DeviceClass) : list loc :=
  findAllBy_js (objects w) (devicesByInternalID w) f.

(** [new C(...)] whose constructor returned: the object is stored at the next
    free location. *)
Definition alloc (d : Device) (w : World) : World * loc :=
  ({| objects := store (next w) d (objects w);
      next := S (next w);
      devicesByInternalID := devicesByInternalID w |}, next w).

(** The sub-device record has none of the properties the BaseDevice
    constructor reads. *)
Definition no_info (deviceUUID : string) : HTTPDeviceInfo :=
  {| Info.uuid := deviceUUID; Info.online_status := None; Info.dev_name := None;
     Info.device_type := None; Info.channels := None;
     Info.fmware_version := None; Info.hdware_version := None |}.

Definition with_hub (d : Device) (hl : loc) : Device :=
  {| cls := cls d; uuid := uuid d; channels := channels d; name := name d;
     type := type d; firmwareVersion := firmwareVersion d;
     hardwareVersion := hardwareVersion d; online := online d;
     fwversion := fwversion d; hwversion := hwversion d;
     subDevices := subDevices d; subDeviceID := subDeviceID d; id := id d;
     _type := _type d; _name := _name d; hub := Some hl;
     abilitiesSpec := abilitiesSpec d |}.

(** devices.js: [new GenericSubDevice(hubDeviceUUID, subDeviceID, manager, config)] *)
Definition new_GenericSubDevice_js (w : World) (hubDeviceUUID subDeviceID : string)
    (config : HTTPSubDeviceInfo) : completion (World * loc) :=
  let super := Js.new_BaseDevice GenericSubDevice hubDeviceUUID (no_info hubDeviceUUID) in
  let this :=
    {| cls := cls super; uuid := uuid super; channels := channels super;
       name := name super; type := type super;
       firmwareVersion := firmwareVersion super;
       hardwareVersion := hardwareVersion super; online := online super;
       fwversion := None; hwversion := None; subDevices := [];
       subDeviceID := Some subDeviceID; id := None;
       _type := subDeviceType config; _name := subDeviceName config;
       hub := None; abilitiesSpec := None |} in
  let hub := findDevices w (by_deviceUUIDs (Some hubDeviceUUID)) in
  match hub with
  | [] => Throw (Error "Specified hub device is not present")
  | hub0 :: _ => Return (alloc (with_hub this hub0) w)
  end.

(** src/devices.ts: [new GenericSubDevice(hubDeviceUUID, id, manager, config)] *)
Definition new_GenericSubDevice_ts (w : World) (hubDeviceUUID id_ : string)
    (config : HTTPSubDeviceInfo) : completion (World * loc) :=
  let super := Ts.new_BaseDevice GenericSubDevice hubDeviceUUID (no_info hubDeviceUUID) in
  let this :=
    {| cls := cls super; uuid := uuid super; channels := channels super;
       name := sub_device_name config; type := sub_device_type config;
       firmwareVersion := firmwareVersion super;
       hardwareVersion := hardwareVersion super; online := online super;
       fwversion := None; hwversion := None; subDevices := [];
       subDeviceID := None; id := Some id_;
       _type := None; _name := None;
       hub := None; abilitiesSpec := None |} in
  let hub := findDevices w (by_deviceUUIDs (Some hubDeviceUUID)) in
  match hub with
  | [] => Throw (Error "Specified hub device is not present")
  | hub0 :: _ => Return (alloc (with_hub this hub0) w)
  end.

(** devices.js: [HubDevice.registerSubDevice(subDevice)], with the test
    [subDevice.subDeviceID in this.subDevices]. *)
Definition registerSubDevice (h : heap) (hubl subDevice : loc) : heap :=
  let this := h hubl in
  let key := template (subDeviceID (h subDevice)) in
  if dict_in key (subDevices this) then h
  else store hubl
    {| cls := cls this; uuid := uuid this; channels := channels this;
       name := name this; type := type this;
       firmwareVersion := firmwareVersion this;
       hardwareVersion := hardwareVersion this; online := online this;
       fwversion := fwversion this; hwversion := hwversion this;
       subDevices := dict_set key subDevice (subDevices this);
       subDeviceID := subDeviceID this; id := id this;
       _type := _type this; _name := _name this; hub := hub this;
       abilitiesSpec := abilitiesSpec this |} h.

(** ** device-factory.js / device-factory.ts *)

Definition truthy_value (v : JsValue) : bool :=
  match v with JsString s => truthy_string s | JsObject => true end.

(** The property key a value denotes when it indexes an object. *)
Definition to_property_key (v : JsValue) : string :=
  match v with JsString s => s | JsObject => "[object Object]" end.

(** [Object.entries(device_abilities)]: an array lists its indices. *)
Definition entries (a : Abilities) : list (string * JsValue) :=
  match a with
  | AbilityArray names => imap (λ i s, (pretty i, JsString s)) names
  | AbilityMap props => props
  end.

(** [device_abilities[k]] for the keys the factory asks for, which end in
    [X] and so name no inherited or built-in property. *)
Definition get_ability (a : Abilities) (k : string) : option JsValue :=
  dict_get k (entries a).

(** [device_abilities.includes(x)]: a method of arrays only.  The parameter
    is called [device_abilities] in device-factory.js and [deviceAbilities] in
    device-factory.ts, and the text of the TypeError names it. *)
Definition abilities_includes (parameter : string) (a : Abilities) (x : string)
    : completion bool :=
  match a with
  | AbilityArray names => Return (includes names x)
  | AbilityMap _ => Throw (TypeError (parameter +:+ ".includes is not a function"))
  end.

Definition calculateDeviceTypeName (deviceType hardwareVersion firmwareVersion : option string)
    : string :=
  template deviceType +:+ ":" +:+ template hardwareVersion +:+ ":" +:+ template firmwareVersion.

Section Factory.
(** The mixin classes, and the ability table [_ABILITY_MATRIX] that maps
    ability names to them. *)
Context {Mixin : Type} `{EqDecision Mixin}.
Variable ABILITY_MATRIX : list (string * Mixin).

(** What [buildCachedType] returns: a function that builds a [baseClass]
    object and assigns [abilitiesSpec]; [mixins] are the members of
    [mixinClassSet], in insertion order.  The set holds whatever indexing the
    table gave: a class of the table, or a member the table inherits. *)
Record DeviceFactory := {
  mixins : list (Member Mixin);
  baseClass : DeviceClass;
  closure_abilities : Abilities;
}.

(** [Set.prototype.add] *)
Definition set_add {A : Type} `{EqDecision A} (m : A) (s : list A) : list A :=
  if bool_decide (m ∈ s) then s else s ++ [m].

(** One round of the loop of device-factory.ts, with the two reads
    [_ABILITY_MATRIX[key]] and [_ABILITY_MATRIX[xVersionAbilityKey]]. *)
Definition add_plugin_ts (device_abilities : Abilities)
    (mixinClassSet : list (Member Mixin)) (entry : string * JsValue)
    : list (Member Mixin) :=
  let key := fst entry in
  let cls := dict_lookup key ABILITY_MATRIX in
  let xVersionAbilityKey := get_ability device_abilities (key +:+ "X") in
  let clsx :=
    match xVersionAbilityKey with
    | Some v => if truthy_value v then dict_lookup (to_property_key v) ABILITY_MATRIX else None
    | None => None
    end in
  match clsx, cls with
  | Some cx, _ => set_add cx mixinClassSet
  | None, Some c => set_add c mixinClassSet
  | None, None => mixinClassSet
  end.

Definition buildCachedType_ts (device_abilities : Abilities) (base : DeviceClass)
    : DeviceFactory :=
  {| mixins := foldl (add_plugin_ts device_abilities) [] (entries device_abilities);
     baseClass := base;
     closure_abilities := device_abilities |}.

(** device-factory.js: the loop starts with [_ABILITY_MATRIX.get(key)], a
    call of a property that a plain object does not have (or, were there an
    entry named [get], of a class without [new]). *)
Definition buildCachedType_js (device_abilities : Abilities) (base : DeviceClass)
    : completion DeviceFactory :=
  match entries device_abilities with
  | [] => Return {| mixins := []; baseClass := base;
                    closure_abilities := device_abilities |}
  | _ :: _ => Throw (TypeError "_ABILITY_MATRIX.get is not a function")
  end.

(** The module-level cache [deviceFactories], by device type name. *)
Definition FactoryCache := list (string * DeviceFactory).

(** [deviceFactories[key] || (deviceFactories[key] = calculate())].  The
    function is private to the module and its one caller passes
    [calculateDeviceTypeName(...)], a text with two colons, which is no array
    index and names no member of [Object.prototype]. *)
Definition lookupCachedType (cache : FactoryCache) (key : string)
    (calculate : completion DeviceFactory) : completion (FactoryCache * DeviceFactory) :=
  match dict_get key cache with
  | Some f => Return (cache, f)
  | None =>
      match calculate with
      | Return f => Return (dict_set key f cache, f)
      | Throw e => Throw e
      end
  end.

(** The callback [buildMerossDevice] passes to [lookupCachedType]. *)
Definition calculate_factory (parameter : string)
    (build : Abilities → DeviceClass → completion DeviceFactory)
    (device_abilities : Abilities) : completion DeviceFactory :=
  match abilities_includes parameter device_abilities Namespace.SYSTEM_DIGEST_HUB with
  | Throw e => Throw e
  | Return isHub => build device_abilities (if isHub then HubDevice else BaseDevice)
  end.

Definition with_abilitiesSpec (d : Device) (a : Abilities) : Device :=
  {| cls := cls d; uuid := uuid d; channels := channels d; name := name d;
     type := type d; firmwareVersion := firmwareVersion d;
     hardwareVersion := hardwareVersion d; online := online d;
     fwversion := fwversion d; hwversion := hwversion d;
     subDevices := subDevices d; subDeviceID := subDeviceID d; id := id d;
     _type := _type d; _name := _name d; hub := hub d;
     abilitiesSpec := Some a |}.

(** [factory(uuid, manager, info)]:
    [Object.assign(new baseClass(...args), { abilitiesSpec })] *)
Definition apply_factory (new_base : DeviceClass → string → HTTPDeviceInfo → Device)
    (f : DeviceFactory) (deviceUUID : string) (info : HTTPDeviceInfo) (w : World)
    : World * loc :=
  alloc (with_abilitiesSpec (new_base (baseClass f) deviceUUID info) (closure_abilities f)) w.

Definition buildMerossDevice_with (parameter : string)
    (build : Abilities → DeviceClass → completion DeviceFactory)
    (new_base : DeviceClass → string → HTTPDeviceInfo → Device)
    (cache : FactoryCache) (w : World)
    (info : HTTPDeviceInfo) (device_abilities : Abilities)
    : completion (FactoryCache * World * loc * DeviceFactory) :=
  let deviceTypeName :=
    calculateDeviceTypeName (Info.device_type info) (Info.hdware_version info)
      (Info.fmware_version info) in
  match lookupCachedType cache deviceTypeName
          (calculate_factory parameter build device_abilities) with
  | Throw e => Throw e
  | Return (cache', cachedType) =>
      let '(w', component) := apply_factory new_base cachedType (Info.uuid info) info w in
      Return (cache', w', component, cachedType)
  end.

(** device-factory.js *)
Definition buildMerossDevice_js :=
  buildMerossDevice_with "device_abilities" buildCachedType_js Js.new_BaseDevice.

(** device-factory.ts *)
Definition buildMerossDevice_ts :=
  buildMerossDevice_with "deviceAbilities" (λ a b, Return (buildCachedType_ts a b))
    Ts.new_BaseDevice.
End Factory.

(** The table of the source: every entry is commented out. *)
Definition _ABILITY_MATRIX {Mixin : Type} : list (string * Mixin) := [].

(** ** src/mqtt.js / mqtt.ts: topics and signatures *)

(** [s.split('/')] *)
Fixpoint split_slash_aux (s : string) (cur : string) : list string :=
  match s with
  | EmptyString => [cur]
  | String c rest =>
      if Ascii.eqb c "/"%char then cur :: split_slash_aux rest ""
      else split_slash_aux rest (cur +:+ String c EmptyString)
  end.
Definition split_slash (s : string) : list string := split_slash_aux s "".

(** The header of an envelope, as parsed from JSON: any property may be
    missing.  The numbers are integers of less than 22 digits, which
    JavaScript prints in decimal notation. *)
Record Header := {
  from : option string;
  messageId : option string;
  method : option string;
  namespace : option string;
  payloadVersion : option Z;
  sign : option string;
  timestamp : option Z;
}.

(** One element of [Array.prototype.join]: [undefined] prints as nothing. *)
Definition join_string (v : option string) : string := default "" v.
Definition join_number (v : option Z) : string := default "" (pretty <$> v).

(** The numbers a header holds: JavaScript prints a number in decimal
    notation when its absolute value is below 10^21. *)
Definition decimal_number (v : option Z) : Prop :=
  match v with
  | Some z => (- 10 ^ 21 < z < 10 ^ 21)%Z
  | None => True
  end.

Section Codec.
(** The [md5] package. *)
Variable md5 : string → string.

Definition generateMQTTPassword (user_id key : string) : string :=
  md5 (user_id +:+ key).

Definition buildClientResponseTopic (userID appID : string) : string :=
  "/app/" +:+ userID +:+ "-" +:+ appID +:+ "/subscribe".

Definition buildDeviceRequestTopic (client_uuid : string) : string :=
  "/appliance/" +:+ client_uuid +:+ "/subscribe".

Definition deviceUUIDFromPushNotification (fromTopic : string) : option string :=
  split_slash fromTopic !! 2%nat.

(** [md5([header.messageId, key, header.timestamp].join('')) == header.sign] *)
Definition verifyMessageSignature (header : Header) (key : string) : bool :=
  let hash := md5 (join_string (messageId header) +:+ key +:+ join_number (timestamp header)) in
  bool_decide (sign header = Some hash).
End Codec.

Module MqttJs.
(** src/mqtt.js: the body is a single-quoted string, not a template. *)
Definition buildClientUserTopic (userID : string) : string :=
  "/app/${user_id}/subscribe".
End MqttJs.

Module MqttTs.
(** mqtt.ts: [`/app/${userID}/subscribe`] *)
Definition buildClientUserTopic (userID : string) : string :=
  "/app/" +:+ userID +:+ "/subscribe".
End MqttTs.

(** ** manager.js *)

Section Manager.
Variable md5 : string → string.
(** The payload objects, and [JSON.stringify] on envelopes. *)
Context {Payload : Type}.

Record Envelope := { header : Header; payload : Payload }.

Variable JSON_stringify : Envelope → string.

Record PushNotification := {
  pn_namespace : string;
  originatingDeviceUUID : option string;
  rawData : Envelope;
}.

(** How a call of [executeCommand] ended. *)
Inductive Outcome :=
  | Fulfilled (response_payload : Payload)
  | RejectedWith (remote_payload : Payload)
  | Rejected (e : JsError).

(** The callbacks handed to [setTimeout].  In [MemberReject] and
    [MemberResolve] the [future] that [onMessage] read from [pendingMessages]
    is the member of [Object.prototype] of the given name. *)
Inductive Task :=
  | TimeoutReject (call : nat) (e : JsError)
  | FutureReject (call : nat) (remote_payload : Payload)
  | FutureResolve (call : nat) (message : Envelope)
  | MemberReject (name : string) (remote_payload : Payload)
  | MemberResolve (name : string) (message : Envelope)
  | DispatchPush (n : PushNotification).

Record Manager := {
  world : World;
  connected : bool;                       (* mqttClient.connected *)
  key : string;                           (* cloudCreds.key *)
  clientResponseTopic : string;
  userTopic : string;
  pendingMessages : list (string * nat);  (* messageID ↦ the call's future *)
  timers : list (Z * Task);               (* due time in ms, callback *)
  clock : Z;                              (* Date.now() *)
  published : list (string * Envelope);   (* mqttClient.publish *)
  calls : nat;                            (* calls of executeCommand so far *)
  outcomes : list (nat * (Z * Outcome));  (* settled calls, with the time *)
}.

Definition set_world (m : Manager) (w : World) : Manager :=
  {| world := w; connected := connected m; key := key m;
     clientResponseTopic := clientResponseTopic m; userTopic := userTopic m;
     pendingMessages := pendingMessages m; timers := timers m; clock := clock m;
     published := published m; calls := calls m; outcomes := outcomes m |}.

Definition set_pending (m : Manager) (p : list (string * nat)) : Manager :=
  {| world := world m; connected := connected m; key := key m;
     clientResponseTopic := clientResponseTopic m; userTopic := userTopic m;
     pendingMessages := p; timers := timers m; clock := clock m;
     published := published m; calls := calls m; outcomes := outcomes m |}.

Definition set_timers (m : Manager) (t : list (Z * Task)) : Manager :=
  {| world := world m; connected := connected m; key := key m;
     clientResponseTopic := clientResponseTopic m; userTopic := userTopic m;
     pendingMessages := pendingMessages m; timers := t; clock := clock m;
     published := published m; calls := calls m; outcomes := outcomes m |}.

(** The delay the host gives a timer: a delay that is missing, [NaN],
    below 1 or above 2^31-1 becomes 1 ms.  [None] is [NaN]. *)
Definition timer_delay (ms : option Z) : Z :=
  match ms with
  | Some d => if ((1 <=? d) && (d <=? 2147483647))%Z then d else 1%Z
  | None => 1%Z
  end.

(** [setTimeout(task, ms)] *)
Definition setTimeout (m : Manager) (task : Task) (ms : option Z) : Manager :=
  set_timers m (timers m ++ [((clock m + timer_delay ms)%Z, task)]).

(** [timeout * 1000] for a [timeout] that may be [undefined]. *)
Definition seconds_to_ms (timeout : option Z) : option Z :=
  (λ t, (t * 1000)%Z) <$> timeout.

(** A promise settles once: later calls of resolve or reject are ignored. *)
Definition settle (m : Manager) (call : nat) (o : Outcome) : Manager :=
  {| world := world m; connected := connected m; key := key m;
     clientResponseTopic := clientResponseTopic m; userTopic := userTopic m;
     pendingMessages := pendingMessages m; timers := timers m; clock := clock m;
     published := published m; calls := calls m;
     outcomes :=
       match List.find (λ c, Nat.eqb (fst c) call) (outcomes m) with
       | Some _ => outcomes m
       | None => outcomes m ++ [(call, (clock m, o))]
       end |}.

Definition outcome_of (m : Manager) (call : nat) : option (Z * Outcome) :=
  snd <$> List.find (λ c, Nat.eqb (fst c) call) (outcomes m).

(** [buildMQTTMessage(method, namespace, payload)]; the nonce is the random
    string of [generateNonce(16)].  The namespaces are strings, so
    [namespace.value] is [undefined]. *)
Definition buildMQTTMessage (m : Manager) (method_ : string) (namespace_ : string)
    (payload_ : Payload) (nonce : string) : Envelope * string :=
  let messageId_ := md5 nonce in
  let timestamp_ := (clock m / 100)%Z in
  let signature := md5 (messageId_ +:+ key m +:+ pretty timestamp_) in
  ({| header :=
        {| from := Some (clientResponseTopic m);
           messageId := Some messageId_;
           method := Some method_;
           namespace := None;
           payloadVersion := Some 1%Z;
           sign := Some signature;
           timestamp := Some timestamp_ |};
      payload := payload_ |}, messageId_).

Definition timeout_message (message : Envelope) (targetDeviceUUID : string)
    (timeout : option Z) : string :=
  "Timeout occurred while waiting a response for message " +:+ JSON_stringify message
  +:+ " sent to device uuid " +:+ targetDeviceUUID
  +:+ ". Timeout was: " +:+ template (pretty <$> timeout) +:+ " seconds".

(** [asyncSendAndWaitAck(messageID, message, targetDeviceUUID, timeout)];
    the result is the manager and the number of the call, whose outcome is
    that of the [Promise.race].  [messageID] is a digest of the md5 package,
    32 hexadecimal digits, under which [pendingMessages] gets or keeps an own
    property. *)
Definition asyncSendAndWaitAck (m : Manager) (messageID : string) (message : Envelope)
    (targetDeviceUUID : string) (timeout : option Z) : Manager * nat :=
  let call := calls m in
  let m1 :=
    {| world := world m; connected := connected m; key := key m;
       clientResponseTopic := clientResponseTopic m; userTopic := userTopic m;
       pendingMessages := dict_set messageID call (pendingMessages m);
       timers := timers m; clock := clock m;
       published := published m ++ [(buildDeviceRequestTopic targetDeviceUUID, message)];
       calls := S call; outcomes := outcomes m |} in
  (setTimeout m1
     (TimeoutReject call (CommandTimeout (timeout_message message targetDeviceUUID timeout)))
     (seconds_to_ms timeout), call).

(** [executeCommand(destinationDeviceUUID, method, namespace, payload, timeout)]:
    [timeout] is not handed on to [asyncSendAndWaitAck]. *)
Definition executeCommand (m : Manager) (destinationDeviceUUID method_ namespace_ : string)
    (payload_ : Payload) (timeout : Z) (nonce : string) : completion (Manager * nat) :=
  if negb (connected m)
  then Throw (Error "The MQTT client is not connected to the remote broker.")
  else
    let '(message, messageID) := buildMQTTMessage m method_ namespace_ payload_ nonce in
    Return (asyncSendAndWaitAck m messageID message destinationDeviceUUID None).

(** [handlePushNotification] of BaseDevice, which no class overrides. *)
Definition handlePushNotification (d : Device) (namespace_ : string) : bool := false.

(** [dispatchPushNotification]: true when a target device took the
    notification. *)
Definition dispatchPushNotification (m : Manager) (n : PushNotification) : bool :=
  let target_devs := findDevices (world m) (by_deviceUUIDs (originatingDeviceUUID n)) in
  existsb (λ dev, handlePushNotification (objects (world m) dev) (pn_namespace n)) target_devs.

(** [handlePushNotificationPostDispatching(pushNotification)] *)
Definition handlePushNotificationPostDispatching (m : Manager) (n : PushNotification)
    : Manager * completion bool :=
  if String.eqb (pn_namespace n) Namespace.CONTROL_UNBIND then
    let w := world m in
    let devs := findDevices w (by_deviceUUIDs (originatingDeviceUUID n)) in
    match relinquish_each (objects w) (devicesByInternalID w) devs with
    | (reg, None) => (set_world m (set_registry w reg), Return true)
    | (reg, Some e) => (set_world m (set_registry w reg), Throw e)
    end
  else (m, Return false).

(** [handleAndDispatchPushNotification(pushNotification)].  The registered
    observers ([pushCallbacks]) are code of the caller; they receive the
    notification between the two steps and are taken not to write to the
    manager. *)
Definition handleAndDispatchPushNotification (m : Manager) (n : PushNotification)
    : Manager * completion unit :=
  let handledDevice := dispatchPushNotification m n in
  match handlePushNotificationPostDispatching m n with
  | (m', Return handledPost) => (m', Return ())
  | (m', Throw e) => (m', Throw e)
  end.

(** [parsePushNotification(namespace, message, deviceUUID)]: the message has
    no [bind] property, so a missing namespace equals it and the branch that
    reads [payload.bind.time] runs. *)
Definition parsePushNotification (namespace_ : option string) (message : Envelope)
    (deviceUUID : option string) : completion PushNotification :=
  match namespace_ with
  | None => Throw (TypeError "Cannot read properties of undefined (reading 'time')")
  | Some ns =>
      Return {| pn_namespace := ns; originatingDeviceUUID := deviceUUID;
                rawData := message |}
  end.

Definition is_ack (messageMethod : option string) : bool :=
  bool_decide (messageMethod ∈ [Some "SETACK"; Some "GETACK"; Some "ERROR"]).

(** [onMessage(topic, rawMessage, packet)]: [message] is the parsed
    [rawMessage] and [packet_header] is [packet.header], from which the
    method takes every header field. *)
Definition onMessage (m : Manager) (topic : string) (message : Envelope)
    (packet_header : Header) : completion Manager :=
  if negb (verifyMessageSignature md5 packet_header (key m)) then Return m
  else
    let messageMethod := method packet_header in
    let sourceTopic := from packet_header in
    if String.eqb topic (clientResponseTopic m) && is_ack messageMethod then
      let messageID := template (messageId packet_header) in
      match dict_lookup messageID (pendingMessages m) with
      | Some future =>
          let m1 := set_pending m (dict_delete messageID (pendingMessages m)) in
          match future with
          | Own call =>
              if bool_decide (messageMethod = Some "ERROR")
              then Return (setTimeout m1 (FutureReject call (payload message)) None)
              else Return (setTimeout m1 (FutureResolve call message) None)
          | Inherited name =>
              if bool_decide (messageMethod = Some "ERROR")
              then Return (setTimeout m1 (MemberReject name (payload message)) None)
              else Return (setTimeout m1 (MemberResolve name message) None)
          end
      | None => Return m
      end
    else if String.eqb topic (userTopic m) && bool_decide (messageMethod = Some "PUSH") then
      match sourceTopic with
      | None => Throw (TypeError "Cannot read properties of undefined (reading 'split')")
      | Some src =>
          match parsePushNotification (namespace packet_header) message
                  (deviceUUIDFromPushNotification src) with
          | Throw e => Throw e
          | Return parsed => Return (setTimeout m (DispatchPush parsed) None)
          end
      end
    else Return m.

(** *** The timer queue *)

Definition min_due (ts : list (Z * Task)) : option Z :=
  foldr (λ t acc, match acc with
                  | None => Some (fst t)
                  | Some a => Some (Z.min (fst t) a)
                  end) None ts.

(** Take out the first timer that is due at [due]. *)
Fixpoint take_due (due : Z) (ts : list (Z * Task)) : option (Task * list (Z * Task)) :=
  match ts with
  | [] => None
  | (d, t) :: rest =>
      if (d =? due)%Z then Some (t, rest)
      else match take_due due rest with
           | Some (t', rest') => Some (t', (d, t) :: rest')
           | None => None
           end
  end.

Definition set_clock_timers (m : Manager) (now : Z) (t : list (Z * Task)) : Manager :=
  {| world := world m; connected := connected m; key := key m;
     clientResponseTopic := clientResponseTopic m; userTopic := userTopic m;
     pendingMessages := pendingMessages m; timers := t; clock := now;
     published := published m; calls := calls m; outcomes := outcomes m |}.

(** The state a callback leaves.  A member of [Object.prototype] has no
    [reject] and no [resolve]: the call of the missing method throws a
    TypeError before the callback has done anything. *)
Definition run_task (m : Manager) (t : Task) : Manager :=
  match t with
  | TimeoutReject call e => settle m call (Rejected e)
  | FutureReject call p => settle m call (RejectedWith p)
  | FutureResolve call message => settle m call (Fulfilled (payload message))
  | MemberReject _ _ => m
  | MemberResolve _ _ => m
  | DispatchPush n => fst (handleAndDispatchPushNotification m n)
  end.

(** Let time pass until the earliest timer is due, and run its callback. *)
Definition run_next_timer (m : Manager) : option Manager :=
  match min_due (timers m) with
  | None => None
  | Some due =>
      match take_due due (timers m) with
      | None => None
      | Some (t, rest) => Some (run_task (set_clock_timers m (Z.max (clock m) due) rest) t)
      end
  end.
End Manager.

(** ** What the program can do to the store and the registry *)

(** The calls that write to device objects or to the registry, as a caller
    that holds a manager can issue them in any order. *)
Inductive Op :=
  | OpEnroll (device : loc)
  | OpRelinquish (deviceID : string)
  | OpUpdateFromHTTPState_js (device : loc) (deviceInfo : HTTPDeviceInfo)
  | OpUpdateFromHTTPState_ts (device : loc) (deviceInfo : HTTPDeviceInfo)
  | OpRegisterSubDevice (hubDevice subDevice : loc)
  | OpNewBaseDevice (c : DeviceClass) (deviceUUID : string) (config : HTTPDeviceInfo)
  | OpNewSubDevice_js (hubDeviceUUID subDeviceID : string) (config : HTTPSubDeviceInfo)
  | OpNewSubDevice_ts (hubDeviceUUID subDeviceID : string) (config : HTTPSubDeviceInfo)
  | OpUnbind (originating : option string).

Definition set_objects (w : World) (h : heap) : World :=
  {| objects := h; next := next w; devicesByInternalID := devicesByInternalID w |}.

(** A call that throws leaves the state as it was at the [throw]. *)
Definition run_op (w : World) (o : Op) : World :=
  match o with
  | OpEnroll d => set_registry w (enrollDevice (objects w) (devicesByInternalID w) d)
  | OpRelinquish k =>
      match relinquishDevice (devicesByInternalID w) k with
      | Return reg => set_registry w reg
      | Throw _ => w
      end
  | OpUpdateFromHTTPState_js d info =>
      match Js.updateFromHTTPState (objects w) d info with
      | Return h => set_objects w h
      | Throw _ => w
      end
  | OpUpdateFromHTTPState_ts d info =>
      match Ts.updateFromHTTPState (objects w) d info with
      | Return h => set_objects w h
      | Throw _ => w
      end
  | OpRegisterSubDevice hubl sub => set_objects w (registerSubDevice (objects w) hubl sub)
  | OpNewBaseDevice c u config => fst (alloc (Js.new_BaseDevice c u config) w)
  | OpNewSubDevice_js hu sid config =>
      match new_GenericSubDevice_js w hu sid config with
      | Return (w', _) => w'
      | Throw _ => w
      end
  | OpNewSubDevice_ts hu sid config =>
      match new_GenericSubDevice_ts w hu sid config with
      | Return (w', _) => w'
      | Throw _ => w
      end
  | OpUnbind u =>
      set_registry w
        (fst (relinquish_each (objects w) (devicesByInternalID w)
                (findDevices w (by_deviceUUIDs u))))
  end.

Definition run_ops (w : World) (ops : list Op) : World := foldl run_op w ops.

(** A caller can only hand over objects that exist: a call is in scope when
    the device references it is given are below the next free location. *)
Definition op_in_scope (w : World) (o : Op) : Prop :=
  match o with
  | OpEnroll d => d < next w
  | OpUpdateFromHTTPState_js d _ => d < next w
  | OpUpdateFromHTTPState_ts d _ => d < next w
  | OpRegisterSubDevice hubl sub => hubl < next w ∧ sub < next w
  | _ => True
  end.

Fixpoint ops_in_scope (w : World) (ops : list Op) : Prop :=
  match ops with
  | [] => True
  | o :: rest => op_in_scope w o ∧ ops_in_scope (run_op w o) rest
  end.

(** Every hub reference belongs to an object that exists and points to an
    object that was built before it, and the registry holds objects that
    exist. *)
Definition store_wf (w : World) : Prop :=
  (∀ l hl, hub (objects w l) = Some hl → hl < l ∧ l < next w)
  ∧ (∀ k l, (k, l) ∈ devicesByInternalID w → l < next w).

(** The data-model invariant of the registry: one property per key, and every
    device is stored under its own internal identifier. *)
Definition registry_wf (h : heap) (reg : Registry) : Prop :=
  NoDup (fst <$> reg) ∧ ∀ k l, (k, l) ∈ reg → internalID (h l) = k.

(** The calls of a registry, and the registry they leave when issued from
    the empty one in the given order. *)
Inductive RegistryCall := Enroll (device : loc) | Relinquish (deviceID : string).

Definition registry_call (h : heap) (reg : Registry) (c : RegistryCall) : Registry :=
  match c with
  | Enroll d => enrollDevice h reg d
  | Relinquish k =>
      match relinquishDevice reg k with
      | Return reg' => reg'
      | Throw _ => reg
      end
  end.

Definition registry_after (h : heap) (cs : list RegistryCall) : Registry :=
  foldl (registry_call h) [] cs.

(** ** Further methods of the device classes *)

(** devices.js, [lookupChannel(name)]: [c.name == name] over the channels,
    and the one hit when there is exactly one. *)
Definition lookupChannel (d : Device) (nm : string) : completion ChannelInfo :=
  let res := List.filter (λ c, bool_decide (ch_name c = Some nm)) (channels d) in
  match res with
  | [c] => Return c
  | _ => Throw (Error ("Could not find channel by name = " +:+ nm))
  end.


(** devices.js, [toString()]: the text after [FW] is the hardware version. *)
Definition toString (d : Device) : string :=
  template (name d) +:+ " (" +:+ template (type d) +:+ ", HW "
  +:+ template (hardwareVersion d) +:+ ", FW " +:+ template (hardwareVersion d) +:+ ")".

Definition update_message (d : Device) : string :=
  "This method should never be called on the BaseMerossDevice. If this happens,"
  +:+ "it means there is a device which is not being attached any update mixin."
  +:+ "Contact the developer. Current object: " +:+ toString d.

(** [update()].  BaseDevice (and HubDevice, which inherits it) throws.
    GenericSubDevice returns at once: its constructor sets the update-all
    namespace to [null] and no code assigns it again. *)
Definition update (h : heap) (l : loc) : completion unit :=
  match cls (h l) with
  | GenericSubDevice => Return ()
  | _ => Throw (Error (update_message (h l)))
  end.

(** [Promise.all] over calls that have all settled: the values in order, or
    the first rejection. *)
Fixpoint promise_all {A} (l : list (completion A)) : completion (list A) :=
  match l with
  | [] => Return []
  | Throw e :: _ => Throw e
  | Return a :: rest =>
      match promise_all rest with
      | Return r => Return (a :: r)
      | Throw e => Throw e
      end
  end.

(** manager.js, [onSubscribe()]: the flag it sets, and the number of devices
    it reports as updated. *)
Definition onSubscribe (w : World) : bool * completion nat :=
  (true,
   match promise_all ((λ d, update (objects w) d) <$> findDevices w no_filters) with
   | Return results => Return (length results)
   | Throw e => Throw e
   end).

(** manager.js, the first loop of [deviceDiscovery]: the listed records,
    restricted to [merossDeviceUUID] when that is given, are split into the
    ones whose UUID the registry knows (with the device found) and the new
    ones.  The records of one listing are distinct objects, so the map of the
    known devices has one entry per record, in the order of the listing. *)
Fixpoint classify (h : heap) (reg : Registry) (httpDevices : list HTTPDeviceInfo)
    : completion (list (HTTPDeviceInfo * loc) * list HTTPDeviceInfo) :=
  match httpDevices with
  | [] => Return ([], [])
  | device :: rest =>
      match lookupByUUID h reg (Info.uuid device) with
      | Throw e => Throw e
      | Return found =>
          match classify h reg rest with
          | Throw e => Throw e
          | Return (knownDevices, newDevices) =>
              match found with
              | Some foundDevice => Return ((device, foundDevice) :: knownDevices, newDevices)
              | None => Return (knownDevices, device :: newDevices)
              end
          end
      end
  end.

Definition discovery_filter (merossDeviceUUID : option string)
    (httpDevices : list HTTPDeviceInfo) : list HTTPDeviceInfo :=
  match merossDeviceUUID with
  | Some u =>
      if truthy_string u
      then List.filter (λ d, String.eqb (Info.uuid d) u) httpDevices
      else httpDevices
  | None => httpDevices
  end.

Definition discovery_classify (w : World) (merossDeviceUUID : option string)
    (httpDevices : list HTTPDeviceInfo)
    : completion (list (HTTPDeviceInfo * loc) * list HTTPDeviceInfo) :=
  classify (objects w) (devicesByInternalID w) (discovery_filter merossDeviceUUID httpDevices).

(** The calls [foundDevice.updateFromHTTPState(device)] that [deviceDiscovery]
    makes for the known devices, in order.  Each call runs to its end when it
    is made, and a call that throws only rejects its own promise: the result
    is the store after all of them and the first exception, if any. *)
Fixpoint update_known (h : heap) (knownDevices : list (HTTPDeviceInfo * loc))
    : heap * option JsError :=
  match knownDevices with
  | [] => (h, None)
  | (device, foundDevice) :: rest =>
      match Js.updateFromHTTPState h foundDevice device with
      | Return h' => update_known h' rest
      | Throw e =>
          let '(h', _) := update_known h rest in (h', Some e)
      end
  end.

(** manager.js, [onMessage]: the callback queued for an acknowledgement,
    [future.reject(message.payload)] for ERROR and [future.resolve(message)]
    for SETACK and GETACK. *)
Definition ack_task {Payload : Type} (call : nat) (message : @Envelope Payload)
    (hdr : Header) : @Task Payload :=
  if bool_decide (method hdr = Some "ERROR")
  then FutureReject call (payload message)
  else FutureResolve call message.

(** ** api.js: the nonce *)

(** [n.toString(36)] for [n < 36], and [toUpperCase()] on one character. *)
Definition digit36 (n : nat) : ascii :=
  if Nat.ltb n 10 then ascii_of_nat (48 + n) else ascii_of_nat (87 + n).

Definition upper_char (c : ascii) : ascii :=
  let n := nat_of_ascii c in
  if Nat.leb 97 n && Nat.leb n 122 then ascii_of_nat (n - 32) else c.

Fixpoint toUpperCase (s : string) : string :=
  match s with
  | EmptyString => EmptyString
  | String c rest => String (upper_char c) (toUpperCase rest)
  end.

(** [generateNonce(len)], for the random bytes [arr] the host filled in:
    [Array.from(arr, dec => (dec % 36).toString(36)).join('').toUpperCase()] *)
Definition generateNonce (arr : list nat) : string :=
  toUpperCase (foldr (λ dec acc, String (digit36 (dec mod 36)) acc) EmptyString arr).

(** The characters a nonce is made of. *)
Definition nonce_char (c : ascii) : bool :=
  let n := nat_of_ascii c in
  (Nat.leb 48 n && Nat.leb n 57) || (Nat.leb 65 n && Nat.leb n 90).

Fixpoint string_forall (p : ascii → bool) (s : string) : bool :=
  match s with
  | EmptyString => true
  | String c rest => p c && string_forall p rest
  end.

(** * Sample states *)

Definition blank : Device := Js.new_BaseDevice BaseDevice "" (no_info "").

Definition info_of (u : string) (nm : string) (status : Z) : HTTPDeviceInfo :=
  {| Info.uuid := u; Info.online_status := Some status; Info.dev_name := Some nm;
     Info.device_type := Some "mss310"; Info.channels := None;
     Info.fmware_version := Some "1.0"; Info.hdware_version := Some "2.0" |}.

(** Two distinct device objects for the same native UUID [X1], and a third
    device [X2]. *)
Definition plug : Device := Js.new_BaseDevice BaseDevice "X1" (info_of "X1" "plug" 1).
Definition lamp : Device := Js.new_BaseDevice BaseDevice "X1" (info_of "X1" "lamp" 1).
Definition other : Device := Js.new_BaseDevice BaseDevice "X2" (info_of "X2" "other" 1).

Definition sample_heap : heap :=
  store 2 other (store 1 lamp (store 0 plug (λ _, blank))).

(** [plug] and [other] enrolled; and a registry object that holds two devices
    of UUID [X1] under different keys. *)
Definition sample_registry : Registry := [("//BASE:X1", 0); ("//BASE:X2", 2)].
Definition clashing_registry : Registry := [("//BASE:X1", 0); ("//BASE:X1'", 1)].

Definition sample_world : World :=
  {| objects := sample_heap; next := 3; devicesByInternalID := sample_registry |}.

(** A connected manager at time 0 with [plug] and [other] enrolled; payloads
    are taken to be strings here. *)
Definition sample_manager : @Manager string :=
  {| world := sample_world; connected := true; key := "k3y";
     clientResponseTopic := "/app/46884-a1/subscribe";
     userTopic := "/app/46884/subscribe";
     pendingMessages := []; timers := []; clock := 0; published := [];
     calls := 0; outcomes := [] |}.

Definition empty_header : Header :=
  {| from := None; messageId := None; method := None; namespace := None;
     payloadVersion := None; sign := None; timestamp := None |}.

(** The unbind notification of the device with UUID [X1]. *)
Definition unbind_X1 : @PushNotification string :=
  {| pn_namespace := "Appliance.Control.Unbind";
     originatingDeviceUUID := Some "X1";
     rawData := {| header := empty_header; payload := "{}" |} |}.

(** A hub whose status is UNKNOWN (the default of the constructor), and a
    sub-device of it that reports ONLINE. *)
Definition unknown_hub : Device := Js.new_BaseDevice HubDevice "H1" (no_info "H1").
Definition online_sensor : Device :=
  with_hub (Js.new_BaseDevice GenericSubDevice "H1" (info_of "H1" "sensor" 1)) 0.
Definition hub_heap : heap := store 1 online_sensor (store 0 unknown_hub (λ _, blank)).

(** A hub that is OFFLINE at 0, a sub-device of it at 1, and a second
    sub-device at 2 whose constructor found the first one under the UUID of
    the hub; both sub-devices report ONLINE. *)
Definition offline_hub : Device :=
  Js.new_BaseDevice HubDevice "H1"
    {| Info.uuid := "H1"; Info.online_status := Some OnlineStatus.OFFLINE;
       Info.dev_name := Some "hub"; Info.device_type := Some "msh300";
       Info.channels := None; Info.fmware_version := Some "1.0";
       Info.hdware_version := Some "2.0" |}.
Definition second_sensor : Device :=
  with_hub (Js.new_BaseDevice GenericSubDevice "H1" (info_of "H1" "sensor" 1)) 1.
Definition chain_heap : heap :=
  store 2 second_sensor (store 1 online_sensor (store 0 offline_hub (λ _, blank))).

(** An inventory record for [X1] with newer version strings. *)
Definition newer_info : HTTPDeviceInfo :=
  {| Info.uuid := "X1"; Info.online_status := Some 2%Z; Info.dev_name := Some "renamed";
     Info.device_type := Some "mss310"; Info.channels := None;
     Info.fmware_version := Some "1.1"; Info.hdware_version := Some "2.1" |}.

Definition sensor_config : HTTPSubDeviceInfo :=
  {| sub_device_type := Some "ms100"; sub_device_name := Some "sensor";
     subDeviceType := Some "ms100"; subDeviceName := Some "sensor" |}.

(** A stand-in for the digest and for [JSON.stringify], used to run the
    examples only. *)
Definition sample_digest (s : string) : string := "md5(" +:+ s +:+ ")".
Definition sample_stringify (e : @Envelope string) : string := payload e.

(** The sample manager at [Date.now() = t]. *)
Definition manager_at (t : Z) : @Manager string :=
  {| world := sample_world; connected := true; key := "k3y";
     clientResponseTopic := "/app/46884-a1/subscribe";
     userTopic := "/app/46884/subscribe";
     pendingMessages := []; timers := []; clock := t; published := [];
     calls := 0; outcomes := [] |}.

(** The inventory record and the ability list of the scenario. *)
Definition scenario_info : HTTPDeviceInfo :=
  {| Info.uuid := "X1"; Info.online_status := None; Info.dev_name := None;
     Info.device_type := Some "mss310"; Info.channels := None;
     Info.fmware_version := Some "1.0"; Info.hdware_version := Some "2.0" |}.
Definition scenario_abilities : Abilities :=
  AbilityArray ["Appliance.Control.Toggle"; "Appliance.Control.ToggleX"].

(** The same two abilities as the object a device reports, and the two rows
    the ability table would hold for them, with the mixins named by strings. *)
Definition reported_abilities : Abilities :=
  AbilityMap [("Appliance.Control.Toggle", JsObject); ("Appliance.Control.ToggleX", JsObject)].
Definition toggle_rows : list (string * string) :=
  [("Appliance.Control.ToggleX", "ToggleXMixin"); ("Appliance.Control.Toggle", "ToggleMixin")].

(** An ability list with a key that every plain object has as a member. *)
Definition member_abilities : Abilities := AbilityMap [("constructor", JsObject)].

Definition empty_world : World :=
  {| objects := λ _, blank; next := 0; devicesByInternalID := [] |}.

(** A native UUID has no [/] in it. *)
Fixpoint no_slash (s : string) : bool :=
  match s with
  | EmptyString => true
  | String c rest => negb (Ascii.eqb c "/"%char) && no_slash rest
  end.

(** The header of the unbind notification the device [X1] pushes, signed with
    the key of the sample manager. *)
Definition unbind_header : Header :=
  {| from := Some "/appliance/X1/subscribe";
     messageId := Some "m1";
     method := Some "PUSH";
     namespace := Some "Appliance.Control.Unbind";
     payloadVersion := Some 1%Z;
     sign := Some (sample_digest "m1k3y1700000000");
     timestamp := Some 1700000000%Z |}.

(** A device with three channels, two of which are called [usb]. *)
Definition three_channels : option (list ChannelData) :=
  Some [ {| cd_name := Some "main"; cd_type := Some "Switch" |};
         {| cd_name := Some "usb"; cd_type := Some "USB" |};
         {| cd_name := Some "usb"; cd_type := Some "USB" |} ].
Definition strip : Device :=
  Js.new_BaseDevice BaseDevice "X3"
    {| Info.uuid := "X3"; Info.online_status := Some 1%Z; Info.dev_name := Some "strip";
       Info.device_type := Some "mss425"; Info.channels := three_channels;
       Info.fmware_version := Some "1.0"; Info.hdware_version := Some "2.0" |}.



(** The same filters, for device-registry.js and for device-registry.ts, when
    no device class is asked for. *)
Definition filters_without_class {C} (us ids : option StringOrArray)
    (ty nm : option string) (st : option Z) : DeviceFilters C :=
  {| deviceUUIDs := us; internalIDs := ids; deviceType := ty;
     deviceClass := None; deviceName := nm; f_onlineStatus := st |}.

Definition by_uuid_list {C} (l : StringOrArray) : DeviceFilters C :=
  filters_without_class (Some l) None None None None.

(** Unbind notifications with the originating UUID [X2], with the empty
    UUID, and with none (a [from] topic of fewer than three segments). *)
Definition unbind_from (u : option string) : @PushNotification string :=
  {| pn_namespace := "Appliance.Control.Unbind";
     originatingDeviceUUID := u;
     rawData := {| header := empty_header; payload := "{}" |} |}.

(** A manager that waits for the answer to message [m1] (call 0), and the
    acknowledgement and the error answer to it, signed with its key. *)
Definition waiting_manager : @Manager string :=
  {| world := sample_world; connected := true; key := "k3y";
     clientResponseTopic := "/app/46884-a1/subscribe";
     userTopic := "/app/46884/subscribe";
     pendingMessages := [("m1", 0)]; timers := []; clock := 5000; published := [];
     calls := 1; outcomes := [] |}.

Definition answer_header (method_ : string) : Header :=
  {| from := Some "/appliance/X1/subscribe";
     messageId := Some "m1";
     method := Some method_;
     namespace := Some "Appliance.System.All";
     payloadVersion := Some 1%Z;
     sign := Some (sample_digest "m1k3y1700000000");
     timestamp := Some 1700000000%Z |}.

Definition answer (method_ : string) (p : string) : @Envelope string :=
  {| header := answer_header method_; payload := p |}.

(** A signed acknowledgement whose message identifier is [constructor]. *)
Definition member_ack_header : Header :=
  {| from := Some "/appliance/X1/subscribe";
     messageId := Some "constructor";
     method := Some "SETACK";
     namespace := Some "Appliance.System.All";
     payloadVersion := Some 1%Z;
     sign := Some (sample_digest "constructork3y1700000000");
     timestamp := Some 1700000000%Z |}.

(** The acknowledgement of the command that [executeCommand] sends from the
    sample manager with the nonce [NONCE]. *)
Definition nonce_ack_header : Header :=
  {| from := Some "/appliance/X1/subscribe";
     messageId := Some (sample_digest "NONCE");
     method := Some "GETACK";
     namespace := Some "Appliance.System.All";
     payloadVersion := Some 1%Z;
     sign := Some (sample_digest "md5(NONCE)k3y1700000000");
     timestamp := Some 1700000000%Z |}.

(** A second inventory record of the type, hardware and firmware of
    [scenario_info], for another device that reports to be a hub. *)
Definition second_info : HTTPDeviceInfo :=
  {| Info.uuid := "X5"; Info.online_status := Some 1%Z; Info.dev_name := Some "second";
     Info.device_type := Some "mss310"; Info.channels := None;
     Info.fmware_version := Some "1.0"; Info.hdware_version := Some "2.0" |}.
Definition hub_abilities : Abilities := AbilityArray ["Appliance.Digest.Hub"].

(** A world with the hub and its sensor enrolled under two keys, and the
    records a discovery run is handed for [X1], [X2] and the unknown [X8]. *)
Definition listed_devices : list HTTPDeviceInfo :=
  [newer_info; info_of "X8" "new plug" 1; info_of "X2" "other" 2].

(** An inventory record whose name is the empty string. *)
Definition nameless_info : HTTPDeviceInfo :=
  {| Info.uuid := "X6"; Info.online_status := Some 1%Z; Info.dev_name := Some "";
     Info.device_type := Some "mss310"; Info.channels := None;
     Info.fmware_version := Some "1.0"; Info.hdware_version := Some "2.0" |}.

(** The inventory record that reports the hub [H1] as offline. *)
Definition hub_offline_info : HTTPDeviceInfo :=
  {| Info.uuid := "H1"; Info.online_status := Some 2%Z; Info.dev_name := Some "hub";
     Info.device_type := Some "msh300"; Info.channels := None;
     Info.fmware_version := Some "1.0"; Info.hdware_version := Some "2.0" |}.

(** The calls that leave a sub-device as the hub of another: the hub [H1],
    which is offline, is built and enrolled; a first sub-device is built; the
    hub is unbound; the first sub-device is enrolled, under the identifier of
    the hub, and updated to ONLINE; a second sub-device is built for [H1]. *)
Definition chain_ops : list Op :=
  [ OpNewBaseDevice HubDevice "H1" hub_offline_info;
    OpEnroll 0;
    OpNewSubDevice_js "H1" "S1" sensor_config;
    OpUnbind (Some "H1");
    OpEnroll 1;
    OpUpdateFromHTTPState_js 1 (info_of "H1" "sensor" 1);
    OpNewSubDevice_js "H1" "S2" sensor_config ].

(** * Theorems *)

(** ** Dictionaries *)

Section DictFacts.
Context {V : Type}.
Implicit Types (d : list (string * V)) (k : string) (v : V).

Lemma dict_get_cons k k' v d :
  dict_get k ((k', v) :: d) = if String.eqb k' k then Some v else dict_get k d.
Proof. unfold dict_get. simpl. by destruct (String.eqb k' k). Qed.

Lemma dict_get_None k d : dict_get k d = None ↔ k ∉ (fst <$> d).
Proof.
  induction d as [|[k' v'] d IH].
  - split; [intros _; apply not_elem_of_nil | done].
  - rewrite dict_get_cons, fmap_cons, not_elem_of_cons. simpl.
    destruct (String.eqb_spec k' k) as [->|Hne].
    + split; [done | intros [? _]; done].
    + rewrite IH. split; [intros; split; congruence | tauto].
Qed.

Lemma dict_get_Some_elem k v d : dict_get k d = Some v → (k, v) ∈ d.
Proof.
  induction d as [|[k' v'] d IH]; [done|].
  rewrite dict_get_cons. destruct (String.eqb_spec k' k) as [->|Hne].
  - intros [= ->]. apply list_elem_of_here.
  - intros H. apply list_elem_of_further. auto.
Qed.

Lemma dict_get_elem k v d : NoDup (fst <$> d) → (k, v) ∈ d → dict_get k d = Some v.
Proof.
  induction d as [|[k' v'] d IH]; intros Hnd Hin.
  - by apply elem_of_nil in Hin.
  - rewrite fmap_cons in Hnd. apply NoDup_cons in Hnd as [Hk' Hnd].
    rewrite dict_get_cons. apply elem_of_cons in Hin as [[= -> ->]|Hin].
    + by rewrite String.eqb_refl.
    + destruct (String.eqb_spec k' k) as [->|Hne]; [|by apply IH].
      exfalso. apply Hk'. simpl. apply list_elem_of_fmap. by exists (k, v).
Qed.

Lemma dict_get_delete_eq k d : dict_get k (dict_delete k d) = None.
Proof.
  induction d as [|[k' v'] d IH]; [done|].
  unfold dict_delete in *. simpl.
  destruct (String.eqb_spec k' k) as [->|Hne]; simpl; [done|].
  rewrite dict_get_cons. by destruct (String.eqb_spec k' k).
Qed.

Lemma dict_get_delete_ne k k' d : k ≠ k' → dict_get k' (dict_delete k d) = dict_get k' d.
Proof.
  intros Hne. induction d as [|[k1 v1] d IH]; [done|].
  unfold dict_delete in *. simpl. rewrite dict_get_cons.
  destruct (String.eqb_spec k1 k) as [->|Hne1]; simpl.
  - by destruct (String.eqb_spec k k').
  - rewrite dict_get_cons, IH. done.
Qed.

Lemma dict_get_set_eq k v d : dict_get k (dict_set k v d) = Some v.
Proof.
  induction d as [|[k' v'] d IH]; simpl.
  - by rewrite dict_get_cons, String.eqb_refl.
  - destruct (String.eqb_spec k' k) as [->|Hne].
    + by rewrite dict_get_cons, String.eqb_refl.
    + rewrite dict_get_cons. by destruct (String.eqb_spec k' k).
Qed.

Lemma dict_get_set_ne k k' v d : k ≠ k' → dict_get k' (dict_set k v d) = dict_get k' d.
Proof.
  intros Hne. induction d as [|[k1 v1] d IH]; simpl.
  - rewrite dict_get_cons. by destruct (String.eqb_spec k k').
  - destruct (String.eqb_spec k1 k) as [->|Hne1].
    + rewrite !dict_get_cons. by destruct (String.eqb_spec k k').
    + by rewrite !dict_get_cons, IH.
Qed.

Lemma dict_has_true k d : dict_has k d = true ↔ is_Some (dict_get k d).
Proof. unfold dict_has. apply bool_decide_eq_true. Qed.

Lemma dict_has_false k d : dict_has k d = false ↔ dict_get k d = None.
Proof.
  unfold dict_has. rewrite bool_decide_eq_false, <- eq_None_not_Some. done.
Qed.

(** Indexing finds an own property first, and nothing but own properties
    under a key that names no member of [Object.prototype]. *)
Lemma dict_lookup_own k v d : dict_get k d = Some v → dict_lookup k d = Some (Own v).
Proof. unfold dict_lookup. by intros ->. Qed.

Lemma dict_lookup_get k d : inherited k = false → dict_lookup k d = Own <$> dict_get k d.
Proof. unfold dict_lookup. intros ->. by destruct (dict_get k d). Qed.

Lemma dict_lookup_Own k v d : dict_lookup k d = Some (Own v) ↔ dict_get k d = Some v.
Proof.
  unfold dict_lookup. destruct (dict_get k d) as [v'|].
  - split; by intros [= ->].
  - by destruct (inherited k).
Qed.

Lemma dict_lookup_None k d : dict_lookup k d = None ↔ dict_get k d = None ∧ inherited k = false.
Proof.
  unfold dict_lookup. destruct (dict_get k d) as [v'|], (inherited k);
    intuition congruence.
Qed.

Lemma dict_lookup_Inherited k nm d :
  dict_lookup k d = Some (Inherited nm) ↔ dict_get k d = None ∧ inherited k = true ∧ nm = k.
Proof.
  unfold dict_lookup. destruct (dict_get k d) as [v'|], (inherited k);
    intuition congruence.
Qed.


(** A key that starts with a slash names no member of [Object.prototype]. *)
Lemma inherited_slash k : inherited (String "/"%char k) = false.
Proof. reflexivity. Qed.
End DictFacts.

(** ** Filtering by position *)

Section FilterFacts.
Context {A : Type} (p : A → bool).
Implicit Types (l : list A).

Lemma filter_none l :
  (∀ i x, l !! i = Some x → p x = false) → List.filter p l = [].
Proof.
  induction l as [|a l IH]; intros H; [done|]. simpl.
  rewrite (H 0 a eq_refl). apply IH. intros i x Hi. by apply (H (S i)).
Qed.

Lemma filter_unique l i x :
  l !! i = Some x → p x = true →
  (∀ j y, l !! j = Some y → p y = true → j = i) →
  List.filter p l = [x].
Proof.
  revert i. induction l as [|a l IH]; intros i Hi Hx Huniq; [done|].
  destruct i as [|i]; simpl in *.
  - injection Hi as ->. rewrite Hx. f_equal.
    apply filter_none. intros j y Hj.
    destruct (p y) eqn:Hy; [|done].
    by specialize (Huniq (S j) y Hj Hy).
  - destruct (p a) eqn:Ha.
    + by specialize (Huniq 0 a eq_refl Ha).
    + apply (IH i); [done..|]. intros j y Hj Hy.
      specialize (Huniq (S j) y Hj Hy). lia.
Qed.

Lemma filter_elem_length l i x :
  l !! i = Some x → p x = true → 0 < length (List.filter p l).
Proof.
  revert i. induction l as [|a l IH]; intros i Hi Hx; [done|].
  destruct i as [|i]; simpl in *.
  - injection Hi as ->. rewrite Hx. simpl. lia.
  - destruct (p a); simpl; [lia | by apply (IH i)].
Qed.

Lemma filter_two l i j x y :
  i ≠ j → l !! i = Some x → l !! j = Some y → p x = true → p y = true →
  1 < length (List.filter p l).
Proof.
  revert i j. induction l as [|a l IH]; intros i j Hij Hi Hj Hx Hy; [done|].
  destruct i as [|i], j as [|j]; simpl in *; [done| | |].
  - injection Hi as ->. rewrite Hx. simpl.
    pose proof (filter_elem_length l j y Hj Hy). lia.
  - injection Hj as ->. rewrite Hy. simpl.
    pose proof (filter_elem_length l i x Hi Hx). lia.
  - assert (1 < length (List.filter p l)) by (apply (IH i j); auto).
    destruct (p a); simpl; lia.
Qed.
End FilterFacts.

(** ** The registry: internal identifiers as keys *)

Lemma inherited_internalID (d : Device) : inherited (internalID d) = false.
Proof. apply inherited_slash. Qed.

(** An internal identifier is in the registry object only as an own
    property. *)
Lemma enrollDevice_own (h : heap) (reg : Registry) (device : loc) :
  enrollDevice h reg device
  = if dict_has (internalID (h device)) reg
    then reg
    else dict_set (internalID (h device)) device reg.
Proof. unfold enrollDevice, dict_in. by rewrite inherited_internalID, orb_false_r. Qed.

Lemma lookupByID_base (reg : Registry) (U : string) :
  lookupByID reg ("//BASE:" +:+ U) = Own <$> dict_get ("//BASE:" +:+ U) reg.
Proof. apply dict_lookup_get, inherited_slash. Qed.

Lemma lookupByID_base_Own (reg : Registry) (U : string) (l : loc) :
  lookupByID reg ("//BASE:" +:+ U) = Some (Own l) ↔ dict_get ("//BASE:" +:+ U) reg = Some l.
Proof. apply dict_lookup_Own. Qed.

Lemma lookupByID_base_None (reg : Registry) (U : string) :
  lookupByID reg ("//BASE:" +:+ U) = None ↔ dict_get ("//BASE:" +:+ U) reg = None.
Proof.
  unfold lookupByID. rewrite dict_lookup_None. split; [by intros [? _]|].
  intros ?. split; [done | apply inherited_slash].
Qed.

Lemma lookupByID_internalID_Own (reg : Registry) (d : Device) (l : loc) :
  lookupByID reg (internalID d) = Some (Own l) ↔ dict_get (internalID d) reg = Some l.
Proof. apply dict_lookup_Own. Qed.

Lemma lookupByID_internalID_None (reg : Registry) (d : Device) :
  lookupByID reg (internalID d) = None ↔ dict_get (internalID d) reg = None.
Proof. apply lookupByID_base_None. Qed.

(** ** The registry: lookup by native UUID *)

Lemma registry_value_lookup (reg : Registry) i k d :
  reg !! i = Some (k, d) → dict_values reg !! i = Some d.
Proof. intros H. unfold dict_values. by rewrite list_lookup_fmap, H. Qed.

Lemma registry_value_lookup_inv (reg : Registry) i d :
  dict_values reg !! i = Some d → ∃ k, reg !! i = Some (k, d).
Proof.
  unfold dict_values. rewrite list_lookup_fmap.
  destruct (reg !! i) as [[k d']|] eqn:E; simpl; [|done].
  intros [= ->]. eauto.
Qed.

(** C7. [lookupByUUID(U)] returns [null] when no registered device has native
    UUID [U], returns the device when exactly one has, and throws when two or
    more registered devices have native UUID [U]; in the first two cases it
    does not throw. *)
Theorem lookupByUUID_spec (h : heap) (reg : Registry) (U : string) :
  ((∀ i k d, reg !! i = Some (k, d) → uuid (h d) ≠ U) →
     lookupByUUID h reg U = Return None)
  ∧ (∀ i k d, reg !! i = Some (k, d) → uuid (h d) = U →
       (∀ j k' d', reg !! j = Some (k', d') → uuid (h d') = U → j = i) →
       lookupByUUID h reg U = Return (Some d))
  ∧ (∀ i j k d k' d', i ≠ j →
       reg !! i = Some (k, d) → reg !! j = Some (k', d') →
       uuid (h d) = U → uuid (h d') = U →
       lookupByUUID h reg U
       = Throw (Error ("Multiple devices found for device_uuid " +:+ U))).
Proof.
  unfold lookupByUUID. split; [|split].
  - intros Hnone. rewrite filter_none; [done|].
    intros i d Hi. apply registry_value_lookup_inv in Hi as [k Hi].
    apply String.eqb_neq. eauto.
  - intros i k d Hi HU Huniq.
    rewrite (filter_unique _ _ i d); [done | by eapply registry_value_lookup | |].
    + by apply String.eqb_eq.
    + intros j y Hj Hy. apply registry_value_lookup_inv in Hj as [k' Hj].
      apply String.eqb_eq in Hy. eauto.
  - intros i j k d k' d' Hij Hi Hj HU HU'.
    assert (1 < length (List.filter (λ d0, String.eqb (uuid (h d0)) U) (dict_values reg)))
      as Hlen.
    { apply (filter_two _ _ i j d d'); [done | | | |].
      - by eapply registry_value_lookup.
      - by eapply registry_value_lookup.
      - by apply String.eqb_eq.
      - by apply String.eqb_eq. }
    apply Nat.ltb_lt in Hlen. by rewrite Hlen.
Qed.

Lemma lookupByUUID_spec_witness :
  lookupByUUID sample_heap sample_registry "X9" = Return None
  ∧ lookupByUUID sample_heap sample_registry "X1" = Return (Some 0)
  ∧ lookupByUUID sample_heap clashing_registry "X1"
    = Throw (Error "Multiple devices found for device_uuid X1").
Proof.
  split; [|split].
  - apply (proj1 (lookupByUUID_spec sample_heap sample_registry "X9")).
    intros [|[|[|i]]] k d; simpl; intros [= <- <-]; vm_compute; discriminate.
  - apply (proj1 (proj2 (lookupByUUID_spec sample_heap sample_registry "X1"))
             0 "//BASE:X1" 0); [reflexivity | reflexivity |].
    intros [|[|[|j]]] k' d'; simpl; intros [= <- <-]; vm_compute;
      [reflexivity | discriminate].
  - apply (proj2 (proj2 (lookupByUUID_spec sample_heap clashing_registry "X1"))
             0 1 "//BASE:X1" 0 "//BASE:X1'" 1); [lia | reflexivity..].
Defined.

(** ** The registry: enrolment *)

(** C8, as the claim states it, fails when another device object is already
    enrolled under the same internal identifier: [lamp] (at 1) has the
    identifier of the enrolled [plug] (at 0), the enrolment is skipped, and
    the lookup returns [plug]. *)
Lemma enroll_duplicate_counterexample :
  lookupByID (enrollDevice sample_heap sample_registry 1) (internalID (sample_heap 1))
  ≠ Some (Own 1).
Proof. vm_compute. discriminate. Qed.

(** C8, amended.  [enrollDevice] is total (it has no [throw]).  When the
    internal identifier of [D] is not a key of the registry, looking it up
    after the enrolment returns [D]; when it is a key already, the enrolment
    leaves the registry as it was, and the lookup returns the device that was
    enrolled before. *)
Theorem enrollDevice_lookupByID (h : heap) (reg : Registry) (D : loc) :
  (lookupByID reg (internalID (h D)) = None →
     lookupByID (enrollDevice h reg D) (internalID (h D)) = Some (Own D))
  ∧ (∀ D', lookupByID reg (internalID (h D)) = Some (Own D') →
       enrollDevice h reg D = reg
       ∧ lookupByID (enrollDevice h reg D) (internalID (h D)) = Some (Own D')).
Proof.
  split.
  - intros Hnone. apply lookupByID_internalID_None in Hnone.
    apply lookupByID_internalID_Own.
    rewrite enrollDevice_own, (proj2 (dict_has_false _ _) Hnone).
    apply dict_get_set_eq.
  - intros D' Hsome. apply lookupByID_internalID_Own in Hsome as Hget.
    assert (dict_has (internalID (h D)) reg = true) as Hhas.
    { apply dict_has_true. by exists D'. }
    by rewrite enrollDevice_own, Hhas.
Qed.

Lemma enrollDevice_lookupByID_witness :
  lookupByID (enrollDevice sample_heap [] 0) (internalID (sample_heap 0)) = Some (Own 0)
  ∧ enrollDevice sample_heap sample_registry 1 = sample_registry
  ∧ lookupByID (enrollDevice sample_heap sample_registry 1) (internalID (sample_heap 1))
    = Some (Own 0).
Proof.
  split.
  - apply (proj1 (enrollDevice_lookupByID sample_heap [] 0)). reflexivity.
  - apply (proj2 (enrollDevice_lookupByID sample_heap sample_registry 1) 0). reflexivity.
Defined.

(** Enrolment and removal keep the registry well formed. *)
Lemma registry_wf_nil (h : heap) : registry_wf h [].
Proof.
  split; [apply NoDup_nil_2 | intros k l H; by apply elem_of_nil in H].
Qed.

Lemma dict_set_keys_fresh {V} (k : string) (v : V) (d : list (string * V)) :
  dict_get k d = None → dict_set k v d = d ++ [(k, v)].
Proof.
  induction d as [|[k' v'] d IH]; [done|].
  rewrite dict_get_cons. simpl. destruct (String.eqb k' k); [done|].
  intros H. by rewrite IH.
Qed.

Lemma enrollDevice_wf (h : heap) (reg : Registry) (D : loc) :
  registry_wf h reg → registry_wf h (enrollDevice h reg D).
Proof.
  intros [Hnd Hkeys]. rewrite enrollDevice_own.
  destruct (dict_has (internalID (h D)) reg) eqn:Hhas; [done|].
  apply dict_has_false in Hhas. rewrite dict_set_keys_fresh by done.
  split.
  - rewrite fmap_app. simpl. apply NoDup_app. split; [done|]. split.
    + intros k Hk Hk'. apply list_elem_of_singleton in Hk'. subst k.
      by apply dict_get_None in Hhas.
    + apply NoDup_singleton.
  - intros k l Hin. apply elem_of_app in Hin as [Hin|Hin]; [by apply Hkeys|].
    apply list_elem_of_singleton in Hin. by injection Hin as -> ->.
Qed.

Lemma dict_delete_sublist {V} (k : string) (d : list (string * V)) :
  sublist (dict_delete k d) d.
Proof.
  unfold dict_delete. induction d as [|kv d IH]; simpl; [done|].
  destruct (negb _); by constructor.
Qed.

Lemma relinquishDevice_wf (h : heap) (reg reg' : Registry) (k : string) :
  registry_wf h reg → relinquishDevice reg k = Return reg' → registry_wf h reg'.
Proof.
  intros [Hnd Hkeys]. unfold relinquishDevice.
  destruct (dict_lookup k reg) as [d|]; [|done]. intros [= <-].
  pose proof (dict_delete_sublist k reg) as Hsub. split.
  - eapply (sublist_NoDup _ (fst <$> reg)); [done | by apply fmap_sublist].
  - intros k' l' Hin. apply Hkeys. eapply elem_of_sublist; eauto.
Qed.

(** Every registry that enrolments and removals produce is well formed. *)
Lemma registry_after_wf (h : heap) (cs : list RegistryCall) :
  registry_wf h (registry_after h cs).
Proof.
  unfold registry_after. generalize (registry_wf_nil h).
  generalize (@nil (string * loc)). induction cs as [|c cs IH]; intros reg Hwf; [done|].
  simpl. apply IH. destruct c as [d|k]; simpl.
  - by apply enrollDevice_wf.
  - destruct (relinquishDevice reg k) as [reg'|e] eqn:Hrel; [|done].
    by eapply relinquishDevice_wf.
Qed.

(** ** The unbind housekeeping *)

Lemma List_filter_sublist {A} (p : A → bool) (l : list A) :
  sublist (List.filter p l) l.
Proof. induction l as [|a l IH]; simpl; [done|]. destruct (p a); by constructor. Qed.

Lemma List_filter_elem {A} (p : A → bool) (l : list A) (x : A) :
  x ∈ List.filter p l ↔ x ∈ l ∧ p x = true.
Proof. rewrite !list_elem_of_In. apply filter_In. Qed.

Lemma registry_wf_keys (h : heap) (reg : Registry) :
  registry_wf h reg → (λ d, internalID (h d)) <$> dict_values reg = fst <$> reg.
Proof.
  intros [_ Hkeys]. unfold dict_values.
  induction reg as [|[k l] reg IH]; [done|]. simpl. f_equal.
  - apply Hkeys, list_elem_of_here.
  - apply IH. intros k' l' Hin. by apply Hkeys, list_elem_of_further.
Qed.

Lemma registry_wf_get (h : heap) (reg : Registry) (d : loc) :
  registry_wf h reg → d ∈ dict_values reg → dict_get (internalID (h d)) reg = Some d.
Proof.
  intros [Hnd Hkeys] Hin. unfold dict_values in Hin.
  apply list_elem_of_fmap in Hin as ([k l] & -> & Hin). simpl.
  rewrite (Hkeys _ _ Hin). by apply dict_get_elem.
Qed.

(** The loop succeeds when the devices have pairwise different identifiers
    that are all keys; it removes exactly these keys. *)
Lemma relinquish_each_ok (h : heap) (devs : list loc) : ∀ reg : Registry,
  NoDup ((λ d, internalID (h d)) <$> devs) →
  (∀ d, d ∈ devs → is_Some (dict_get (internalID (h d)) reg)) →
  ∃ reg', relinquish_each h reg devs = (reg', None)
    ∧ (∀ d, d ∈ devs → dict_get (internalID (h d)) reg' = None)
    ∧ (∀ k, k ∉ ((λ d, internalID (h d)) <$> devs) → dict_get k reg' = dict_get k reg).
Proof.
  induction devs as [|d devs IH]; intros reg Hnd Hkeys.
  - exists reg. split; [done|]. split; [|done].
    intros d Hd. by apply elem_of_nil in Hd.
  - rewrite fmap_cons in Hnd. apply NoDup_cons in Hnd as [Hfresh Hnd].
    cbn [relinquish_each]. unfold relinquishDevice.
    destruct (Hkeys d (list_elem_of_here _ _)) as [v Hv].
    rewrite (dict_lookup_own _ _ _ Hv).
    destruct (IH (dict_delete (internalID (h d)) reg) Hnd) as (reg' & Hrun & Hgone & Hkept).
    { intros d' Hd'. rewrite dict_get_delete_ne.
      - by apply Hkeys, list_elem_of_further.
      - intros Heq. apply Hfresh. rewrite Heq. apply list_elem_of_fmap. by exists d'. }
    exists reg'. split; [done|]. split.
    + intros d' Hd'. apply elem_of_cons in Hd' as [->|Hd']; [|by apply Hgone].
      rewrite Hkept by done. apply dict_get_delete_eq.
    + intros k Hk. rewrite fmap_cons, not_elem_of_cons in Hk. destruct Hk as [Hne Hk].
      rewrite Hkept by done. by apply dict_get_delete_ne.
Qed.

Lemma matches_by_uuid (h : heap) (d : loc) :
  matches (λ _ : DeviceClass, true) instanceof h (by_deviceUUIDs (Some (uuid (h d)))) d = true.
Proof.
  unfold matches, by_deviceUUIDs, when. simpl.
  destruct (truthy_string (uuid (h d))); [|done].
  unfold includes. simpl. by rewrite String.eqb_refl.
Qed.

(** Under the invariant, the loop over the devices found for the UUID of an
    enrolled device runs to its end and removes that device. *)
Lemma relinquish_found (w : World) (D : loc) :
  registry_wf (objects w) (devicesByInternalID w) →
  lookupByID (devicesByInternalID w) (internalID (objects w D)) = Some (Own D) →
  ∃ reg', relinquish_each (objects w) (devicesByInternalID w)
            (findDevices w (by_deviceUUIDs (Some (uuid (objects w D))))) = (reg', None)
    ∧ lookupByID reg' (internalID (objects w D)) = None.
Proof.
  intros Hwf Henrolled. apply lookupByID_internalID_Own in Henrolled.
  set (devs := findDevices w (by_deviceUUIDs (Some (uuid (objects w D))))).
  assert (devs `sublist_of` dict_values (devicesByInternalID w)) as Hsub
    by apply List_filter_sublist.
  destruct (relinquish_each_ok (objects w) devs (devicesByInternalID w))
    as (reg' & Hrun & Hgone & _).
  { eapply (sublist_NoDup _ ((λ d, internalID (objects w d))
                               <$> dict_values (devicesByInternalID w))).
    - rewrite registry_wf_keys by done. apply Hwf.
    - by apply fmap_sublist. }
  { intros d Hd. exists d. apply registry_wf_get; [done|].
    by eapply elem_of_sublist. }
  exists reg'. split; [done|]. apply lookupByID_internalID_None, Hgone.
  apply List_filter_elem. split.
  - apply dict_get_Some_elem in Henrolled. unfold dict_values.
    apply list_elem_of_fmap. by exists (internalID (objects w D), D).
  - apply matches_by_uuid.
Qed.

(** C9. For a device enrolled under its internal identifier, with native UUID
    [U], the housekeeping of a notification whose namespace is the unbind
    namespace and whose originating UUID is [U] reports it handled, the whole
    processing of the notification ends without an exception, and afterwards
    [lookupByID] finds no device under that identifier. *)
Theorem unbind_push_removes_device {Payload : Type} (m : @Manager Payload)
    (n : @PushNotification Payload) (D : loc) (U : string) :
  registry_wf (objects (world m)) (devicesByInternalID (world m)) →
  lookupByID (devicesByInternalID (world m)) (internalID (objects (world m) D)) = Some (Own D) →
  uuid (objects (world m) D) = U →
  pn_namespace n = Namespace.CONTROL_UNBIND →
  originatingDeviceUUID n = Some U →
  ∃ m', handlePushNotificationPostDispatching m n = (m', Return true)
      ∧ handleAndDispatchPushNotification m n = (m', Return ())
      ∧ lookupByID (devicesByInternalID (world m')) (internalID (objects (world m) D)) = None.
Proof.
  intros Hwf Henrolled HU Hns Horig.
  destruct (relinquish_found (world m) D Hwf Henrolled) as (reg' & Hrun & Hgone).
  rewrite HU in Hrun.
  assert (handlePushNotificationPostDispatching m n
          = (set_world m (set_registry (world m) reg'), Return true)) as Hpost.
  { unfold handlePushNotificationPostDispatching.
    rewrite Hns, String.eqb_refl, Horig. by rewrite Hrun. }
  exists (set_world m (set_registry (world m) reg')). split; [done|]. split.
  - unfold handleAndDispatchPushNotification. by rewrite Hpost.
  - done.
Qed.

Lemma sample_registry_wf : registry_wf sample_heap sample_registry.
Proof.
  split.
  - vm_compute. repeat constructor; rewrite ?elem_of_cons, ?elem_of_nil; intuition discriminate.
  - intros k l Hin. unfold sample_registry in Hin.
    repeat (apply elem_of_cons in Hin as [[= -> ->]|Hin]; [reflexivity|]).
    by apply elem_of_nil in Hin.
Defined.

Lemma unbind_push_removes_device_witness :
  ∃ m', handlePushNotificationPostDispatching sample_manager unbind_X1 = (m', Return true)
      ∧ handleAndDispatchPushNotification sample_manager unbind_X1 = (m', Return ())
      ∧ lookupByID (devicesByInternalID (world m')) "//BASE:X1" = None.
Proof.
  apply (unbind_push_removes_device sample_manager unbind_X1 0 "X1");
    [apply sample_registry_wf | reflexivity..].
Defined.

(** The housekeeping keeps working after a device was updated from the
    inventory: no call changes a native UUID. *)
Lemma registry_wf_same_uuids (h h' : heap) (reg : Registry) :
  (∀ l, uuid (h' l) = uuid (h l)) → registry_wf h reg → registry_wf h' reg.
Proof.
  intros Hsame [Hnd Hkeys]. split; [done|].
  intros k l Hin. unfold internalID. rewrite Hsame. by apply Hkeys.
Qed.

Lemma updateFromHTTPState_uuid (h h' : heap) (l : loc) (deviceInfo : HTTPDeviceInfo) :
  Js.updateFromHTTPState h l deviceInfo = Return h'
  ∨ Ts.updateFromHTTPState h l deviceInfo = Return h' →
  ∀ l', uuid (h' l') = uuid (h l').
Proof.
  unfold Js.updateFromHTTPState, Ts.updateFromHTTPState.
  intros [Hrun|Hrun] l'; case_bool_decide; try done;
    injection Hrun as <-; unfold store; by destruct (Nat.eqb_spec l' l) as [->|].
Qed.

(** *** From the inbound message to the removal *)

Lemma append_snoc (cur : string) (c : ascii) (rest : string) :
  (cur +:+ String c EmptyString) +:+ rest = cur +:+ String c rest.
Proof.
  induction cur as [|a cur IH]; [done|].
  change (String a ((cur +:+ String c EmptyString) +:+ rest) = String a (cur +:+ String c rest)).
  by f_equal.
Qed.

Lemma append_empty (cur : string) : cur +:+ EmptyString = cur.
Proof.
  induction cur as [|a cur IH]; [done|].
  change (String a (cur +:+ EmptyString) = String a cur). by f_equal.
Qed.

Lemma split_slash_segment (U : string) : ∀ cur rest : string,
  no_slash U = true →
  split_slash_aux (U +:+ String "/"%char rest) cur = (cur +:+ U) :: split_slash_aux rest "".
Proof.
  induction U as [|c U IH]; intros cur rest Hns; simpl in *.
  - by rewrite append_empty.
  - apply andb_prop in Hns as [Hc Hns]. apply negb_true_iff in Hc. rewrite Hc.
    rewrite IH by done. by rewrite append_snoc.
Qed.

Lemma deviceUUIDFromPushNotification_request_topic (U : string) :
  no_slash U = true →
  deviceUUIDFromPushNotification (buildDeviceRequestTopic U) = Some U.
Proof.
  intros Hns. unfold deviceUUIDFromPushNotification, buildDeviceRequestTopic, split_slash.
  simpl. change (split_slash_aux (U +:+ String "/"%char "subscribe") "" !! 0 = Some U).
  by rewrite split_slash_segment.
Qed.

(** A signed PUSH message on the account topic, sent from the request topic
    of an enrolled device with the unbind namespace, is queued by [onMessage]
    and, when the queue runs, removes the device. *)
Lemma onMessage_unbind_removes_device (md5 : string → string) {Payload : Type}
    (m : @Manager Payload) (message : @Envelope Payload) (hdr : Header)
    (D : loc) (U : string) :
  registry_wf (objects (world m)) (devicesByInternalID (world m)) →
  lookupByID (devicesByInternalID (world m)) (internalID (objects (world m) D)) = Some (Own D) →
  uuid (objects (world m) D) = U →
  no_slash U = true →
  verifyMessageSignature md5 hdr (key m) = true →
  method hdr = Some "PUSH" →
  from hdr = Some (buildDeviceRequestTopic U) →
  namespace hdr = Some Namespace.CONTROL_UNBIND →
  timers m = [] →
  ∃ m1 m2, onMessage md5 m (userTopic m) message hdr = Return m1
    ∧ run_next_timer m1 = Some m2
    ∧ lookupByID (devicesByInternalID (world m2)) (internalID (objects (world m) D)) = None.
Proof.
  intros Hwf Henrolled HU Hns Hsig Hmethod Hfrom Hnamespace Htimers.
  destruct (relinquish_found (world m) D Hwf Henrolled) as (reg' & Hrun & Hgone).
  rewrite HU in Hrun.
  eexists _, _. split; [|split].
  - unfold onMessage. rewrite Hsig, Hmethod, Hfrom, Hnamespace. simpl.
    rewrite andb_false_r, String.eqb_refl. simpl.
    by rewrite deviceUUIDFromPushNotification_request_topic.
  - unfold run_next_timer, setTimeout. simpl. rewrite Htimers. simpl.
    rewrite Z.eqb_refl. reflexivity.
  - cbn [run_task]. unfold handleAndDispatchPushNotification,
      handlePushNotificationPostDispatching. simpl. by rewrite Hrun.
Qed.

Example onMessage_unbind_sample :
  ∃ m1 m2, onMessage sample_digest sample_manager "/app/46884/subscribe"
             {| header := unbind_header; payload := "{}" |} unbind_header = Return m1
    ∧ run_next_timer m1 = Some m2
    ∧ lookupByID (devicesByInternalID (world m2)) "//BASE:X1" = None
    ∧ lookupByID (devicesByInternalID (world m2)) "//BASE:X2" = Some (Own 2).
Proof. eexists _, _. split; [reflexivity|]. split; [reflexivity|]. split; reflexivity. Qed.

(** ** The device model *)

Lemma store_eq (l : loc) (d : Device) (h : heap) : store l d h l = d.
Proof. unfold store. by rewrite Nat.eqb_refl. Qed.

Lemma store_ne (l l' : loc) (d : Device) (h : heap) : l' ≠ l → store l d h l' = h l'.
Proof. intros Hne. unfold store. by apply Nat.eqb_neq in Hne as ->. Qed.

(** C5, as the claim states it, fails for a hub whose status is UNKNOWN: the
    sub-device then reports UNKNOWN, not OFFLINE. *)
Lemma subdevice_status_counterexample :
  cls (hub_heap 1) = GenericSubDevice
  ∧ hub (hub_heap 1) = Some 0
  ∧ online (hub_heap 0) = Some OnlineStatus.UNKNOWN
  ∧ onlineStatus hub_heap 1 = Some OnlineStatus.UNKNOWN
  ∧ onlineStatus hub_heap 1 ≠ Some OnlineStatus.OFFLINE.
Proof. vm_compute. repeat split; discriminate. Qed.

(** *** The status getter and the chain of hubs *)

(** Where every hub reference points to an older object, nested calls of the
    getter end before the bound is used up: any bound from [l] on gives the
    same result at [l]. *)
Lemma onlineStatus_upto_enough (h : heap) :
  hubs_older h →
  ∀ n m l, l ≤ n → l ≤ m → onlineStatus_upto n h l = onlineStatus_upto m h l.
Proof.
  intros Holder. induction n as [|n IH]; intros m l Hn Hm.
  - assert (l = 0) as -> by lia.
    destruct m as [|m]; [done|]. simpl.
    destruct (cls (h 0)); try done.
    destruct (hub (h 0)) as [hl|] eqn:Hhub; [|done].
    apply Holder in Hhub. lia.
  - simpl. destruct (cls (h l)) eqn:Hcls; try by destruct m; simpl; rewrite Hcls.
    destruct (hub (h l)) as [hl|] eqn:Hhub; [|by destruct m; simpl; rewrite Hcls, Hhub].
    apply Holder in Hhub as Hlt.
    destruct m as [|m]; [lia|]. simpl. rewrite Hcls, Hhub.
    by rewrite (IH m hl) by lia.
Qed.

(** The getter of BaseDevice, which HubDevice inherits. *)
Lemma onlineStatus_base (h : heap) (l : loc) :
  cls (h l) ≠ GenericSubDevice → onlineStatus h l = online (h l).
Proof. intros Hcls. unfold onlineStatus. simpl. by destruct (cls (h l)). Qed.

(** The getter of GenericSubDevice, in terms of the getter of its hub. *)
Lemma onlineStatus_subdevice (h : heap) (l hl : loc) :
  hubs_older h →
  cls (h l) = GenericSubDevice →
  hub (h l) = Some hl →
  onlineStatus h l
  = if bool_decide (onlineStatus h hl ≠ Some OnlineStatus.ONLINE)
    then onlineStatus h hl
    else online (h l).
Proof.
  intros Holder Hcls Hhub. apply Holder in Hhub as Hlt.
  unfold onlineStatus. cbn [onlineStatus_upto]. rewrite Hcls, Hhub.
  by rewrite (onlineStatus_upto_enough h Holder l (S hl) hl) by lia.
Qed.

(** The getter needs no assumption on the store when the hub is no
    sub-device. *)
Lemma onlineStatus_of_plain_hub (h : heap) (l hl : loc) :
  cls (h l) = GenericSubDevice →
  hub (h l) = Some hl →
  cls (h hl) ≠ GenericSubDevice →
  onlineStatus h l
  = if bool_decide (online (h hl) ≠ Some OnlineStatus.ONLINE)
    then online (h hl)
    else online (h l).
Proof.
  intros Hcls Hhub Hplain. unfold onlineStatus. cbn [onlineStatus_upto].
  rewrite Hcls, Hhub.
  assert (onlineStatus_upto l h hl = online (h hl)) as ->; [|done].
  destruct l as [|l]; simpl; by destruct (cls (h hl)).
Qed.

(** *** Hub references point to older objects *)

Lemma relinquish_each_sublist (h : heap) (devs : list loc) : ∀ reg : Registry,
  sublist (relinquish_each h reg devs).1 reg.
Proof.
  induction devs as [|d devs IH]; intros reg; [done|].
  cbn [relinquish_each]. unfold relinquishDevice.
  destruct (dict_lookup _ reg); [|done].
  etrans; [apply IH | apply dict_delete_sublist].
Qed.

Lemma store_wf_empty : store_wf empty_world.
Proof.
  split.
  - intros l hl. vm_compute. discriminate.
  - intros k l Hin. by apply elem_of_nil in Hin.
Qed.

Lemma alloc_store_wf (w : World) (d : Device) :
  store_wf w →
  (∀ hl, hub d = Some hl → hl < next w) →
  store_wf (alloc d w).1.
Proof.
  intros [Hhub Hreg] Hd. split; simpl.
  - intros l hl. unfold store. destruct (Nat.eqb_spec l (next w)) as [->|Hne].
    + intros Hl. apply Hd in Hl. lia.
    + intros Hl. apply Hhub in Hl. lia.
  - intros k l Hin. apply Hreg in Hin. lia.
Qed.

Lemma findDevices_in_registry (w : World) (f : DeviceFilters DeviceClass) (d : loc) :
  d ∈ findDevices w f → ∃ k, (k, d) ∈ devicesByInternalID w.
Proof.
  intros Hin. apply List_filter_elem in Hin as [Hin _].
  unfold dict_values in Hin. apply list_elem_of_fmap in Hin as ([k l] & -> & Hin).
  by exists k.
Qed.

Lemma run_op_store_wf (w : World) (o : Op) :
  store_wf w → op_in_scope w o → store_wf (run_op w o).
Proof.
  intros Hwf Hscope. pose proof Hwf as [Hhub Hreg].
  destruct o as [d|k|d info|d info|hubl sub|c u config|hu sid config|hu sid config|u];
    simpl in *.
  - split; [done|]. simpl. intros k l. rewrite enrollDevice_own.
    destruct (dict_has _ _) eqn:Hhas; [apply Hreg|].
    apply dict_has_false in Hhas. rewrite dict_set_keys_fresh by done.
    rewrite elem_of_app, list_elem_of_singleton. intros [Hin|[= -> ->]]; [|done].
    by eapply Hreg.
  - unfold relinquishDevice. destruct (dict_lookup k _); [|done].
    split; [done|]. simpl. intros k' l Hin. apply (Hreg k').
    eapply elem_of_sublist; [done | apply dict_delete_sublist].
  - unfold Js.updateFromHTTPState. case_bool_decide; [done|].
    split; [|done]. simpl. intros l hl. unfold store.
    destruct (Nat.eqb_spec l d) as [->|]; apply Hhub.
  - unfold Ts.updateFromHTTPState. case_bool_decide; [done|].
    split; [|done]. simpl. intros l hl. unfold store.
    destruct (Nat.eqb_spec l d) as [->|]; apply Hhub.
  - unfold registerSubDevice. destruct (dict_in _ _); [done|].
    split; [|done]. simpl. intros l hl. unfold store.
    destruct (Nat.eqb_spec l hubl) as [->|]; apply Hhub.
  - by apply alloc_store_wf.
  - unfold new_GenericSubDevice_js.
    destruct (findDevices _ _) as [|hub0 rest] eqn:Hfind; [done|].
    apply alloc_store_wf; [done|]. simpl. intros hl [= <-].
    destruct (findDevices_in_registry w (by_deviceUUIDs (Some hu)) hub0) as [k Hk].
    { rewrite Hfind. apply list_elem_of_here. }
    by eapply Hreg.
  - unfold new_GenericSubDevice_ts.
    destruct (findDevices _ _) as [|hub0 rest] eqn:Hfind; [done|].
    apply alloc_store_wf; [done|]. simpl. intros hl [= <-].
    destruct (findDevices_in_registry w (by_deviceUUIDs (Some hu)) hub0) as [k Hk].
    { rewrite Hfind. apply list_elem_of_here. }
    by eapply Hreg.
  - split; [done|]. simpl. intros k l Hin. apply (Hreg k).
    eapply elem_of_sublist; [done | apply relinquish_each_sublist].
Qed.

(** Whatever calls are issued on the empty manager, with references to
    objects that exist, every hub reference found afterwards points to an
    older object. *)
Lemma run_ops_store_wf (ops : list Op) : ∀ w : World,
  store_wf w → ops_in_scope w ops → store_wf (run_ops w ops).
Proof.
  induction ops as [|o ops IH]; intros w Hwf Hscope; [done|].
  destruct Hscope as [Ho Hrest]. unfold run_ops. simpl.
  apply IH; [by apply run_op_store_wf | done].
Qed.

Lemma run_ops_hubs_older (ops : list Op) :
  ops_in_scope empty_world ops → hubs_older (objects (run_ops empty_world ops)).
Proof.
  intros Hscope l hl Hhub.
  by apply (run_ops_store_wf ops empty_world store_wf_empty Hscope).
Qed.

(** The second sub-device of [chain_ops] holds the first one as its hub and
    reports the status of the hub of that one. *)
Example subdevice_of_subdevice :
  let w := run_ops empty_world chain_ops in
  ops_in_scope empty_world chain_ops
  ∧ hub (objects w 2) = Some 1
  ∧ cls (objects w 1) = GenericSubDevice
  ∧ online (objects w 1) = Some OnlineStatus.ONLINE
  ∧ onlineStatus (objects w) 1 = Some OnlineStatus.OFFLINE
  ∧ onlineStatus (objects w) 2 = Some OnlineStatus.OFFLINE.
Proof. vm_compute. repeat split; lia. Qed.

Lemma hub_heap_older : hubs_older hub_heap.
Proof.
  intros [|[|l]] hl; vm_compute; intros [= <-]; lia.
Defined.

Lemma chain_heap_older : hubs_older chain_heap.
Proof.
  intros [|[|[|l]]] hl; vm_compute; intros [= <-]; lia.
Defined.

(** C5, amended.  The derived status of a sub-device is the status of its hub
    whenever that is not ONLINE (OFFLINE for an OFFLINE hub, UNKNOWN for an
    UNKNOWN hub), and the status the sub-device reported itself otherwise.
    The status of the hub is what the getter of the hub object returns: the
    status that object reported when it is a BaseDevice or a HubDevice, and
    its own derived status when the object the constructor found under the
    UUID of the hub is a sub-device itself. *)
Theorem subdevice_onlineStatus (h : heap) (s hl : loc) :
  hubs_older h →
  cls (h s) = GenericSubDevice →
  hub (h s) = Some hl →
  (onlineStatus h hl ≠ Some OnlineStatus.ONLINE → onlineStatus h s = onlineStatus h hl)
  ∧ (onlineStatus h hl = Some OnlineStatus.ONLINE → onlineStatus h s = online (h s))
  ∧ (cls (h hl) ≠ GenericSubDevice → onlineStatus h hl = online (h hl)).
Proof.
  intros Holder Hcls Hhub. rewrite (onlineStatus_subdevice h s hl) by done.
  split; [|split].
  - intros Hst. by rewrite bool_decide_eq_true_2.
  - intros Hst. by rewrite bool_decide_eq_false_2 by (intros Hne; by apply Hne).
  - apply onlineStatus_base.
Qed.

Lemma subdevice_onlineStatus_witness :
  onlineStatus hub_heap 1 = onlineStatus hub_heap 0
  ∧ onlineStatus hub_heap 0 = Some OnlineStatus.UNKNOWN
  ∧ onlineStatus (store 0 plug hub_heap) 1 = online (store 0 plug hub_heap 1)
  ∧ onlineStatus chain_heap 2 = onlineStatus chain_heap 1
  ∧ onlineStatus chain_heap 1 = Some OnlineStatus.OFFLINE
  ∧ online (chain_heap 1) = Some OnlineStatus.ONLINE.
Proof.
  split; [|split; [|split; [|split; [|split]]]].
  - apply (proj1 (subdevice_onlineStatus hub_heap 1 0 hub_heap_older eq_refl eq_refl)).
    vm_compute. discriminate.
  - apply (proj2 (proj2 (subdevice_onlineStatus hub_heap 1 0 hub_heap_older
                           eq_refl eq_refl))).
    vm_compute. discriminate.
  - apply (proj1 (proj2 (subdevice_onlineStatus (store 0 plug hub_heap) 1 0
                           ltac:(intros [|[|l]] hl; vm_compute; intros [= <-]; lia)
                           eq_refl eq_refl))).
    reflexivity.
  - apply (proj1 (subdevice_onlineStatus chain_heap 2 1 chain_heap_older eq_refl eq_refl)).
    vm_compute. discriminate.
  - reflexivity.
  - reflexivity.
Defined.

Lemma updateFromHTTPState_js_mismatch (h : heap) (l : loc) (deviceInfo : HTTPDeviceInfo) :
  Info.uuid deviceInfo ≠ uuid (h l) →
  Js.updateFromHTTPState h l deviceInfo = Throw (Error (mismatch_message (h l) deviceInfo)).
Proof. intros Hne. unfold Js.updateFromHTTPState. by rewrite bool_decide_eq_true_2. Qed.

(** src/devices.ts does what C6 says: a record for another UUID is refused
    with no write at all, and a record for this UUID overwrites the six
    properties in one step. *)
Lemma updateFromHTTPState_ts_spec (h : heap) (l : loc) (deviceInfo : HTTPDeviceInfo) :
  (Info.uuid deviceInfo ≠ uuid (h l) →
     Ts.updateFromHTTPState h l deviceInfo = Throw (Error (mismatch_message (h l) deviceInfo)))
  ∧ (Info.uuid deviceInfo = uuid (h l) →
     ∃ h', Ts.updateFromHTTPState h l deviceInfo = Return h'
       ∧ (∀ l', l' ≠ l → h' l' = h l')
       ∧ uuid (h' l) = uuid (h l)
       ∧ name (h' l) = Info.dev_name deviceInfo
       ∧ channels (h' l) = parseChannels (Info.channels deviceInfo)
       ∧ type (h' l) = Info.device_type deviceInfo
       ∧ firmwareVersion (h' l) = Info.fmware_version deviceInfo
       ∧ hardwareVersion (h' l) = Info.hdware_version deviceInfo
       ∧ online (h' l) = Info.online_status deviceInfo).
Proof.
  unfold Ts.updateFromHTTPState. split; intros Hu.
  - by rewrite bool_decide_eq_true_2.
  - rewrite bool_decide_eq_false_2 by (intros Hne; by apply Hne).
    eexists. split; [done|]. split; [intros l' Hl'; by apply store_ne|].
    by rewrite store_eq.
Qed.

(** C6 on devices.js.  For a record of the device's own UUID the call
    returns, overwrites name, channels, type and status, but leaves
    [firmwareVersion] and [hardwareVersion] as they were: the version strings
    of the record land in two other properties, [fwversion] and [hwversion]. *)
Theorem updateFromHTTPState_js_keeps_versions (h : heap) (l : loc)
    (deviceInfo : HTTPDeviceInfo) :
  Info.uuid deviceInfo = uuid (h l) →
  ∃ h', Js.updateFromHTTPState h l deviceInfo = Return h'
    ∧ name (h' l) = Info.dev_name deviceInfo
    ∧ channels (h' l) = parseChannels (Info.channels deviceInfo)
    ∧ type (h' l) = Info.device_type deviceInfo
    ∧ online (h' l) = Info.online_status deviceInfo
    ∧ firmwareVersion (h' l) = firmwareVersion (h l)
    ∧ hardwareVersion (h' l) = hardwareVersion (h l)
    ∧ fwversion (h' l) = Info.fmware_version deviceInfo
    ∧ hwversion (h' l) = Info.hdware_version deviceInfo.
Proof.
  intros Hu. unfold Js.updateFromHTTPState.
  rewrite bool_decide_eq_false_2 by (intros Hne; by apply Hne).
  eexists. split; [done|]. by rewrite store_eq.
Qed.

Lemma updateFromHTTPState_js_keeps_versions_witness :
  ∃ h', Js.updateFromHTTPState sample_heap 0 newer_info = Return h'
    ∧ name (h' 0) = Some "renamed"
    ∧ channels (h' 0) = []
    ∧ type (h' 0) = Some "mss310"
    ∧ online (h' 0) = Some 2%Z
    ∧ firmwareVersion (h' 0) = Some "1.0"
    ∧ hardwareVersion (h' 0) = Some "2.0"
    ∧ fwversion (h' 0) = Some "1.1"
    ∧ hwversion (h' 0) = Some "2.1".
Proof. apply (updateFromHTTPState_js_keeps_versions sample_heap 0 newer_info). reflexivity. Defined.

(** ** The hub reference of a sub-device *)

Lemma truthy_string_ne (s : string) : s ≠ "" → truthy_string s = true.
Proof. intros Hne. unfold truthy_string. by apply String.eqb_neq in Hne as ->. Qed.

Lemma matches_by_uuid_nonempty (h : heap) (H : string) (d : loc) :
  H ≠ "" →
  matches (λ _ : DeviceClass, true) instanceof h (by_deviceUUIDs (Some H)) d
  = String.eqb (uuid (h d)) H.
Proof.
  intros Hne. unfold matches, by_deviceUUIDs, when. simpl.
  rewrite (truthy_string_ne H Hne). unfold includes. simpl.
  by destruct (String.eqb (uuid (h d)) H).
Qed.

Lemma findDevices_by_uuid (w : World) (H : string) :
  H ≠ "" →
  findDevices w (by_deviceUUIDs (Some H))
  = List.filter (λ d, String.eqb (uuid (objects w d)) H) (dict_values (devicesByInternalID w)).
Proof.
  intros Hne. unfold findDevices, findAllBy_js, findAllBy_with.
  apply filter_ext. intros d. by apply matches_by_uuid_nonempty.
Qed.

(** No call overwrites the [hub] property of an object that exists, and the
    next free location only grows. *)
Lemma run_op_hub (w : World) (o : Op) (s : loc) :
  s < next w →
  hub (objects (run_op w o) s) = hub (objects w s) ∧ next w ≤ next (run_op w o).
Proof.
  intros Hs. destruct o as [d|k|d info|d info|hl sub|c u config|hu sid config|hu sid config|u];
    simpl.
  - done.
  - by destruct (relinquishDevice _ _).
  - unfold Js.updateFromHTTPState. case_bool_decide; [done|]. simpl. split; [|done].
    unfold store. destruct (Nat.eqb_spec s d) as [->|]; done.
  - unfold Ts.updateFromHTTPState. case_bool_decide; [done|]. simpl. split; [|done].
    unfold store. destruct (Nat.eqb_spec s d) as [->|]; done.
  - unfold registerSubDevice. destruct (dict_in _ _); [done|]. simpl. split; [|done].
    unfold store. destruct (Nat.eqb_spec s hl) as [->|]; done.
  - split; [|lia]. apply (f_equal hub). apply store_ne. lia.
  - unfold new_GenericSubDevice_js. destruct (findDevices _ _); [done|]. simpl.
    split; [|lia]. apply (f_equal hub). apply store_ne. lia.
  - unfold new_GenericSubDevice_ts. destruct (findDevices _ _); [done|]. simpl.
    split; [|lia]. apply (f_equal hub). apply store_ne. lia.
  - done.
Qed.

Lemma run_ops_hub (ops : list Op) : ∀ (w : World) (s : loc),
  s < next w → hub (objects (run_ops w ops) s) = hub (objects w s).
Proof.
  induction ops as [|o ops IH]; intros w s Hs; [done|].
  unfold run_ops in *. simpl.
  destruct (run_op_hub w o s Hs) as [Hhub Hnext].
  rewrite IH by lia. done.
Qed.

(** C10, as the claim states it, fails for the empty UUID: the filter
    [{ deviceUUIDs: '' }] is falsy and selects every device, so the
    constructor returns although no registered device has that UUID. *)
Lemma empty_hub_uuid_counterexample :
  (∀ d, d ∈ dict_values (devicesByInternalID sample_world) →
        uuid (objects sample_world d) ≠ "")
  ∧ is_throw (new_GenericSubDevice_js sample_world "" "S1" sensor_config) = false.
Proof.
  split; [|reflexivity].
  intros d Hd. vm_compute in Hd.
  repeat (apply elem_of_cons in Hd as [->|Hd]; [vm_compute; discriminate|]).
  by apply elem_of_nil in Hd.
Qed.

Lemma filter_head_first {A} (p : A → bool) (l : list A) (x : A) (rest : list A) :
  List.filter p l = x :: rest →
  ∃ i, l !! i = Some x ∧ p x = true ∧ ∀ j y, j < i → l !! j = Some y → p y = false.
Proof.
  induction l as [|a l IH]; simpl; [done|].
  destruct (p a) eqn:Ha.
  - intros [= -> _]. exists 0. split; [done|]. split; [done|]. intros j y Hj. lia.
  - intros Hf. destruct (IH Hf) as (i & Hi & Hx & Hbefore).
    exists (S i). split; [done|]. split; [done|].
    intros [|j] y Hj Hy; simpl in Hy.
    + by injection Hy as <-.
    + apply (Hbefore j); [lia | done].
Qed.

(** C10, amended: for a hub UUID [H] that is not the empty string, and for
    the constructor of devices.js as well as that of src/devices.ts.  The
    constructor throws when no registered device has native UUID [H].  When
    one has, the constructor returns, the [hub] property of the new object is
    the first registered device with native UUID [H], and no later call
    changes that property, whatever happens to the registry. *)
Theorem new_GenericSubDevice_hub
    (new_GenericSubDevice : World → string → string → HTTPSubDeviceInfo → completion (World * loc))
    (w : World) (H subDeviceID_ : string) (config : HTTPSubDeviceInfo) :
  new_GenericSubDevice = new_GenericSubDevice_js
  ∨ new_GenericSubDevice = new_GenericSubDevice_ts →
  H ≠ "" →
  ((∀ d, d ∈ dict_values (devicesByInternalID w) → uuid (objects w d) ≠ H) →
     new_GenericSubDevice w H subDeviceID_ config
     = Throw (Error "Specified hub device is not present"))
  ∧ ((∃ d, d ∈ dict_values (devicesByInternalID w) ∧ uuid (objects w d) = H) →
     ∃ w' s hl i,
       new_GenericSubDevice w H subDeviceID_ config = Return (w', s)
       ∧ dict_values (devicesByInternalID w) !! i = Some hl
       ∧ uuid (objects w hl) = H
       ∧ (∀ j d, j < i → dict_values (devicesByInternalID w) !! j = Some d →
                 uuid (objects w d) ≠ H)
       ∧ hub (objects w' s) = Some hl
       ∧ ∀ ops, hub (objects (run_ops w' ops) s) = Some hl).
Proof.
  intros Hctor Hne.
  assert (∀ this : Device,
    match findDevices w (by_deviceUUIDs (Some H)) with
    | [] => Throw (Error "Specified hub device is not present")
    | hub0 :: _ => Return (alloc (with_hub this hub0) w)
    end = new_GenericSubDevice w H subDeviceID_ config →
    ((∀ d, d ∈ dict_values (devicesByInternalID w) → uuid (objects w d) ≠ H) →
       new_GenericSubDevice w H subDeviceID_ config
       = Throw (Error "Specified hub device is not present"))
    ∧ ((∃ d, d ∈ dict_values (devicesByInternalID w) ∧ uuid (objects w d) = H) →
       ∃ w' s hl i,
         new_GenericSubDevice w H subDeviceID_ config = Return (w', s)
         ∧ dict_values (devicesByInternalID w) !! i = Some hl
         ∧ uuid (objects w hl) = H
         ∧ (∀ j d, j < i → dict_values (devicesByInternalID w) !! j = Some d →
                   uuid (objects w d) ≠ H)
         ∧ hub (objects w' s) = Some hl
         ∧ ∀ ops, hub (objects (run_ops w' ops) s) = Some hl)) as Hbody.
  { intros this <-. rewrite findDevices_by_uuid by done. split.
    - intros Hnone. rewrite filter_none; [done|].
      intros i d Hi. apply String.eqb_neq, Hnone. by eapply list_elem_of_lookup_2.
    - intros (d & Hd & Hu).
      destruct (List.filter _ _) as [|hl rest] eqn:Hfilter.
      + assert (d ∈ @nil loc) as Hnil.
        { rewrite <- Hfilter. apply List_filter_elem. split; [done|]. by apply String.eqb_eq. }
        by apply elem_of_nil in Hnil.
      + apply filter_head_first in Hfilter as (i & Hi & Heq & Hbefore).
        apply String.eqb_eq in Heq.
        exists (alloc (with_hub this hl) w).1, (next w), hl, i.
        split; [done|]. split; [done|]. split; [done|]. split.
        { intros j d' Hj Hd'. apply String.eqb_neq. by apply (Hbefore j). }
        split.
        * simpl. by rewrite store_eq.
        * intros ops. rewrite run_ops_hub; [|simpl; lia]. simpl. by rewrite store_eq. }
  destruct Hctor as [-> | ->]; eapply Hbody; reflexivity.
Qed.

Lemma new_GenericSubDevice_hub_witness :
  new_GenericSubDevice_js sample_world "X7" "S1" sensor_config
  = Throw (Error "Specified hub device is not present")
  ∧ ∃ w' s hl i,
      new_GenericSubDevice_ts sample_world "X2" "S1" sensor_config = Return (w', s)
      ∧ dict_values (devicesByInternalID sample_world) !! i = Some hl
      ∧ uuid (objects sample_world hl) = "X2"
      ∧ (∀ j d, j < i → dict_values (devicesByInternalID sample_world) !! j = Some d →
                uuid (objects sample_world d) ≠ "X2")
      ∧ hub (objects w' s) = Some hl
      ∧ ∀ ops, hub (objects (run_ops w' ops) s) = Some hl.
Proof.
  split.
  - apply (proj1 (new_GenericSubDevice_hub new_GenericSubDevice_js sample_world "X7" "S1"
                    sensor_config (or_introl eq_refl) ltac:(discriminate))).
    intros d Hd. vm_compute in Hd.
    repeat (apply elem_of_cons in Hd as [->|Hd]; [vm_compute; discriminate|]).
    by apply elem_of_nil in Hd.
  - apply (proj2 (new_GenericSubDevice_hub new_GenericSubDevice_ts sample_world "X2" "S1"
                    sensor_config (or_intror eq_refl) ltac:(discriminate))).
    exists 2. split; [|reflexivity].
    vm_compute. apply list_elem_of_further, list_elem_of_here.
Defined.

(** ** Topics *)

Lemma buildClientUserTopic_ts_format (A : string) :
  MqttTs.buildClientUserTopic A = "/app/" +:+ A +:+ "/subscribe".
Proof. reflexivity. Qed.

Lemma buildClientResponseTopic_format (A appID : string) :
  buildClientResponseTopic A appID = "/app/" +:+ A +:+ "-" +:+ appID +:+ "/subscribe".
Proof. reflexivity. Qed.

Lemma buildDeviceRequestTopic_format (U : string) :
  buildDeviceRequestTopic U = "/appliance/" +:+ U +:+ "/subscribe".
Proof. reflexivity. Qed.

(** C2 on src/mqtt.js.  The notification-topic builder returns the same
    text for every account, with the placeholder still in it; for the account
    46884 that is not [/app/46884/subscribe]. *)
Theorem buildClientUserTopic_js_ignores_account :
  (∀ A, MqttJs.buildClientUserTopic A = "/app/${user_id}/subscribe")
  ∧ MqttJs.buildClientUserTopic "46884" ≠ "/app/" +:+ "46884" +:+ "/subscribe".
Proof. split; [reflexivity | vm_compute; discriminate]. Qed.

(** ** The capability factory *)

(** With the two rows present and the abilities given as the object a device
    reports, device-factory.ts looks the X variant up under the text of its
    value and finds nothing, so both mixins are selected. *)
Lemma buildCachedType_ts_keeps_both :
  mixins (buildCachedType_ts toggle_rows reported_abilities BaseDevice)
  = [Own "ToggleMixin"; Own "ToggleXMixin"].
Proof. reflexivity. Qed.

(** C4 on the code.  From a fresh cache, for the inventory record and the
    ability list of the scenario: device-factory.js throws a TypeError and
    builds no device; device-factory.ts builds a BaseDevice whose internal
    identifier is [//BASE:X1], with no mixin selected at all (the ToggleX
    one is not selected). *)
Theorem buildMerossDevice_scenario {Mixin : Type} `{EqDecision Mixin} (w : World) :
  buildMerossDevice_js (Mixin := Mixin) [] w scenario_info scenario_abilities
  = Throw (TypeError "_ABILITY_MATRIX.get is not a function")
  ∧ ∃ cache' w' d f,
      buildMerossDevice_ts (Mixin := Mixin) _ABILITY_MATRIX [] w scenario_info
        scenario_abilities = Return (cache', w', d, f)
      ∧ mixins f = []
      ∧ baseClass f = BaseDevice
      ∧ cls (objects w' d) = BaseDevice
      ∧ internalID (objects w' d) = "//BASE:X1".
Proof.
  split; [reflexivity|].
  eexists _, _, _, _. split; [reflexivity|]. simpl. rewrite store_eq. done.
Qed.

(** ** Signatures and the outbound envelope *)

Section CodecFacts.
Variable md5 : string → string.
Context {Payload : Type}.
Implicit Types (m : @Manager Payload).

Lemma buildMQTTMessage_signed m (method_ namespace_ : string) (p : Payload)
    (nonce : string) :
  let hdr := header (buildMQTTMessage md5 m method_ namespace_ p nonce).1 in
  messageId hdr = Some (md5 nonce)
  ∧ sign hdr = Some (md5 (md5 nonce +:+ key m +:+ pretty (clock m / 100)%Z))
  ∧ verifyMessageSignature md5 hdr (key m) = true.
Proof.
  simpl. split; [done|]. split; [done|].
  unfold verifyMessageSignature. simpl. by apply bool_decide_eq_true_2.
Qed.

Lemma deciseconds_not_seconds (t : Z) : (100 ≤ t)%Z → (t / 100 ≠ t / 1000)%Z.
Proof.
  intros Ht.
  assert (t / 1000 = t / 100 / 10)%Z as -> by (rewrite Z.div_div by lia; done).
  assert (1 ≤ t / 100)%Z by (apply Z.div_le_lower_bound; lia).
  assert (t / 100 / 10 < t / 100)%Z by (apply Z.div_lt; lia).
  lia.
Qed.
End CodecFacts.

(** C3 on the code.  The envelope is signed over the message identifier, the
    key and its own timestamp, and passes verification with the same key; but
    the timestamp is the clock in milliseconds divided by 100, which from
    100 ms on differs from the time in seconds. *)
Theorem buildMQTTMessage_timestamp (md5 : string → string) {Payload : Type}
    (m : @Manager Payload) (method_ namespace_ : string) (p : Payload) (nonce : string) :
  let hdr := header (buildMQTTMessage md5 m method_ namespace_ p nonce).1 in
  timestamp hdr = Some (clock m / 100)%Z
  ∧ verifyMessageSignature md5 hdr (key m) = true
  ∧ ((100 ≤ clock m)%Z → timestamp hdr ≠ Some (clock m / 1000)%Z).
Proof.
  split; [done|]. split; [apply buildMQTTMessage_signed|].
  intros Ht. simpl. intros [= Heq]. by apply deciseconds_not_seconds in Heq.
Qed.

Lemma buildMQTTMessage_timestamp_witness :
  let hdr := header (buildMQTTMessage sample_digest (manager_at 1700000000000)
                       "GET" "Appliance.System.All" "{}" "NONCE").1 in
  timestamp hdr = Some 17000000000%Z
  ∧ timestamp hdr ≠ Some (1700000000000 / 1000)%Z.
Proof.
  split; [reflexivity|].
  apply (proj2 (proj2 (buildMQTTMessage_timestamp sample_digest (manager_at 1700000000000)
                         "GET" "Appliance.System.All" "{}" "NONCE"))).
  simpl. lia.
Defined.

(** ** Commands, acknowledgements and timeouts *)

Section CommandFacts.
Variable md5 : string → string.
Context {Payload : Type}.
Variable JSON_stringify : @Envelope Payload → string.
Implicit Types (m : @Manager Payload).

(** The timeout argument has no influence on what [executeCommand] does. *)
Lemma executeCommand_timeout_irrelevant m (dest method_ namespace_ : string)
    (p : Payload) (T T' : Z) (nonce : string) :
  executeCommand md5 JSON_stringify m dest method_ namespace_ p T nonce
  = executeCommand md5 JSON_stringify m dest method_ namespace_ p T' nonce.
Proof. reflexivity. Qed.

Lemma outcome_of_settle_fresh m (call : nat) (o : Outcome) :
  outcome_of m call = None →
  outcome_of (settle m call o) call = Some (clock m, o).
Proof.
  unfold outcome_of, settle. simpl. intros Hnone.
  apply fmap_None in Hnone. rewrite Hnone.
  induction (outcomes m) as [|[c v] l IH]; simpl in *.
  - by rewrite Nat.eqb_refl.
  - destruct (Nat.eqb c call); [done | by apply IH].
Qed.

(** The acknowledgement path (SETACK, GETACK or ERROR on the response topic)
    removes the pending entry. *)
Lemma onMessage_ack_removes_pending m (message : @Envelope Payload) (hdr : Header)
    (mid : string) (call : nat) :
  verifyMessageSignature md5 hdr (key m) = true →
  is_ack (method hdr) = true →
  messageId hdr = Some mid →
  dict_get mid (pendingMessages m) = Some call →
  ∃ m', onMessage md5 m (clientResponseTopic m) message hdr = Return m'
    ∧ dict_get mid (pendingMessages m') = None.
Proof.
  intros Hsig Hack Hmid Hpending. unfold onMessage.
  rewrite Hsig, String.eqb_refl, Hack, Hmid. simpl.
  rewrite (dict_lookup_own _ _ _ Hpending).
  case_bool_decide; (eexists; split; [done|]; simpl; apply dict_get_delete_eq).
Qed.
End CommandFacts.

(** C1 on the code.  A command sent by a connected manager with no other
    timer armed registers its pending entry and arms the timeout at one
    millisecond after the send, whatever [T] is; when that timer runs the call
    is rejected with CommandTimeout, one millisecond after the send (before
    [T] seconds for every [T] of a second or more), and the pending entry of
    the message identifier is still in the table. *)
Theorem executeCommand_timeout (md5 : string → string) {Payload : Type}
    (JSON_stringify : @Envelope Payload → string) (m : @Manager Payload)
    (dest method_ namespace_ : string) (p : Payload) (T : Z) (nonce : string) :
  connected m = true →
  timers m = [] →
  outcome_of m (calls m) = None →
  ∃ m1 call e,
    executeCommand md5 JSON_stringify m dest method_ namespace_ p T nonce = Return (m1, call)
    ∧ dict_get (md5 nonce) (pendingMessages m1) = Some call
    ∧ timers m1 = [((clock m + 1)%Z, TimeoutReject call (CommandTimeout e))]
    ∧ ∃ m2, run_next_timer m1 = Some m2
        ∧ outcome_of m2 call = Some ((clock m + 1)%Z, Rejected (CommandTimeout e))
        ∧ dict_get (md5 nonce) (pendingMessages m2) = Some call
        ∧ ((1 ≤ T)%Z → (clock m + 1 < clock m + T * 1000)%Z).
Proof.
  intros Hconn Htimers Hfresh. unfold executeCommand. rewrite Hconn. simpl.
  eexists _, _, _. split; [reflexivity|]. simpl. rewrite Htimers. simpl.
  split; [apply dict_get_set_eq|]. split; [reflexivity|].
  unfold run_next_timer. simpl. rewrite Z.eqb_refl.
  eexists. split; [reflexivity|]. split; [|split; [apply dict_get_set_eq | lia]].
  cbn [run_task]. rewrite outcome_of_settle_fresh.
  - simpl. f_equal. f_equal. lia.
  - done.
Qed.

Lemma executeCommand_timeout_witness :
  ∃ m1 call e,
    executeCommand sample_digest sample_stringify (manager_at 0) "X1" "GET"
      "Appliance.System.All" "{}" 5 "NONCE" = Return (m1, call)
    ∧ dict_get (sample_digest "NONCE") (pendingMessages m1) = Some call
    ∧ timers m1 = [((0 + 1)%Z, TimeoutReject call (CommandTimeout e))]
    ∧ ∃ m2, run_next_timer m1 = Some m2
        ∧ outcome_of m2 call = Some ((0 + 1)%Z, Rejected (CommandTimeout e))
        ∧ dict_get (sample_digest "NONCE") (pendingMessages m2) = Some call
        ∧ ((1 ≤ 5)%Z → (0 + 1 < 0 + 5 * 1000)%Z).
Proof.
  apply (executeCommand_timeout sample_digest sample_stringify (manager_at 0)
           "X1" "GET" "Appliance.System.All" "{}" 5 "NONCE"); reflexivity.
Defined.

(** * Further properties of the code *)

(** ** Channels *)

Lemma parseChannels_from_lookup (data : list ChannelData) : ∀ (k i : nat) (c : ChannelInfo),
  parseChannels_from k data !! i = Some c →
  index c = k + i ∧ master c = Nat.eqb (k + i) 0
  ∧ ∃ cd, data !! i = Some cd ∧ ch_name c = cd_name cd ∧ ch_type c = cd_type cd.
Proof.
  induction data as [|cd data IH]; intros k i c Hc; [done|].
  destruct i as [|i]; simpl in Hc.
  - injection Hc as <-. simpl. rewrite Nat.add_0_r. split; [done|]. split; [done|].
    by exists cd.
  - destruct (IH (S k) i c Hc) as (Hidx & Hm & cd' & Hcd & Hn & Ht).
    replace (k + S i) with (S k + i) by lia. split; [done|]. split; [done|].
    by exists cd'.
Qed.

Lemma parseChannels_from_length (data : list ChannelData) (k : nat) :
  length (parseChannels_from k data) = length data.
Proof. revert k. induction data as [|cd data IH]; intros k; simpl; [done | by rewrite IH]. Qed.

(** X1. [parseChannels] keeps the number and the order of the channels: the
    channel at position [i] has index [i], the name and type of the [i]-th
    input, and is the master exactly when [i] is 0.  A missing channel list
    gives no channels. *)
Theorem parseChannels_positions (channelData : option (list ChannelData)) :
  length (parseChannels channelData) = length (default [] channelData)
  ∧ ∀ i c, parseChannels channelData !! i = Some c →
      index c = i ∧ master c = Nat.eqb i 0
      ∧ ∃ cd, default [] channelData !! i = Some cd
          ∧ ch_name c = cd_name cd ∧ ch_type c = cd_type cd.
Proof.
  unfold parseChannels. split; [apply parseChannels_from_length|].
  intros i c Hc. by apply (parseChannels_from_lookup _ 0 i c).
Qed.

Lemma parseChannels_positions_witness :
  ∃ c, channels strip !! 2 = Some c ∧ index c = 2 ∧ master c = false
       ∧ ch_name c = Some "usb".
Proof.
  eexists. split; [reflexivity|].
  destruct (proj2 (parseChannels_positions three_channels) 2 _ eq_refl)
    as (Hi & Hm & cd & Hcd & Hn & Ht).
  split; [exact Hi|]. split; [exact Hm|]. reflexivity.
Defined.

(** X2. [lookupChannel] returns a channel only when exactly one channel has
    the name; it throws the same error when no channel has it and when two
    or more have it. *)
Theorem lookupChannel_spec (d : Device) (nm : string) :
  ((∀ i c, channels d !! i = Some c → ch_name c ≠ Some nm) →
     lookupChannel d nm = Throw (Error ("Could not find channel by name = " +:+ nm)))
  ∧ (∀ i c, channels d !! i = Some c → ch_name c = Some nm →
       (∀ j c', channels d !! j = Some c' → ch_name c' = Some nm → j = i) →
       lookupChannel d nm = Return c)
  ∧ (∀ i j c c', i ≠ j → channels d !! i = Some c → channels d !! j = Some c' →
       ch_name c = Some nm → ch_name c' = Some nm →
       lookupChannel d nm = Throw (Error ("Could not find channel by name = " +:+ nm))).
Proof.
  unfold lookupChannel. split; [|split].
  - intros Hnone. rewrite filter_none; [done|].
    intros i c Hc. apply bool_decide_eq_false_2. eauto.
  - intros i c Hc Hn Huniq.
    rewrite (filter_unique _ _ i c); [done..| |].
    + by apply bool_decide_eq_true_2.
    + intros j c' Hc' Hn'. apply bool_decide_eq_true_1 in Hn'. eauto.
  - intros i j c c' Hij Hc Hc' Hn Hn'.
    pose proof (filter_two (λ c0, bool_decide (ch_name c0 = Some nm)) (channels d)
                  i j c c' Hij Hc Hc'
                  (bool_decide_eq_true_2 _ Hn) (bool_decide_eq_true_2 _ Hn')) as Hlen.
    destruct (List.filter _ _) as [|c1 [|c2 rest]]; simpl in Hlen; [done | lia | done].
Qed.

Lemma lookupChannel_spec_witness :
  lookupChannel strip "aux" = Throw (Error "Could not find channel by name = aux")
  ∧ (∃ c, channels strip !! 0 = Some c ∧ lookupChannel strip "main" = Return c)
  ∧ lookupChannel strip "usb" = Throw (Error "Could not find channel by name = usb").
Proof.
  split; [|split].
  - apply (proj1 (lookupChannel_spec strip "aux")).
    intros [|[|[|i]]] c; simpl; intros [= <-]; simpl; discriminate.
  - eexists. split; [reflexivity|].
    apply (proj1 (proj2 (lookupChannel_spec strip "main")) 0); [reflexivity..|].
    intros [|[|[|j]]] c'; simpl; intros [= <-]; simpl; [reflexivity | discriminate..].
  - eapply (proj2 (proj2 (lookupChannel_spec strip "usb")) 1 2);
      [lia | reflexivity..].
Defined.

(** ** Sub-devices of a hub *)








(** ** More on the registry *)

Lemma dict_delete_fresh {V} (k : string) (d : list (string * V)) :
  dict_get k d = None → dict_delete k d = d.
Proof.
  induction d as [|[k' v'] d IH]; [done|].
  rewrite dict_get_cons. unfold dict_delete in *. simpl.
  destruct (String.eqb k' k); [done|]. intros H. simpl. by rewrite IH.
Qed.

Lemma dict_delete_snoc {V} (k : string) (v : V) (d : list (string * V)) :
  dict_get k d = None → dict_delete k (d ++ [(k, v)]) = d.
Proof.
  intros Hnone. unfold dict_delete. rewrite List.filter_app. simpl.
  rewrite String.eqb_refl. simpl. rewrite app_nil_r. by apply dict_delete_fresh.
Qed.

(** X4. [relinquishDevice] throws when [devicesByInternalID[deviceID]] is
    [undefined].  For a key it removes that entry and changes no other; for
    an identifier that is no key but names a member every object inherits,
    such as [constructor], it does not throw and removes nothing.  After the
    removal of a key no device is left under the identifier, and a second
    removal throws unless the identifier names an inherited member. *)
Theorem relinquishDevice_spec (reg : Registry) (deviceID : string) :
  (lookupByID reg deviceID = None →
     relinquishDevice reg deviceID = Throw (Error (relinquish_message deviceID)))
  ∧ (∀ nm, lookupByID reg deviceID = Some (Inherited nm) →
       relinquishDevice reg deviceID = Return reg)
  ∧ (∀ d, lookupByID reg deviceID = Some (Own d) →
       ∃ reg', relinquishDevice reg deviceID = Return reg'
         ∧ (∀ l, lookupByID reg' deviceID ≠ Some (Own l))
         ∧ (∀ k, k ≠ deviceID → lookupByID reg' k = lookupByID reg k)
         ∧ (inherited deviceID = false →
            lookupByID reg' deviceID = None
            ∧ relinquishDevice reg' deviceID
              = Throw (Error (relinquish_message deviceID)))).
Proof.
  unfold lookupByID, relinquishDevice. split; [|split].
  - by intros ->.
  - intros nm Hinh. rewrite Hinh. apply dict_lookup_Inherited in Hinh as (Hnone & _ & _).
    by rewrite dict_delete_fresh.
  - intros d Hown. rewrite Hown. eexists. split; [done|].
    assert (dict_get deviceID (dict_delete deviceID reg) = None) as Hgone
      by apply dict_get_delete_eq.
    split; [|split].
    + intros l Hl. apply dict_lookup_Own in Hl. by rewrite Hgone in Hl.
    + intros k Hk. unfold dict_lookup. by rewrite dict_get_delete_ne.
    + intros Hinh.
      assert (dict_lookup deviceID (dict_delete deviceID reg) = None) as ->; [|done].
      by apply dict_lookup_None.
Qed.

Lemma relinquishDevice_spec_witness :
  relinquishDevice sample_registry "//BASE:X9"
  = Throw (Error (relinquish_message "//BASE:X9"))
  ∧ relinquishDevice sample_registry "constructor" = Return sample_registry
  ∧ ∃ reg', relinquishDevice sample_registry "//BASE:X1" = Return reg'
      ∧ (∀ l, lookupByID reg' "//BASE:X1" ≠ Some (Own l))
      ∧ (∀ k, k ≠ "//BASE:X1" → lookupByID reg' k = lookupByID sample_registry k)
      ∧ (inherited "//BASE:X1" = false →
         lookupByID reg' "//BASE:X1" = None
         ∧ relinquishDevice reg' "//BASE:X1"
           = Throw (Error (relinquish_message "//BASE:X1"))).
Proof.
  split; [|split].
  - apply (proj1 (relinquishDevice_spec sample_registry "//BASE:X9")). reflexivity.
  - apply (proj1 (proj2 (relinquishDevice_spec sample_registry "constructor"))
             "constructor").
    reflexivity.
  - apply (proj2 (proj2 (relinquishDevice_spec sample_registry "//BASE:X1")) 0).
    reflexivity.
Defined.

(** X5. Enrolling a device whose identifier is new and relinquishing that
    identifier again gives back the registry as it was, entry for entry. *)
Theorem enroll_relinquish_roundtrip (h : heap) (reg : Registry) (D : loc) :
  lookupByID reg (internalID (h D)) = None →
  relinquishDevice (enrollDevice h reg D) (internalID (h D)) = Return reg.
Proof.
  intros Hnone. apply lookupByID_internalID_None in Hnone. rewrite enrollDevice_own.
  rewrite (proj2 (dict_has_false _ _) Hnone), dict_set_keys_fresh by done.
  unfold relinquishDevice.
  rewrite <- (dict_set_keys_fresh _ D) by done.
  rewrite (dict_lookup_own _ D) by apply dict_get_set_eq.
  rewrite dict_set_keys_fresh by done. by rewrite dict_delete_snoc.
Qed.

Lemma enroll_relinquish_roundtrip_witness :
  relinquishDevice (enrollDevice sample_heap [("//BASE:X2", 2)] 0) "//BASE:X1"
  = Return [("//BASE:X2", 2)].
Proof.
  apply (enroll_relinquish_roundtrip sample_heap [("//BASE:X2", 2)] 0). reflexivity.
Defined.

(** X6. [enrollDevice] changes no other entry; a new device goes to the end
    of the order in which the registry lists its devices; and enrolling the
    same device twice equals enrolling it once. *)
Theorem enrollDevice_frame (h : heap) (reg : Registry) (D : loc) :
  (∀ k, k ≠ internalID (h D) →
        lookupByID (enrollDevice h reg D) k = lookupByID reg k)
  ∧ (lookupByID reg (internalID (h D)) = None →
       dict_values (enrollDevice h reg D) = dict_values reg ++ [D])
  ∧ enrollDevice h (enrollDevice h reg D) D = enrollDevice h reg D.
Proof.
  split; [|split].
  - intros k Hk. rewrite enrollDevice_own. unfold lookupByID.
    destruct (dict_has _ _); [done|].
    unfold dict_lookup. rewrite dict_get_set_ne; [done | congruence].
  - intros Hnone. apply lookupByID_internalID_None in Hnone. rewrite enrollDevice_own.
    rewrite (proj2 (dict_has_false _ _) Hnone), dict_set_keys_fresh by done.
    unfold dict_values. by rewrite fmap_app.
  - rewrite (enrollDevice_own h (enrollDevice h reg D)).
    assert (dict_has (internalID (h D)) (enrollDevice h reg D) = true) as ->; [|done].
    apply dict_has_true. rewrite enrollDevice_own.
    destruct (dict_has (internalID (h D)) reg) eqn:Hhas.
    + by apply dict_has_true.
    + rewrite dict_get_set_eq. by eexists.
Qed.

Lemma enrollDevice_frame_witness :
  lookupByID (enrollDevice sample_heap [("//BASE:X2", 2)] 0) "//BASE:X2" = Some (Own 2)
  ∧ dict_values (enrollDevice sample_heap [("//BASE:X2", 2)] 0) = [2; 0].
Proof.
  split.
  - apply (proj1 (enrollDevice_frame sample_heap [("//BASE:X2", 2)] 0) "//BASE:X2").
    vm_compute. discriminate.
  - apply (proj1 (proj2 (enrollDevice_frame sample_heap [("//BASE:X2", 2)] 0))).
    reflexivity.
Defined.

Lemma base_prefix_inj (a b : string) : "//BASE:" +:+ a = "//BASE:" +:+ b → a = b.
Proof. intros H. cbv [String.append String.app] in H. by injection H. Qed.

Lemma internalID_inj (d d' : Device) : internalID d = internalID d' → uuid d = uuid d'.
Proof. apply base_prefix_inj. Qed.

(** On a well-formed registry the lookup by native UUID finds the device
    stored under the internal identifier made from it. *)
Lemma lookupByUUID_wf (h : heap) (reg : Registry) (U : string) :
  registry_wf h reg →
  lookupByUUID h reg U = Return (dict_get ("//BASE:" +:+ U) reg).
Proof.
  intros [Hnd Hkeys]. unfold lookupByUUID.
  destruct (dict_get ("//BASE:" +:+ U) reg) as [d|] eqn:Hget.
  - apply dict_get_Some_elem in Hget as Hin.
    assert (uuid (h d) = U) as HU.
    { by apply base_prefix_inj, (Hkeys _ _ Hin). }
    apply list_elem_of_lookup_1 in Hin as [i Hi].
    rewrite (filter_unique _ _ i d); [done | by eapply registry_value_lookup | |].
    + by apply String.eqb_eq.
    + intros j d' Hj Hd'. apply String.eqb_eq in Hd'.
      apply registry_value_lookup_inv in Hj as [k' Hj].
      assert (k' = "//BASE:" +:+ U) as ->.
      { rewrite <- (Hkeys k' d'); [|by eapply list_elem_of_lookup_2].
        unfold internalID. by rewrite Hd'. }
      eapply (NoDup_lookup (fst <$> reg)); [done | |].
      * by rewrite list_lookup_fmap, Hj.
      * by rewrite list_lookup_fmap, Hi.
  - rewrite filter_none; [done|].
    intros i d Hi. apply String.eqb_neq. intros HU.
    apply registry_value_lookup_inv in Hi as [k Hi].
    apply list_elem_of_lookup_2 in Hi as Hin.
    pose proof (Hkeys _ _ Hin) as Hk. unfold internalID in Hk. rewrite HU in Hk.
    apply dict_get_None in Hget. apply Hget. rewrite Hk.
    apply list_elem_of_fmap. by exists (k, d).
Qed.

(** X7. On every registry that enrolments and removals produce from the
    empty one, [lookupByUUID] does not throw.  It returns the device that
    [lookupByID] returns under the identifier [//BASE:] + UUID when there is
    one, and [null] when [lookupByID] returns [undefined]; [lookupByID]
    returns nothing else under such an identifier. *)
Theorem lookupByUUID_after_calls (h : heap) (cs : list RegistryCall) (U : string) :
  ∃ found : option loc,
    lookupByUUID h (registry_after h cs) U = Return found
    ∧ lookupByID (registry_after h cs) ("//BASE:" +:+ U) = Own <$> found.
Proof.
  eexists. split; [apply lookupByUUID_wf, registry_after_wf|].
  apply lookupByID_base.
Qed.

(** ** Queries *)

Lemma includes_elem (l : list string) (s : string) : includes l s = true ↔ s ∈ l.
Proof.
  unfold includes. rewrite existsb_exists. split.
  - intros (x & Hx & Heq). apply String.eqb_eq in Heq as ->. by apply list_elem_of_In.
  - intros Hin. exists s. split; [by apply list_elem_of_In | apply String.eqb_refl].
Qed.

Lemma List_filter_true {A} (p : A → bool) (l : list A) :
  (∀ x, p x = true) → List.filter p l = l.
Proof. intros Hp. induction l as [|a l IH]; simpl; [done|]. by rewrite Hp, IH. Qed.

(** X8. A query lists registered devices only, each at most as often as the
    registry holds it and in the order of enrolment; the query without
    filters, [findDevices()], lists them all. *)
Theorem findDevices_sublist (w : World) (f : DeviceFilters DeviceClass) :
  findDevices w f `sublist_of` dict_values (devicesByInternalID w)
  ∧ findDevices w no_filters = dict_values (devicesByInternalID w).
Proof.
  split; [apply List_filter_sublist|].
  unfold findDevices, findAllBy_js, findAllBy_with. by apply List_filter_true.
Qed.

(** X9. The UUID filter given as an array selects the devices whose native
    UUID is in the array, so the empty array selects nothing; given as the
    empty string it is ignored and every device is selected. *)
Theorem findDevices_by_uuid_list (w : World) (l : list string) :
  (∀ d, d ∈ findDevices w (by_uuid_list (StringArray l))
        ↔ d ∈ dict_values (devicesByInternalID w) ∧ uuid (objects w d) ∈ l)
  ∧ findDevices w (by_uuid_list (StringArray [])) = []
  ∧ findDevices w (by_uuid_list (OneString "")) = dict_values (devicesByInternalID w).
Proof.
  split; [|split].
  - intros d. unfold findDevices, findAllBy_js, findAllBy_with.
    rewrite List_filter_elem. unfold matches, by_uuid_list, filters_without_class, when.
    simpl. rewrite andb_true_r. by rewrite includes_elem.
  - unfold findDevices, findAllBy_js, findAllBy_with. apply filter_none. done.
  - unfold findDevices, findAllBy_js, findAllBy_with. by apply List_filter_true.
Qed.

(** device-registry.js and its TypeScript port answer every query that names
    no device class alike. *)
Lemma findAllBy_ports_agree (h : heap) (reg : Registry)
    (us ids : option StringOrArray) (ty nm : option string) (st : option Z) :
  findAllBy_js h reg (filters_without_class us ids ty nm st)
  = findAllBy_ts h reg (filters_without_class us ids ty nm st).
Proof.
  unfold findAllBy_js, findAllBy_ts, findAllBy_with. apply filter_ext. intros d.
  unfold matches, filters_without_class. reflexivity.
Qed.

(** ** A sub-device and the registry *)

(** X10. A sub-device built for a hub that is enrolled in a well-formed
    registry has the internal identifier of that hub ([internalID] is
    inherited; [internal_id] is another property), so enrolling the
    sub-device changes nothing and the identifier keeps naming the hub. *)
Theorem subdevice_shares_hub_identifier (w w' : World) (H subDeviceID_ : string)
    (config : HTTPSubDeviceInfo) (s : loc) :
  registry_wf (objects w) (devicesByInternalID w) →
  H ≠ "" →
  new_GenericSubDevice_js w H subDeviceID_ config = Return (w', s) →
  ∃ hl, hub (objects w' s) = Some hl
    ∧ internalID (objects w' s) = internalID (objects w hl)
    ∧ internal_id (objects w' s) = "//BASE:" +:+ H +:+ "//SUB:" +:+ subDeviceID_
    ∧ enrollDevice (objects w') (devicesByInternalID w') s = devicesByInternalID w'
    ∧ lookupByID (devicesByInternalID w') (internalID (objects w' s)) = Some (Own hl).
Proof.
  intros Hwf Hne. unfold new_GenericSubDevice_js.
  rewrite findDevices_by_uuid by done.
  destruct (List.filter _ _) as [|hl rest] eqn:Hfilter; [done|].
  intros [= <- <-]. simpl. rewrite store_eq. simpl.
  assert (hl ∈ List.filter (λ d, String.eqb (uuid (objects w d)) H)
                 (dict_values (devicesByInternalID w))) as Hhl
    by (rewrite Hfilter; apply list_elem_of_here).
  apply List_filter_elem in Hhl as [Hin Heq]. apply String.eqb_eq in Heq.
  assert (dict_get ("//BASE:" +:+ H) (devicesByInternalID w) = Some hl) as Hget.
  { rewrite <- Heq. by apply (registry_wf_get (objects w)). }
  exists hl. split; [done|]. split; [unfold internalID; simpl; by rewrite Heq|].
  split; [done|]. split.
  - rewrite enrollDevice_own. unfold internalID. rewrite store_eq. simpl.
    by rewrite (proj2 (dict_has_true _ _) (mk_is_Some _ _ Hget)).
  - by apply lookupByID_internalID_Own.
Qed.

Lemma subdevice_shares_hub_identifier_witness :
  ∃ w' hl, new_GenericSubDevice_js sample_world "X2" "S1" sensor_config = Return (w', 3)
    ∧ enrollDevice (objects w') (devicesByInternalID w') 3 = devicesByInternalID w'
    ∧ lookupByID (devicesByInternalID w') (internalID (objects w' 3)) = Some (Own hl)
    ∧ hl ≠ 3.
Proof.
  destruct (subdevice_shares_hub_identifier sample_world _ "X2" "S1" sensor_config 3
              sample_registry_wf ltac:(discriminate) eq_refl)
    as (hl & Hhub & _ & _ & Henroll & Hlook).
  eexists _, hl. split; [reflexivity|]. split; [exact Henroll|]. split; [exact Hlook|].
  injection Hhub as <-. discriminate.
Defined.

(** ** More on the unbind housekeeping *)

(** Removing the devices a filter selects from a well-formed registry runs to
    its end, removes their identifiers and keeps every other entry. *)
Lemma relinquish_filtered (h : heap) (reg : Registry) (p : loc → bool) :
  registry_wf h reg →
  ∃ reg', relinquish_each h reg (List.filter p (dict_values reg)) = (reg', None)
    ∧ (∀ d, d ∈ dict_values reg → p d = true → dict_get (internalID (h d)) reg' = None)
    ∧ (∀ k, (∀ d, d ∈ dict_values reg → p d = true → internalID (h d) ≠ k) →
            dict_get k reg' = dict_get k reg).
Proof.
  intros Hwf.
  destruct (relinquish_each_ok h (List.filter p (dict_values reg)) reg)
    as (reg' & Hrun & Hgone & Hkept).
  { eapply (sublist_NoDup _ ((λ d, internalID (h d)) <$> dict_values reg)).
    - rewrite registry_wf_keys by done. apply Hwf.
    - apply fmap_sublist, List_filter_sublist. }
  { intros d Hd. apply List_filter_elem in Hd as [Hd _]. exists d.
    by apply registry_wf_get. }
  exists reg'. split; [done|]. split.
  - intros d Hd Hp. apply Hgone. by apply List_filter_elem.
  - intros k Hk. apply Hkept. intros Hin.
    apply list_elem_of_fmap in Hin as (d & -> & Hd).
    apply List_filter_elem in Hd as [Hd Hp]. by apply (Hk d).
Qed.

(** X11. On a well-formed registry an unbind notification with a non-empty
    originating UUID [U] is reported handled, removes the entry
    [//BASE:] + [U] if there is one, and leaves every other entry and every
    device object as they were; this also holds when no device has that
    UUID. *)
Theorem unbind_removes_only_that_uuid {Payload : Type} (m : @Manager Payload)
    (n : @PushNotification Payload) (U : string) :
  registry_wf (objects (world m)) (devicesByInternalID (world m)) →
  U ≠ "" →
  pn_namespace n = Namespace.CONTROL_UNBIND →
  originatingDeviceUUID n = Some U →
  ∃ m', handlePushNotificationPostDispatching m n = (m', Return true)
    ∧ objects (world m') = objects (world m)
    ∧ ∀ k, lookupByID (devicesByInternalID (world m')) k
           = if String.eqb k ("//BASE:" +:+ U) then None
             else lookupByID (devicesByInternalID (world m)) k.
Proof.
  intros Hwf Hne Hns Horig.
  destruct (relinquish_filtered (objects (world m)) (devicesByInternalID (world m))
              (λ d, String.eqb (uuid (objects (world m) d)) U) Hwf)
    as (reg' & Hrun & Hgone & Hkept).
  exists (set_world m (set_registry (world m) reg')). split; [|split; [done|]].
  - unfold handlePushNotificationPostDispatching.
    rewrite Hns, String.eqb_refl, Horig, findDevices_by_uuid by done. by rewrite Hrun.
  - intros k. simpl.
    destruct (String.eqb_spec k ("//BASE:" +:+ U)) as [->|Hk].
    + apply lookupByID_base_None.
      destruct (dict_get ("//BASE:" +:+ U) (devicesByInternalID (world m)))
        as [d|] eqn:Hget.
      * apply dict_get_Some_elem in Hget as Hin.
        pose proof (proj2 Hwf _ _ Hin) as Hid. rewrite <- Hid. apply Hgone.
        -- unfold dict_values. apply list_elem_of_fmap. by exists ("//BASE:" +:+ U, d).
        -- apply String.eqb_eq. by apply base_prefix_inj.
      * rewrite Hkept; [done|]. intros d Hd _ Hid.
        apply (registry_wf_get _ _ _ Hwf) in Hd. congruence.
    + unfold lookupByID, dict_lookup. rewrite Hkept; [done|].
      intros d _ Hp Hid. apply String.eqb_eq in Hp.
      apply Hk. rewrite <- Hid. unfold internalID. by rewrite Hp.
Qed.

Lemma unbind_removes_only_that_uuid_witness :
  ∃ m', handlePushNotificationPostDispatching sample_manager (unbind_from (Some "X2"))
        = (m', Return true)
    ∧ lookupByID (devicesByInternalID (world m')) "//BASE:X2" = None
    ∧ lookupByID (devicesByInternalID (world m')) "//BASE:X1" = Some (Own 0).
Proof.
  destruct (unbind_removes_only_that_uuid sample_manager (unbind_from (Some "X2")) "X2"
              sample_registry_wf ltac:(discriminate) eq_refl eq_refl)
    as (m' & Hrun & _ & Hlook).
  exists m'. split; [exact Hrun|]. split.
  - exact (Hlook "//BASE:X2").
  - exact (Hlook "//BASE:X1").
Defined.

(** X12. An unbind notification whose originating UUID is missing (a [from]
    topic of fewer than three segments) or empty selects every device: on a
    well-formed registry it is reported handled and leaves the registry
    without any entry. *)
Theorem unbind_without_uuid_empties_registry {Payload : Type} (m : @Manager Payload)
    (n : @PushNotification Payload) :
  registry_wf (objects (world m)) (devicesByInternalID (world m)) →
  pn_namespace n = Namespace.CONTROL_UNBIND →
  originatingDeviceUUID n = None ∨ originatingDeviceUUID n = Some "" →
  ∃ m', handlePushNotificationPostDispatching m n = (m', Return true)
    ∧ devicesByInternalID (world m') = [].
Proof.
  intros Hwf Hns Horig.
  destruct (relinquish_filtered (objects (world m)) (devicesByInternalID (world m))
              (λ _, true) Hwf) as (reg' & Hrun & Hgone & _).
  rewrite List_filter_true in Hrun by done.
  assert (findDevices (world m) (by_deviceUUIDs (originatingDeviceUUID n))
          = dict_values (devicesByInternalID (world m))) as Hall.
  { unfold findDevices, findAllBy_js, findAllBy_with. apply List_filter_true.
    intros d. by destruct Horig as [-> | ->]. }
  assert (reg' = []) as ->.
  { assert (reg' `sublist_of` devicesByInternalID (world m)) as Hsub.
    { pose proof (relinquish_each_sublist (objects (world m))
                    (dict_values (devicesByInternalID (world m)))
                    (devicesByInternalID (world m))) as Hsub.
      by rewrite Hrun in Hsub. }
    destruct reg' as [|[k d] reg']; [done|]. exfalso.
    assert ((k, d) ∈ devicesByInternalID (world m)) as Hin
      by (eapply elem_of_sublist; [apply list_elem_of_here | done]).
    pose proof (Hgone d) as Hd. rewrite (proj2 Hwf _ _ Hin) in Hd.
    rewrite dict_get_cons, String.eqb_refl in Hd. discriminate Hd; [|done].
    unfold dict_values. apply list_elem_of_fmap. by exists (k, d). }
  exists (set_world m (set_registry (world m) [])). split; [|done].
  unfold handlePushNotificationPostDispatching.
  rewrite Hns, String.eqb_refl, Hall. by rewrite Hrun.
Qed.

Lemma unbind_without_uuid_empties_registry_witness :
  ∃ m', handlePushNotificationPostDispatching sample_manager (unbind_from None)
        = (m', Return true)
    ∧ devicesByInternalID (world m') = [].
Proof.
  apply (unbind_without_uuid_empties_registry sample_manager (unbind_from None)
           sample_registry_wf eq_refl (or_introl eq_refl)).
Defined.

(** ** Inbound messages *)

Lemma dict_get_delete_cases {V} (k k' : string) (d : list (string * V)) :
  dict_get k' (dict_delete k d) = None ∨ dict_get k' (dict_delete k d) = dict_get k' d.
Proof.
  destruct (String.eqb_spec k k') as [->|Hne].
  - left. apply dict_get_delete_eq.
  - right. by apply dict_get_delete_ne.
Qed.

(** X13. Whatever arrives, [onMessage] itself publishes nothing, settles no
    call, and touches neither the registry nor a device nor the clock: it
    can only drop pending entries and queue at most one callback behind the
    timers that are waiting. *)
Theorem onMessage_frame (md5 : string → string) {Payload : Type} (m m' : @Manager Payload)
    (topic : string) (message : @Envelope Payload) (hdr : Header) :
  onMessage md5 m topic message hdr = Return m' →
  world m' = world m ∧ published m' = published m ∧ outcomes m' = outcomes m
  ∧ clock m' = clock m ∧ calls m' = calls m ∧ connected m' = connected m
  ∧ (∀ k, dict_get k (pendingMessages m') = None
          ∨ dict_get k (pendingMessages m') = dict_get k (pendingMessages m))
  ∧ (timers m' = timers m ∨ ∃ t, timers m' = timers m ++ [((clock m + 1)%Z, t)]).
Proof.
  unfold onMessage. destruct (verifyMessageSignature _ _ _); simpl.
  2: { intros [= <-]. repeat split; auto. }
  destruct (_ && is_ack _).
  - destruct (dict_lookup _ (pendingMessages m)) as [[call|nm]|].
    3: { intros [= <-]. repeat split; auto. }
    all: case_bool_decide; intros [= <-]; simpl;
      (repeat split; [intros k; apply dict_get_delete_cases | right; by eexists]).
  - destruct (_ && bool_decide _).
    2: { intros [= <-]. repeat split; auto. }
    destruct (from hdr) as [src|]; [|done].
    destruct (parsePushNotification _ _ _) as [parsed|e]; [|done].
    intros [= <-]. simpl. repeat split; [by right | right; by eexists].
Qed.

Lemma onMessage_frame_witness :
  ∃ m', onMessage sample_digest waiting_manager "/app/46884-a1/subscribe"
          (answer "SETACK" "{}") (answer_header "SETACK") = Return m'
    ∧ world m' = world waiting_manager ∧ published m' = [] ∧ outcomes m' = [].
Proof.
  eexists. split; [reflexivity|].
  destruct (onMessage_frame sample_digest waiting_manager _ "/app/46884-a1/subscribe"
              (answer "SETACK" "{}") (answer_header "SETACK") eq_refl)
    as (Hw & Hp & Ho & _).
  split; [exact Hw|]. split; [exact Hp | exact Ho].
Defined.

Lemma onMessage_unknown_ack (md5 : string → string) {Payload : Type}
    (m : @Manager Payload) (message : @Envelope Payload) (hdr : Header) :
  verifyMessageSignature md5 hdr (key m) = true →
  is_ack (method hdr) = true →
  dict_lookup (template (messageId hdr)) (pendingMessages m) = None →
  onMessage md5 m (clientResponseTopic m) message hdr = Return m.
Proof.
  intros Hsig Hack Hnone. unfold onMessage.
  rewrite Hsig, String.eqb_refl, Hack. simpl. by rewrite Hnone.
Qed.

Lemma set_pending_same {Payload : Type} (m : @Manager Payload) :
  set_pending m (pendingMessages m) = m.
Proof. by destruct m. Qed.

(** X14. An acknowledgement is taken once.  Take a signed SETACK, GETACK or
    ERROR that arrives on the response topic.  When its message identifier
    names no member that every object inherits: if the identifier is not
    pending the message changes nothing, and if it is pending the message is
    handled and the same message arriving again changes nothing.  When the
    identifier is not pending but names an inherited member, such as
    [constructor], the member is taken for the pending entry: no entry is
    removed, and a callback is queued that settles no call. *)
Theorem onMessage_duplicate_ack (md5 : string → string) {Payload : Type}
    (m : @Manager Payload) (message : @Envelope Payload) (hdr : Header) :
  let mid := template (messageId hdr) in
  verifyMessageSignature md5 hdr (key m) = true →
  decimal_number (timestamp hdr) →
  is_ack (method hdr) = true →
  (inherited mid = false →
     (dict_get mid (pendingMessages m) = None →
        onMessage md5 m (clientResponseTopic m) message hdr = Return m)
     ∧ (is_Some (dict_get mid (pendingMessages m)) →
        ∃ m', onMessage md5 m (clientResponseTopic m) message hdr = Return m'
          ∧ m' ≠ m
          ∧ onMessage md5 m' (clientResponseTopic m') message hdr = Return m'))
  ∧ (inherited mid = true → dict_get mid (pendingMessages m) = None →
     ∃ t, onMessage md5 m (clientResponseTopic m) message hdr
          = Return (setTimeout m t None)
       ∧ ∀ m0 : @Manager Payload, run_task m0 t = m0).
Proof.
  intros mid Hsig _ Hack. split.
  - intros Hown. split.
    + intros Hnone. apply onMessage_unknown_ack; [done..|]. by apply dict_lookup_None.
    + intros [call Hget]. unfold onMessage at 1.
      rewrite Hsig, String.eqb_refl, Hack. simpl. fold mid.
      rewrite (dict_lookup_own _ _ _ Hget).
      case_bool_decide; (eexists; split; [done|]; split;
        [ intros Heq; apply (f_equal pendingMessages) in Heq; simpl in Heq;
          rewrite <- Heq, dict_get_delete_eq in Hget; done
        | apply onMessage_unknown_ack; [done | done |];
          apply dict_lookup_None; split; [apply dict_get_delete_eq | done] ]).
  - intros Hinh Hnone. unfold onMessage.
    rewrite Hsig, String.eqb_refl, Hack. simpl. fold mid.
    assert (dict_lookup mid (pendingMessages m) = Some (Inherited mid)) as ->
      by by apply dict_lookup_Inherited.
    rewrite dict_delete_fresh, set_pending_same by done.
    case_bool_decide; (eexists; split; [done|]; done).
Qed.

Lemma onMessage_duplicate_ack_witness :
  (∃ m', onMessage sample_digest waiting_manager "/app/46884-a1/subscribe"
          (answer "SETACK" "{}") (answer_header "SETACK") = Return m'
    ∧ m' ≠ waiting_manager
    ∧ onMessage sample_digest m' (clientResponseTopic m')
        (answer "SETACK" "{}") (answer_header "SETACK") = Return m')
  ∧ ∃ t, onMessage sample_digest waiting_manager "/app/46884-a1/subscribe"
           {| header := member_ack_header; payload := "{}" |} member_ack_header
         = Return (setTimeout waiting_manager t None)
      ∧ ∀ m0 : @Manager string, run_task m0 t = m0.
Proof.
  split.
  - apply (proj2 (proj1 (onMessage_duplicate_ack sample_digest waiting_manager
                           (answer "SETACK" "{}") (answer_header "SETACK")
                           eq_refl ltac:(simpl; lia) eq_refl) eq_refl)).
    by exists 0.
  - apply (proj2 (onMessage_duplicate_ack sample_digest waiting_manager
                    {| header := member_ack_header; payload := "{}" |} member_ack_header
                    eq_refl ltac:(simpl; lia) eq_refl));
      reflexivity.
Defined.

(** ** A command and its acknowledgement *)

Section RaceFacts.
Variable md5 : string → string.
Context {Payload : Type}.
Variable JSON_stringify : @Envelope Payload → string.
Implicit Types (m : @Manager Payload) (message : @Envelope Payload) (hdr : Header).

Lemma onMessage_ack_result m message hdr (mid : string) (call : nat) :
  verifyMessageSignature md5 hdr (key m) = true →
  is_ack (method hdr) = true →
  messageId hdr = Some mid →
  dict_get mid (pendingMessages m) = Some call →
  onMessage md5 m (clientResponseTopic m) message hdr
  = Return (setTimeout (set_pending m (dict_delete mid (pendingMessages m)))
              (ack_task call message hdr) None).
Proof.
  intros Hsig Hack Hmid Hpending. unfold onMessage, ack_task.
  rewrite Hsig, String.eqb_refl, Hack, Hmid. simpl.
  rewrite (dict_lookup_own _ _ _ Hpending).
  by case_bool_decide.
Qed.

Lemma run_next_timer_one m (d : Z) (t : @Task Payload) :
  timers m = [(d, t)] →
  run_next_timer m = Some (run_task (set_clock_timers m (Z.max (clock m) d) []) t).
Proof. intros Ht. unfold run_next_timer. rewrite Ht. simpl. by rewrite Z.eqb_refl. Qed.

Lemma run_next_timer_tie m (d : Z) (t1 t2 : @Task Payload) :
  timers m = [(d, t1); (d, t2)] →
  run_next_timer m
  = Some (run_task (set_clock_timers m (Z.max (clock m) d) [(d, t2)]) t1).
Proof.
  intros Ht. unfold run_next_timer. rewrite Ht. simpl.
  by rewrite Z.min_id, Z.eqb_refl.
Qed.

Lemma outcome_of_settle_settled m (call : nat) (o : Outcome) (v : Z * Outcome) :
  outcome_of m call = Some v → outcome_of (settle m call o) call = Some v.
Proof.
  unfold outcome_of, settle. simpl. intros Hv.
  destruct (List.find _ (outcomes m)) as [c|] eqn:Hfind; [|done].
  by rewrite Hfind.
Qed.

Lemma outcome_of_run_ack m (call : nat) message hdr (v : Z * Outcome) :
  outcome_of m call = Some v →
  outcome_of (run_task m (ack_task call message hdr)) call = Some v.
Proof.
  intros Hv. unfold ack_task. case_bool_decide; simpl; by apply outcome_of_settle_settled.
Qed.
End RaceFacts.

(** X16. An acknowledgement cannot win: even when the signed acknowledgement
    of a command is handled directly after the send, the timeout callback of
    the command is due no later and was queued first, so it runs first and
    the call is rejected with CommandTimeout; the callback of the
    acknowledgement runs afterwards and no longer changes the outcome. *)
Theorem ack_after_send_loses_to_timeout (md5 : string → string) {Payload : Type}
    (JSON_stringify : @Envelope Payload → string) (m : @Manager Payload)
    (dest method_ namespace_ : string) (p : Payload) (T : Z) (nonce : string)
    (message : @Envelope Payload) (hdr : Header) :
  connected m = true →
  timers m = [] →
  outcome_of m (calls m) = None →
  verifyMessageSignature md5 hdr (key m) = true →
  is_ack (method hdr) = true →
  messageId hdr = Some (md5 nonce) →
  ∃ m1 call m2 m3 m4 e,
    executeCommand md5 JSON_stringify m dest method_ namespace_ p T nonce = Return (m1, call)
    ∧ onMessage md5 m1 (clientResponseTopic m1) message hdr = Return m2
    ∧ run_next_timer m2 = Some m3
    ∧ outcome_of m3 call = Some ((clock m + 1)%Z, Rejected (CommandTimeout e))
    ∧ run_next_timer m3 = Some m4
    ∧ timers m4 = []
    ∧ outcome_of m4 call = Some ((clock m + 1)%Z, Rejected (CommandTimeout e)).
Proof.
  intros Hconn Htimers Hfresh Hsig Hack Hmid.
  unfold executeCommand. rewrite Hconn. simpl.
  set (msg := {| header := _; payload := p |}).
  set (e := timeout_message JSON_stringify msg dest None).
  set (m1 := (asyncSendAndWaitAck JSON_stringify m (md5 nonce) msg dest None).1).
  assert (dict_get (md5 nonce) (pendingMessages m1) = Some (calls m)) as Hpending
    by apply dict_get_set_eq.
  set (m2 := setTimeout (set_pending m1 (dict_delete (md5 nonce) (pendingMessages m1)))
               (ack_task (calls m) message hdr) None).
  assert (timers m2 = [((clock m + 1)%Z, TimeoutReject (calls m) (CommandTimeout e));
                       ((clock m + 1)%Z, ack_task (calls m) message hdr)]) as Hqueue.
  { unfold m2, m1, asyncSendAndWaitAck, setTimeout. simpl. by rewrite Htimers. }
  set (m3 := run_task (set_clock_timers m2 (Z.max (clock m2) (clock m + 1))
                         [((clock m + 1)%Z, ack_task (calls m) message hdr)])
               (TimeoutReject (calls m) (CommandTimeout e))).
  assert (outcome_of m3 (calls m) = Some ((clock m + 1)%Z, Rejected (CommandTimeout e)))
    as Hout.
  { unfold m3. cbn [run_task]. rewrite outcome_of_settle_fresh by done.
    simpl. do 2 f_equal. lia. }
  exists m1, (calls m), m2, m3. eexists. exists e.
  split; [done|]. split; [by apply onMessage_ack_result|].
  split; [by apply run_next_timer_tie|]. split; [done|].
  split; [by apply run_next_timer_one|]. split; [|by apply outcome_of_run_ack].
  unfold ack_task. by case_bool_decide.
Qed.

Lemma ack_after_send_loses_to_timeout_witness :
  ∃ m1 call m2 m3 m4 e,
    executeCommand sample_digest sample_stringify (manager_at 0) "X1" "GET"
      "Appliance.System.All" "{}" 5 "NONCE" = Return (m1, call)
    ∧ onMessage sample_digest m1 (clientResponseTopic m1)
        {| header := nonce_ack_header; payload := "abilities" |} nonce_ack_header
      = Return m2
    ∧ run_next_timer m2 = Some m3
    ∧ outcome_of m3 call = Some ((0 + 1)%Z, Rejected (CommandTimeout e))
    ∧ run_next_timer m3 = Some m4
    ∧ timers m4 = []
    ∧ outcome_of m4 call = Some ((0 + 1)%Z, Rejected (CommandTimeout e)).
Proof.
  apply (ack_after_send_loses_to_timeout sample_digest sample_stringify (manager_at 0)
           "X1" "GET" "Appliance.System.All" "{}" 5 "NONCE"
           {| header := nonce_ack_header; payload := "abilities" |} nonce_ack_header);
    reflexivity.
Defined.

(** X15. A late acknowledgement.  After a command was sent and its timeout
    callback has run, the call is rejected with CommandTimeout and the pending
    entry is still in the table.  A signed acknowledgement of the command
    that arrives at any later time finds that entry, removes it and queues
    its callback; when the callback has run, no timer is left and the outcome
    of the call is still the CommandTimeout of one millisecond after the
    send: the payload of the acknowledgement does not reach the caller. *)
Theorem late_ack_keeps_timeout (md5 : string → string) {Payload : Type}
    (JSON_stringify : @Envelope Payload → string) (m : @Manager Payload)
    (dest method_ namespace_ : string) (p : Payload) (T : Z) (nonce : string)
    (message : @Envelope Payload) (hdr : Header) (now : Z) :
  connected m = true →
  timers m = [] →
  outcome_of m (calls m) = None →
  verifyMessageSignature md5 hdr (key m) = true →
  decimal_number (timestamp hdr) →
  is_ack (method hdr) = true →
  messageId hdr = Some (md5 nonce) →
  (clock m + 1 ≤ now)%Z →
  ∃ m1 call m2 m3 m4 e,
    executeCommand md5 JSON_stringify m dest method_ namespace_ p T nonce = Return (m1, call)
    ∧ run_next_timer m1 = Some m2
    ∧ timers m2 = []
    ∧ outcome_of m2 call = Some ((clock m + 1)%Z, Rejected (CommandTimeout e))
    ∧ dict_get (md5 nonce) (pendingMessages m2) = Some call
    ∧ onMessage md5 (set_clock_timers m2 now []) (clientResponseTopic m2) message hdr
      = Return m3
    ∧ dict_get (md5 nonce) (pendingMessages m3) = None
    ∧ run_next_timer m3 = Some m4
    ∧ timers m4 = []
    ∧ outcome_of m4 call = Some ((clock m + 1)%Z, Rejected (CommandTimeout e)).
Proof.
  intros Hconn Htimers Hfresh Hsig _ Hack Hmid Hnow.
  unfold executeCommand. rewrite Hconn. simpl.
  set (msg := {| header := _; payload := p |}).
  set (e := timeout_message JSON_stringify msg dest None).
  set (m1 := (asyncSendAndWaitAck JSON_stringify m (md5 nonce) msg dest None).1).
  assert (timers m1 = [((clock m + 1)%Z, TimeoutReject (calls m) (CommandTimeout e))])
    as Hqueue.
  { unfold m1, asyncSendAndWaitAck, setTimeout. simpl. by rewrite Htimers. }
  set (m2 := run_task (set_clock_timers m1 (Z.max (clock m1) (clock m + 1)) [])
               (TimeoutReject (calls m) (CommandTimeout e))).
  assert (outcome_of m2 (calls m) = Some ((clock m + 1)%Z, Rejected (CommandTimeout e)))
    as Hout.
  { unfold m2. cbn [run_task]. rewrite outcome_of_settle_fresh by done.
    simpl. do 2 f_equal. lia. }
  assert (dict_get (md5 nonce) (pendingMessages m2) = Some (calls m)) as Hpending
    by apply dict_get_set_eq.
  set (m2' := set_clock_timers m2 now []).
  set (m3 := setTimeout (set_pending m2' (dict_delete (md5 nonce) (pendingMessages m2')))
               (ack_task (calls m) message hdr) None).
  set (m4 := run_task (set_clock_timers m3 (Z.max (clock m3) (now + 1)) [])
               (ack_task (calls m) message hdr)).
  exists m1, (calls m), m2, m3, m4, e.
  split; [done|]. split; [by apply run_next_timer_one|]. split; [done|].
  split; [done|]. split; [done|].
  split; [by apply (onMessage_ack_result md5 m2' message hdr (md5 nonce) (calls m))|].
  split; [apply dict_get_delete_eq|].
  split; [by apply run_next_timer_one|].
  split; [unfold m4, ack_task; by case_bool_decide|].
  by apply outcome_of_run_ack.
Qed.

Lemma late_ack_keeps_timeout_witness :
  ∃ m1 call m2 m3 m4 e,
    executeCommand sample_digest sample_stringify (manager_at 0) "X1" "GET"
      "Appliance.System.All" "{}" 5 "NONCE" = Return (m1, call)
    ∧ run_next_timer m1 = Some m2
    ∧ timers m2 = []
    ∧ outcome_of m2 call = Some ((0 + 1)%Z, Rejected (CommandTimeout e))
    ∧ dict_get (sample_digest "NONCE") (pendingMessages m2) = Some call
    ∧ onMessage sample_digest (set_clock_timers m2 250 []) (clientResponseTopic m2)
        {| header := nonce_ack_header; payload := "abilities" |} nonce_ack_header
      = Return m3
    ∧ dict_get (sample_digest "NONCE") (pendingMessages m3) = None
    ∧ run_next_timer m3 = Some m4
    ∧ timers m4 = []
    ∧ outcome_of m4 call = Some ((0 + 1)%Z, Rejected (CommandTimeout e)).
Proof.
  apply (late_ack_keeps_timeout sample_digest sample_stringify (manager_at 0)
           "X1" "GET" "Appliance.System.All" "{}" 5 "NONCE"
           {| header := nonce_ack_header; payload := "abilities" |} nonce_ack_header 250);
    first [reflexivity | simpl; lia].
Defined.

(** X17. A command issued on a connected manager publishes exactly one
    envelope, on the request topic of the target device; the envelope names
    the manager's response topic as sender, carries the payload, verifies
    under the manager's key, and its message identifier is the key of the
    pending entry of the call.  On a manager that is not connected the call
    throws before anything is published or registered. *)
Theorem executeCommand_publishes (md5 : string → string) {Payload : Type}
    (JSON_stringify : @Envelope Payload → string) (m : @Manager Payload)
    (dest method_ namespace_ : string) (p : Payload) (T : Z) (nonce : string) :
  (connected m = false →
     executeCommand md5 JSON_stringify m dest method_ namespace_ p T nonce
     = Throw (Error "The MQTT client is not connected to the remote broker."))
  ∧ (connected m = true →
     ∃ m1 call message,
       executeCommand md5 JSON_stringify m dest method_ namespace_ p T nonce
       = Return (m1, call)
       ∧ published m1 = published m ++ [(buildDeviceRequestTopic dest, message)]
       ∧ from (header message) = Some (clientResponseTopic m)
       ∧ method (header message) = Some method_
       ∧ payload message = p
       ∧ verifyMessageSignature md5 (header message) (key m) = true
       ∧ dict_get (template (messageId (header message))) (pendingMessages m1) = Some call
       ∧ world m1 = world m).
Proof.
  unfold executeCommand. split; intros ->; simpl; [done|].
  eexists _, _, _. split; [reflexivity|]. simpl.
  split; [done|]. split; [done|]. split; [done|]. split; [done|]. split.
  - unfold verifyMessageSignature. simpl. by apply bool_decide_eq_true_2.
  - split; [apply dict_get_set_eq | done].
Qed.

Lemma executeCommand_publishes_witness :
  ∃ m1 call message,
    executeCommand sample_digest sample_stringify (manager_at 0) "X1" "GET"
      "Appliance.System.All" "{}" 5 "NONCE" = Return (m1, call)
    ∧ published m1 = [] ++ [("/appliance/X1/subscribe", message)]
    ∧ from (header message) = Some "/app/46884-a1/subscribe"
    ∧ method (header message) = Some "GET"
    ∧ payload message = "{}"
    ∧ verifyMessageSignature sample_digest (header message) "k3y" = true
    ∧ dict_get (template (messageId (header message))) (pendingMessages m1) = Some call
    ∧ world m1 = sample_world.
Proof.
  apply (proj2 (executeCommand_publishes sample_digest sample_stringify (manager_at 0)
                  "X1" "GET" "Appliance.System.All" "{}" 5 "NONCE")).
  reflexivity.
Defined.

(** ** The originating UUID of a notification *)

Lemma split_slash_whole (s : string) : ∀ cur : string,
  no_slash s = true → split_slash_aux s cur = [cur +:+ s].
Proof.
  induction s as [|c s IH]; intros cur Hns; simpl in *.
  - by rewrite append_empty.
  - apply andb_prop in Hns as [Hc Hns]. apply negb_true_iff in Hc. rewrite Hc.
    rewrite IH by done. by rewrite append_snoc.
Qed.

(** X18. [deviceUUIDFromPushNotification] returns the third of the segments
    that the slashes of the topic separate: for a topic [/a/U/rest] with no
    slash in [a] and [U] it returns [U], whatever follows; for a text
    without any slash it returns [undefined]. *)
Theorem deviceUUID_is_third_segment (a U rest s : string) :
  (no_slash a = true → no_slash U = true →
     deviceUUIDFromPushNotification
       (String "/"%char (a +:+ String "/"%char (U +:+ String "/"%char rest))) = Some U)
  ∧ (no_slash s = true → deviceUUIDFromPushNotification s = None).
Proof.
  unfold deviceUUIDFromPushNotification, split_slash. split.
  - intros Ha HU. simpl. by rewrite !split_slash_segment.
  - intros Hs. by rewrite split_slash_whole.
Qed.

Lemma deviceUUID_is_third_segment_witness :
  deviceUUIDFromPushNotification "/appliance/1234abcd/publish/more" = Some "1234abcd"
  ∧ deviceUUIDFromPushNotification "appliance" = None.
Proof.
  split.
  - apply (proj1 (deviceUUID_is_third_segment "appliance" "1234abcd" "publish/more" ""));
      reflexivity.
  - apply (proj2 (deviceUUID_is_third_segment "" "" "" "appliance")). reflexivity.
Defined.

(** ** More on the capability factory *)

Section FactoryFacts.
Context {Mixin : Type} `{EqDecision Mixin}.
Variable M : list (string * Mixin).

Lemma set_add_NoDup {A} `{EqDecision A} (x : A) (s : list A) :
  NoDup s → NoDup (set_add x s).
Proof.
  intros Hnd. unfold set_add. case_bool_decide; [done|].
  apply NoDup_app. split; [done|]. split; [|apply NoDup_singleton].
  intros y Hy Hy'. apply list_elem_of_singleton in Hy'. by subst.
Qed.

Lemma set_add_elem {A} `{EqDecision A} (x y : A) (s : list A) :
  y ∈ set_add x s ↔ y = x ∨ y ∈ s.
Proof.
  unfold set_add. case_bool_decide as Hin.
  - split; [by right | by intros [->|?]].
  - rewrite elem_of_app, list_elem_of_singleton. tauto.
Qed.

Lemma dict_get_value {V} (k : string) (v : V) (d : list (string * V)) :
  dict_get k d = Some v → v ∈ dict_values d.
Proof.
  intros Hget. apply dict_get_Some_elem in Hget. unfold dict_values.
  apply list_elem_of_fmap. by exists (k, v).
Qed.

(** What indexing the table gives is a class of the table or a member the
    table inherits. *)
Lemma dict_lookup_table (k : string) (x : Member Mixin) :
  dict_lookup k M = Some x →
  match x with
  | Own c => c ∈ dict_values M
  | Inherited nm => inherited nm = true
  end.
Proof.
  destruct x as [c|nm].
  - intros Hc. apply dict_lookup_Own in Hc. by eapply dict_get_value.
  - intros Hnm. by apply dict_lookup_Inherited in Hnm as (_ & ? & ->).
Qed.

Lemma add_plugin_ts_inv (a : Abilities) (acc : list (Member Mixin))
    (entry : string * JsValue) (P : Member Mixin → Prop) :
  (∀ k x, dict_lookup k M = Some x → P x) →
  NoDup acc ∧ (∀ x, x ∈ acc → P x) →
  NoDup (add_plugin_ts M a acc entry) ∧ (∀ x, x ∈ add_plugin_ts M a acc entry → P x).
Proof.
  intros HP [Hnd Hsub]. unfold add_plugin_ts.
  destruct (match get_ability a _ with Some v => _ | None => None end) as [cx|] eqn:Hcx.
  - split; [by apply set_add_NoDup|]. intros x Hx.
    apply set_add_elem in Hx as [->|Hx]; [|by apply Hsub].
    destruct (get_ability a _) as [v|]; [|done].
    destruct (truthy_value v); [|done]. by eapply HP.
  - destruct (dict_lookup entry.1 M) as [c|] eqn:Hc; [|done].
    split; [by apply set_add_NoDup|]. intros x Hx.
    apply set_add_elem in Hx as [->|Hx]; [|by apply Hsub]. by eapply HP.
Qed.

Lemma foldl_add_plugin_ts_inv (a : Abilities) (es : list (string * JsValue))
    (P : Member Mixin → Prop) :
  (∀ k x, dict_lookup k M = Some x → P x) →
  ∀ acc : list (Member Mixin),
  NoDup acc ∧ (∀ x, x ∈ acc → P x) →
  NoDup (foldl (add_plugin_ts M a) acc es)
  ∧ (∀ x, x ∈ foldl (add_plugin_ts M a) acc es → P x).
Proof.
  intros HP. induction es as [|e es IH]; intros acc Hacc; [done|].
  simpl. by apply IH, add_plugin_ts_inv.
Qed.

(** A round of the loop never takes a member out of the set. *)
Lemma add_plugin_ts_grows (a : Abilities) (acc : list (Member Mixin))
    (entry : string * JsValue) (x : Member Mixin) :
  x ∈ acc → x ∈ add_plugin_ts M a acc entry.
Proof.
  intros Hx. unfold add_plugin_ts.
  destruct (match get_ability a _ with Some v => _ | None => None end) as [cx|].
  - apply set_add_elem. by right.
  - destruct (dict_lookup entry.1 M); [|done]. apply set_add_elem. by right.
Qed.

Lemma foldl_add_plugin_ts_grows (a : Abilities) (es : list (string * JsValue))
    (x : Member Mixin) : ∀ acc : list (Member Mixin),
  x ∈ acc → x ∈ foldl (add_plugin_ts M a) acc es.
Proof.
  induction es as [|e es IH]; intros acc Hx; [done|].
  simpl. by apply IH, add_plugin_ts_grows.
Qed.
End FactoryFacts.

(** With the table of the source, a round of the loop selects nothing for
    an entry unless its key, or the text of the value reported for its X
    variant, names a member of [Object.prototype]. *)
Lemma foldl_add_plugin_ts_none {Mixin : Type} `{EqDecision Mixin} (a : Abilities)
    (es : list (string * JsValue)) :
  (∀ kv, kv ∈ entries a →
         inherited kv.1 = false ∧ inherited (to_property_key kv.2) = false) →
  (∀ kv, kv ∈ es → kv ∈ entries a) →
  ∀ acc : list (Member Mixin), foldl (add_plugin_ts _ABILITY_MATRIX a) acc es = acc.
Proof.
  intros Hnames. induction es as [|[k v] es IH]; intros Hsub acc; [done|].
  simpl. rewrite IH by (intros kv Hkv; by apply Hsub, list_elem_of_further).
  unfold add_plugin_ts, _ABILITY_MATRIX, dict_lookup. simpl.
  destruct (Hnames (k, v)) as [Hk _]; [apply Hsub, list_elem_of_here|].
  simpl in Hk. rewrite Hk.
  destruct (get_ability a (k +:+ "X")) as [vx|] eqn:Hx; [|done].
  destruct (truthy_value vx); [|done].
  apply dict_get_Some_elem in Hx. destruct (Hnames _ Hx) as [_ Hvx].
  simpl in Hvx. by rewrite Hvx.
Qed.

(** With the table of the source, an entry whose key names a member of
    [Object.prototype], and for which no X variant is reported, selects that
    member. *)
Lemma foldl_add_plugin_ts_member {Mixin : Type} `{EqDecision Mixin} (a : Abilities)
    (k : string) (v : JsValue) (es : list (string * JsValue)) :
  inherited k = true →
  get_ability a (k +:+ "X") = None →
  (k, v) ∈ es →
  ∀ acc : list (Member Mixin),
  Inherited k ∈ foldl (add_plugin_ts _ABILITY_MATRIX a) acc es.
Proof.
  intros Hk Hx. induction es as [|e es IH]; intros Hin acc.
  - by apply elem_of_nil in Hin.
  - simpl. apply elem_of_cons in Hin as [<-|Hin]; [|by apply IH].
    apply foldl_add_plugin_ts_grows.
    unfold add_plugin_ts, _ABILITY_MATRIX, dict_lookup. simpl. rewrite Hx, Hk.
    apply set_add_elem. by left.
Qed.

(** X19. Whatever the ability table holds and whatever a device reports,
    the members of the set that [buildCachedType] of device-factory.ts
    fills are pairwise different, each of them is a class of the table or a
    member the table inherits from [Object.prototype], and the base class is
    the one handed in.  With the table of the source, which has no row, no
    mixin is selected when no reported key and no reported value names such a
    member; a reported key that names one, such as [constructor], with no X
    variant reported, puts that member into the set. *)
Theorem buildCachedType_ts_mixins {Mixin : Type} `{EqDecision Mixin}
    (table : list (string * Mixin)) (device_abilities : Abilities) (base : DeviceClass) :
  NoDup (mixins (buildCachedType_ts table device_abilities base))
  ∧ (∀ x, x ∈ mixins (buildCachedType_ts table device_abilities base) →
          match x with
          | Own c => c ∈ dict_values table
          | Inherited nm => inherited nm = true
          end)
  ∧ baseClass (buildCachedType_ts table device_abilities base) = base
  ∧ ((∀ kv, kv ∈ entries device_abilities →
            inherited kv.1 = false ∧ inherited (to_property_key kv.2) = false) →
     mixins (buildCachedType_ts (Mixin := Mixin) _ABILITY_MATRIX device_abilities base) = [])
  ∧ (∀ k v, (k, v) ∈ entries device_abilities →
            inherited k = true →
            get_ability device_abilities (k +:+ "X") = None →
            Inherited k
            ∈ mixins (buildCachedType_ts (Mixin := Mixin) _ABILITY_MATRIX
                        device_abilities base)).
Proof.
  split; [|split; [|split; [done|split]]].
  - simpl. apply (foldl_add_plugin_ts_inv table device_abilities _ (λ _, True)); [done|].
    split; [apply NoDup_nil_2 | done].
  - simpl. apply (foldl_add_plugin_ts_inv table device_abilities _
                    (λ x, match x with
                          | Own c => c ∈ dict_values table
                          | Inherited nm => inherited nm = true
                          end)).
    + apply dict_lookup_table.
    + split; [apply NoDup_nil_2|]. intros x Hx. by apply elem_of_nil in Hx.
  - intros Hnames. simpl. by apply foldl_add_plugin_ts_none.
  - intros k v Hin Hk Hx. simpl. by eapply foldl_add_plugin_ts_member.
Qed.

(** X20. The factory cache is keyed by type, hardware and firmware version
    only.  After one device of a kind was built, building another of that
    kind takes the cached factory and leaves the cache as it is, whatever
    abilities the second device reports: the second device has the base
    class of the first and is given the ability list of the device the
    factory was made for. *)
Theorem factory_cache_reuse {Mixin : Type} `{EqDecision Mixin}
    (table : list (string * Mixin)) (cache cache1 : FactoryCache)
    (w w1 w' : World) (info info' : HTTPDeviceInfo) (a a' : Abilities)
    (d1 : loc) (f1 : DeviceFactory) :
  buildMerossDevice_ts table cache w info a = Return (cache1, w1, d1, f1) →
  Info.device_type info' = Info.device_type info →
  Info.hdware_version info' = Info.hdware_version info →
  Info.fmware_version info' = Info.fmware_version info →
  ∃ w2 d2,
    buildMerossDevice_ts table cache1 w' info' a' = Return (cache1, w2, d2, f1)
    ∧ uuid (objects w2 d2) = Info.uuid info'
    ∧ cls (objects w2 d2) = baseClass f1
    ∧ abilitiesSpec (objects w2 d2) = Some (closure_abilities f1)
    ∧ (dict_get (calculateDeviceTypeName (Info.device_type info)
                   (Info.hdware_version info) (Info.fmware_version info)) cache = None →
       closure_abilities f1 = a).
Proof.
  unfold buildMerossDevice_ts, buildMerossDevice_with. intros Hfirst Hty Hhd Hfm.
  rewrite Hty, Hhd, Hfm.
  set (nm := calculateDeviceTypeName _ _ _) in *.
  assert (dict_get nm cache1 = Some f1
          ∧ (dict_get nm cache = None → closure_abilities f1 = a)) as [Hhit Hmiss].
  { revert Hfirst. unfold lookupCachedType.
    destruct (dict_get nm cache) as [f|] eqn:Hget.
    - simpl. intros [= <- _ _ <-]. done.
    - destruct (calculate_factory _ _ a) as [f|e] eqn:Hcalc; [|done].
      simpl. intros [= <- _ _ <-]. split; [apply dict_get_set_eq|]. intros _.
      revert Hcalc. unfold calculate_factory.
      destruct (abilities_includes _ a _) as [isHub|e]; [|done]. by intros [= <-]. }
  unfold lookupCachedType. rewrite Hhit. simpl.
  eexists _, _. split; [reflexivity|]. simpl. rewrite store_eq. done.
Qed.

Lemma factory_cache_reuse_witness :
  ∃ cache1 w1 d1 f1 w2 d2,
    buildMerossDevice_ts (Mixin := string) _ABILITY_MATRIX [] empty_world scenario_info
      scenario_abilities = Return (cache1, w1, d1, f1)
    ∧ buildMerossDevice_ts (Mixin := string) _ABILITY_MATRIX cache1 w1 second_info
        hub_abilities = Return (cache1, w2, d2, f1)
    ∧ cls (objects w2 d2) = BaseDevice
    ∧ abilitiesSpec (objects w2 d2) = Some scenario_abilities.
Proof.
  eexists _, _, _, _.
  destruct (factory_cache_reuse (Mixin := string) _ABILITY_MATRIX [] _ empty_world _
              (alloc (with_abilitiesSpec (Ts.new_BaseDevice BaseDevice "X1" scenario_info)
                        scenario_abilities) empty_world).1
              scenario_info second_info scenario_abilities hub_abilities _ _
              eq_refl eq_refl eq_refl eq_refl)
    as (w2 & d2 & Hrun & _ & Hcls & Hspec & _).
  exists w2, d2. split; [reflexivity|]. split; [exact Hrun|].
  split; [exact Hcls | exact Hspec].
Defined.

Lemma findDevices_by_uuid_list_witness :
  0 ∈ findDevices sample_world (by_uuid_list (StringArray ["X9"; "X1"])).
Proof.
  apply (proj1 (findDevices_by_uuid_list sample_world ["X9"; "X1"]) 0). split.
  - vm_compute. apply list_elem_of_here.
  - vm_compute. apply list_elem_of_further, list_elem_of_here.
Defined.

Lemma buildCachedType_ts_mixins_witness :
  "ToggleXMixin" ∈ dict_values toggle_rows
  ∧ mixins (buildCachedType_ts (Mixin := string) _ABILITY_MATRIX reported_abilities
              BaseDevice) = []
  ∧ Inherited "constructor"
    ∈ mixins (buildCachedType_ts (Mixin := string) _ABILITY_MATRIX member_abilities
                BaseDevice).
Proof.
  split; [|split].
  - apply (proj1 (proj2 (buildCachedType_ts_mixins toggle_rows reported_abilities
                           BaseDevice)) (Own "ToggleXMixin")).
    vm_compute. apply list_elem_of_further, list_elem_of_here.
  - apply (proj1 (proj2 (proj2 (proj2 (buildCachedType_ts_mixins (Mixin := string)
                                         [] reported_abilities BaseDevice))))).
    intros kv Hkv. vm_compute in Hkv.
    repeat (apply elem_of_cons in Hkv as [->|Hkv]; [by split|]).
    by apply elem_of_nil in Hkv.
  - apply (proj2 (proj2 (proj2 (proj2 (buildCachedType_ts_mixins (Mixin := string)
                                         [] member_abilities BaseDevice))))
             "constructor" JsObject); [apply list_elem_of_here | reflexivity..].
Defined.

(** ** The nonce *)

Lemma nonce_digit (n : nat) : n < 36 → nonce_char (upper_char (digit36 n)) = true.
Proof.
  intros Hn. do 36 (destruct n as [|n]; [reflexivity|]). lia.
Qed.

(** X21. [generateNonce] turns every random byte into one character: the
    nonce is as long as the byte array, and made of the digits and the
    capital letters A to Z only. *)
Theorem generateNonce_alphabet (arr : list nat) :
  String.length (generateNonce arr) = length arr
  ∧ string_forall nonce_char (generateNonce arr) = true.
Proof.
  unfold generateNonce. induction arr as [|dec arr [IHlen IHchars]]; [done|].
  cbn [foldr fold_right toUpperCase String.length string_forall length].
  split; [by rewrite IHlen|].
  rewrite IHchars, andb_true_r. apply nonce_digit.
  apply Nat.mod_upper_bound. lia.
Qed.

(** ** Subscription and discovery *)

Lemma promise_all_updates (h : heap) (l : list loc) :
  ((∀ d, d ∈ l → cls (h d) = GenericSubDevice) →
     promise_all ((λ d, update h d) <$> l) = Return (replicate (length l) ()))
  ∧ (∀ i d, l !! i = Some d → cls (h d) ≠ GenericSubDevice →
       (∀ j d', j < i → l !! j = Some d' → cls (h d') = GenericSubDevice) →
       promise_all ((λ d, update h d) <$> l) = Throw (Error (update_message (h d)))).
Proof.
  induction l as [|a l [IHall IHfirst]]; split.
  - done.
  - intros i d Hd. done.
  - intros Hall. rewrite fmap_cons. cbn [promise_all length replicate].
    unfold update at 1. rewrite (Hall a (list_elem_of_here _ _)).
    rewrite IHall; [done|]. intros d Hd. by apply Hall, list_elem_of_further.
  - intros [|i] d Hd Hcls Hbefore; rewrite fmap_cons; cbn [promise_all]; simpl in Hd.
    + injection Hd as ->. unfold update. by destruct (cls (h d)).
    + unfold update at 1. rewrite (Hbefore 0 a); [|lia|done].
      rewrite (IHfirst i d Hd Hcls); [done|].
      intros j d' Hj Hd'. apply (Hbefore (S j)); [lia | done].
Qed.

(** X22. [onSubscribe] sets its flag and then asks every registered device
    to update.  It reports the number of devices only when all of them are
    sub-devices; otherwise it ends with the error that [update] of the first
    registered device that is no sub-device throws. *)
Theorem onSubscribe_spec (w : World) :
  ((∀ d, d ∈ dict_values (devicesByInternalID w) → cls (objects w d) = GenericSubDevice) →
     onSubscribe w = (true, Return (length (devicesByInternalID w))))
  ∧ (∀ i d, dict_values (devicesByInternalID w) !! i = Some d →
       cls (objects w d) ≠ GenericSubDevice →
       (∀ j d', j < i → dict_values (devicesByInternalID w) !! j = Some d' →
                cls (objects w d') = GenericSubDevice) →
       onSubscribe w = (true, Throw (Error (update_message (objects w d))))).
Proof.
  unfold onSubscribe.
  assert (findDevices w no_filters = dict_values (devicesByInternalID w)) as ->.
  { unfold findDevices, findAllBy_js, findAllBy_with. by apply List_filter_true. }
  destruct (promise_all_updates (objects w) (dict_values (devicesByInternalID w)))
    as [Hall Hfirst].
  split.
  - intros Hsub. rewrite Hall by done.
    unfold dict_values. by rewrite length_replicate, length_fmap.
  - intros i d Hd Hcls Hbefore. by rewrite (Hfirst i d).
Qed.

Lemma onSubscribe_spec_witness :
  onSubscribe empty_world = (true, Return 0)
  ∧ onSubscribe sample_world = (true, Throw (Error (update_message plug))).
Proof.
  split.
  - apply (proj1 (onSubscribe_spec empty_world)).
    intros d Hd. by apply elem_of_nil in Hd.
  - apply (proj2 (onSubscribe_spec sample_world) 0 0); [reflexivity | discriminate |].
    intros j d' Hj. lia.
Defined.

Lemma update_known_matching (known : list (HTTPDeviceInfo * loc)) : ∀ h : heap,
  (∀ i d, (i, d) ∈ known → uuid (h d) = Info.uuid i) →
  (update_known h known).2 = None
  ∧ ∀ l, uuid ((update_known h known).1 l) = uuid (h l).
Proof.
  induction known as [|[i d] known IH]; intros h Hmatch; [done|].
  simpl. unfold Js.updateFromHTTPState.
  rewrite bool_decide_eq_false_2
    by (intros Hne; apply Hne; symmetry; apply Hmatch, list_elem_of_here).
  set (h' := store d _ h).
  assert (∀ l, uuid (h' l) = uuid (h l)) as Hsame.
  { intros l. unfold h', store. by destruct (Nat.eqb_spec l d) as [->|]. }
  destruct (IH h') as [Hnone Huuid].
  { intros i' d' Hin. rewrite Hsame. by apply Hmatch, list_elem_of_further. }
  split; [done|]. intros l. by rewrite Huuid.
Qed.

Lemma classify_wf (h : heap) (reg : Registry) (httpDevices : list HTTPDeviceInfo) :
  registry_wf h reg →
  ∃ known new, classify h reg httpDevices = Return (known, new)
    ∧ length known + length new = length httpDevices
    ∧ (∀ i d, (i, d) ∈ known →
         i ∈ httpDevices ∧ uuid (h d) = Info.uuid i
         ∧ lookupByID reg ("//BASE:" +:+ Info.uuid i) = Some (Own d))
    ∧ (∀ i, i ∈ new →
         i ∈ httpDevices ∧ lookupByID reg ("//BASE:" +:+ Info.uuid i) = None).
Proof.
  intros Hwf. induction httpDevices as [|device rest IH].
  - exists [], []. split; [done|]. split; [done|]. split.
    + intros i d Hin. by apply elem_of_nil in Hin.
    + intros i Hin. by apply elem_of_nil in Hin.
  - destruct IH as (known & new & Hrun & Hlen & Hknown & Hnew).
    simpl. rewrite lookupByUUID_wf by done. rewrite Hrun.
    destruct (dict_get ("//BASE:" +:+ Info.uuid device) reg) as [found|] eqn:Hfound.
    + exists ((device, found) :: known), new. split; [done|]. split; [simpl; lia|].
      split.
      * intros i d Hin. apply elem_of_cons in Hin as [[= -> ->]|Hin].
        -- split; [apply list_elem_of_here|]. split; [|by apply lookupByID_base_Own].
           apply dict_get_Some_elem in Hfound.
           by apply base_prefix_inj, (proj2 Hwf _ _ Hfound).
        -- destruct (Hknown i d Hin) as (? & ? & ?).
           split; [by apply list_elem_of_further | done].
      * intros i Hin. destruct (Hnew i Hin). split; [by apply list_elem_of_further | done].
    + exists known, (device :: new). split; [done|]. split; [simpl; lia|]. split.
      * intros i d Hin. destruct (Hknown i d Hin) as (? & ? & ?).
        split; [by apply list_elem_of_further | done].
      * intros i Hin. apply elem_of_cons in Hin as [->|Hin].
        -- split; [apply list_elem_of_here | by apply lookupByID_base_None].
        -- destruct (Hnew i Hin). split; [by apply list_elem_of_further | done].
Qed.

(** X23. On a well-formed registry the first part of a discovery run does
    not throw.  Every listed record ends up either with the device that is
    enrolled for its UUID or among the new ones, whose UUID has no enrolled
    device; and updating the known devices from their records raises no
    identity mismatch and changes no UUID. *)
Theorem discovery_updates_known_devices (w : World) (merossDeviceUUID : option string)
    (httpDevices : list HTTPDeviceInfo) :
  registry_wf (objects w) (devicesByInternalID w) →
  ∃ known new,
    discovery_classify w merossDeviceUUID httpDevices = Return (known, new)
    ∧ length known + length new = length (discovery_filter merossDeviceUUID httpDevices)
    ∧ (∀ i d, (i, d) ∈ known →
         uuid (objects w d) = Info.uuid i
         ∧ lookupByID (devicesByInternalID w) ("//BASE:" +:+ Info.uuid i) = Some (Own d))
    ∧ (∀ i, i ∈ new →
         lookupByID (devicesByInternalID w) ("//BASE:" +:+ Info.uuid i) = None)
    ∧ (update_known (objects w) known).2 = None
    ∧ ∀ l, uuid ((update_known (objects w) known).1 l) = uuid (objects w l).
Proof.
  intros Hwf. unfold discovery_classify.
  destruct (classify_wf (objects w) (devicesByInternalID w)
              (discovery_filter merossDeviceUUID httpDevices) Hwf)
    as (known & new & Hrun & Hlen & Hknown & Hnew).
  exists known, new. split; [done|]. split; [done|].
  split; [intros i d Hin; by destruct (Hknown i d Hin) as (_ & ? & ?)|].
  split; [intros i Hin; by destruct (Hnew i Hin)|].
  apply update_known_matching. intros i d Hin. by destruct (Hknown i d Hin) as (_ & ? & _).
Qed.

Lemma discovery_updates_known_devices_witness :
  ∃ known new,
    discovery_classify sample_world None listed_devices = Return (known, new)
    ∧ length known + length new = 3
    ∧ (update_known sample_heap known).2 = None.
Proof.
  destruct (discovery_updates_known_devices sample_world None listed_devices
              sample_registry_wf)
    as (known & new & Hrun & Hlen & _ & _ & Hnone & _).
  exists known, new. split; [exact Hrun|]. split; [exact Hlen | exact Hnone].
Defined.

(** ** What stays fixed, and what is shared *)

Lemma run_op_identity (w : World) (o : Op) (s : loc) :
  s < next w →
  uuid (objects (run_op w o) s) = uuid (objects w s)
  ∧ cls (objects (run_op w o) s) = cls (objects w s)
  ∧ next w ≤ next (run_op w o).
Proof.
  intros Hs. destruct o as [d|k|d info|d info|hl sub|c u config|hu sid config|hu sid config|u];
    simpl.
  - done.
  - by destruct (relinquishDevice _ _).
  - unfold Js.updateFromHTTPState. case_bool_decide; [done|]. simpl.
    unfold store. destruct (Nat.eqb_spec s d) as [->|]; done.
  - unfold Ts.updateFromHTTPState. case_bool_decide; [done|]. simpl.
    unfold store. destruct (Nat.eqb_spec s d) as [->|]; done.
  - unfold registerSubDevice. destruct (dict_in _ _); [done|]. simpl.
    unfold store. destruct (Nat.eqb_spec s hl) as [->|]; done.
  - rewrite store_ne by lia. split; [done|]. split; [done|lia].
  - unfold new_GenericSubDevice_js. destruct (findDevices _ _); [done|]. simpl.
    rewrite store_ne by lia. split; [done|]. split; [done|lia].
  - unfold new_GenericSubDevice_ts. destruct (findDevices _ _); [done|]. simpl.
    rewrite store_ne by lia. split; [done|]. split; [done|lia].
  - done.
Qed.

(** X24. No call changes what a device is: through any sequence of
    enrolments, removals, inventory updates, sub-device registrations,
    constructions and unbind notifications, an existing device keeps its
    native UUID, its class and hence its internal identifier. *)
Theorem device_identity_is_stable (ops : list Op) (w : World) (s : loc) :
  s < next w →
  uuid (objects (run_ops w ops) s) = uuid (objects w s)
  ∧ cls (objects (run_ops w ops) s) = cls (objects w s)
  ∧ internalID (objects (run_ops w ops) s) = internalID (objects w s).
Proof.
  revert w. induction ops as [|o ops IH]; intros w Hs; [done|].
  unfold run_ops in *. simpl.
  destruct (run_op_identity w o s Hs) as (Hu & Hc & Hnext).
  destruct (IH (run_op w o)) as (Hu' & Hc' & Hi'); [lia|].
  unfold internalID in *. rewrite Hu', Hc', Hu, Hc. done.
Qed.

Lemma device_identity_is_stable_witness :
  internalID (objects (run_ops sample_world
     [OpUpdateFromHTTPState_js 0 newer_info; OpRelinquish "//BASE:X1";
      OpNewBaseDevice HubDevice "X1" newer_info; OpUnbind None]) 0)
  = "//BASE:X1".
Proof.
  apply (device_identity_is_stable
           [OpUpdateFromHTTPState_js 0 newer_info; OpRelinquish "//BASE:X1";
            OpNewBaseDevice HubDevice "X1" newer_info; OpUnbind None] sample_world 0).
  simpl. lia.
Defined.

(** The getter at [l] reads objects at [l] and below only. *)
Lemma onlineStatus_upto_agree (h h' : heap) :
  hubs_older h →
  ∀ n l, (∀ l', l' ≤ l → h' l' = h l') →
  onlineStatus_upto n h' l = onlineStatus_upto n h l.
Proof.
  intros Holder. induction n as [|n IH]; intros l Hagree; simpl;
    rewrite (Hagree l) by lia; [done|].
  destruct (cls (h l)); try done.
  destruct (hub (h l)) as [hl|] eqn:Hhub; [|done].
  apply Holder in Hhub. rewrite (IH hl); [done|].
  intros l' Hl'. apply Hagree. lia.
Qed.

Lemma updateFromHTTPState_object (h h' : heap) (l : loc) (deviceInfo : HTTPDeviceInfo) :
  Js.updateFromHTTPState h l deviceInfo = Return h'
  ∨ Ts.updateFromHTTPState h l deviceInfo = Return h' →
  (∀ l', l' ≠ l → h' l' = h l')
  ∧ cls (h' l) = cls (h l) ∧ hub (h' l) = hub (h l)
  ∧ online (h' l) = Info.online_status deviceInfo.
Proof.
  unfold Js.updateFromHTTPState, Ts.updateFromHTTPState.
  intros [Hrun|Hrun]; case_bool_decide; try done; injection Hrun as <-;
    rewrite store_eq; (split; [intros l' Hne; by rewrite store_ne | done]).
Qed.

(** X25. A sub-device sees its hub through the reference it holds.  Once
    the object it holds as hub has been updated from an inventory record (by
    devices.js or by devices.ts), the status of the sub-device is the status
    which that object now derives when it is not ONLINE, and the sub-device's
    own status when it is.  For a BaseDevice or a HubDevice the status
    derived is the status of the record; when the object held as hub is a
    sub-device itself, it is the status of that object's own hub when that is
    not ONLINE, and the status of the record otherwise. *)
Theorem hub_update_reaches_subdevice (h h' : heap) (s hl : loc)
    (deviceInfo : HTTPDeviceInfo) :
  hubs_older h →
  cls (h s) = GenericSubDevice →
  hub (h s) = Some hl →
  Js.updateFromHTTPState h hl deviceInfo = Return h'
  ∨ Ts.updateFromHTTPState h hl deviceInfo = Return h' →
  onlineStatus h' s
  = (if bool_decide (onlineStatus h' hl ≠ Some OnlineStatus.ONLINE)
     then onlineStatus h' hl
     else online (h s))
  ∧ (cls (h hl) ≠ GenericSubDevice → onlineStatus h' hl = Info.online_status deviceInfo)
  ∧ (∀ hhl, cls (h hl) = GenericSubDevice → hub (h hl) = Some hhl →
       onlineStatus h' hl
       = if bool_decide (onlineStatus h hhl ≠ Some OnlineStatus.ONLINE)
         then onlineStatus h hhl
         else Info.online_status deviceInfo).
Proof.
  intros Holder Hcls Hhub Hrun.
  apply updateFromHTTPState_object in Hrun as (Hother & Hcls' & Hhub' & Honline).
  assert (hubs_older h') as Holder'.
  { intros l l0. destruct (decide (l = hl)) as [->|Hne].
    - rewrite Hhub'. apply Holder.
    - rewrite Hother by done. apply Holder. }
  assert (hl < s) as Hlt by by apply Holder.
  assert (h' s = h s) as Hs by (apply Hother; lia).
  split; [|split].
  - rewrite (onlineStatus_subdevice h' s hl); rewrite ?Hs; done.
  - intros Hplain. rewrite onlineStatus_base by by rewrite Hcls'. done.
  - intros hhl Hsub Hhhl.
    rewrite (onlineStatus_subdevice h' hl hhl) by (rewrite ?Hcls', ?Hhub'; done).
    assert (onlineStatus h' hhl = onlineStatus h hhl) as ->.
    { apply onlineStatus_upto_agree; [done|]. intros l' Hl'. apply Hother.
      apply Holder in Hhhl. lia. }
    by rewrite Honline.
Qed.

Lemma hub_update_reaches_subdevice_witness :
  ∃ h', Js.updateFromHTTPState hub_heap 0 hub_offline_info = Return h'
    ∧ online (h' 1) = Some OnlineStatus.ONLINE
    ∧ onlineStatus h' 0 = Some OnlineStatus.OFFLINE
    ∧ onlineStatus h' 1 = Some OnlineStatus.OFFLINE.
Proof.
  eexists. split; [reflexivity|]. split; [reflexivity|].
  destruct (hub_update_reaches_subdevice hub_heap _ 1 0 hub_offline_info
              hub_heap_older eq_refl eq_refl (or_introl eq_refl))
    as (Hsub & Hhub & _).
  split.
  - apply Hhub. discriminate.
  - rewrite Hsub. reflexivity.
Defined.

(** X26. The constructors of devices.js and devices.ts build the same
    object whenever every property the record gives is truthy (a non-empty
    string, a status other than 0); they differ on an empty name, which
    devices.js keeps and devices.ts replaces by [unknown]. *)
Theorem new_BaseDevice_ports (c : DeviceClass) (deviceUUID : string)
    (config : HTTPDeviceInfo) :
  (Info.dev_name config ≠ Some "" → Info.device_type config ≠ Some "" →
   Info.fmware_version config ≠ Some "" → Info.hdware_version config ≠ Some "" →
   Info.online_status config ≠ Some 0%Z →
   Js.new_BaseDevice c deviceUUID config = Ts.new_BaseDevice c deviceUUID config)
  ∧ (Info.dev_name config = Some "" →
     name (Js.new_BaseDevice c deviceUUID config) = Some ""
     ∧ name (Ts.new_BaseDevice c deviceUUID config) = Some "unknown").
Proof.
  assert (∀ v : option string, v ≠ Some "" → default "unknown" v = or_string v "unknown")
    as Hstr.
  { intros [s|] Hv; [|done]. simpl. unfold truthy_string.
    destruct (String.eqb_spec s "") as [->|]; done. }
  split.
  - intros Hn Ht Hf Hh Ho. unfold Js.new_BaseDevice, Ts.new_BaseDevice.
    rewrite !Hstr by done.
    assert (default OnlineStatus.UNKNOWN (Info.online_status config)
            = or_number (Info.online_status config) OnlineStatus.UNKNOWN) as ->; [|done].
    destruct (Info.online_status config) as [z|]; [|done]. simpl. unfold truthy_number.
    destruct (Z.eqb_spec z 0) as [->|]; done.
  - intros Hn. simpl. by rewrite Hn.
Qed.

Lemma new_BaseDevice_ports_witness :
  Js.new_BaseDevice BaseDevice "X1" newer_info = Ts.new_BaseDevice BaseDevice "X1" newer_info
  ∧ name (Js.new_BaseDevice BaseDevice "X6" nameless_info) = Some ""
  ∧ name (Ts.new_BaseDevice BaseDevice "X6" nameless_info) = Some "unknown".
Proof.
  split.
  - apply (proj1 (new_BaseDevice_ports BaseDevice "X1" newer_info)); discriminate.
  - apply (proj2 (new_BaseDevice_ports BaseDevice "X6" nameless_info)). reflexivity.
Defined.
